(** * Writer statistics plugin: text analysis, daily aggregation, streaks

    A shallow embedding of the statistics core of the plugin:

    - [StatsManager] (services/StatsManager.ts): the day-record map, the
      change log, the streak record, loading and the settings update;
    - [TextAnalyzer] (services/TextAnalyzer.ts): the regex-based markup
      stripper [preprocessText] and the classifier [countCharacters];
    - [WordCountPlugin] (the single-file plugin): the state-machine
      stripper [preprocessText] and its copy of the streak step.

    Conventions.  JavaScript numbers that hold counters, lengths and
    millisecond time values are integers and are modelled by [Z]; where the
    code subtracts and divides time values, the rounding of the double format
    is written out.  Document text is a list of UTF-16 code units
    ([list Z]); map keys, dates and file names are [string].  Host services
    (the clock, the [Date] parser, the local time zone, the outcome of the
    plugin's [saveData]) are inputs of the operations. *)

From Stdlib Require Import ZArith Lia Ascii.
From stdpp Require Import base option list strings gmap.

Local Open Scope Z_scope.

(** ** types/stats.ts and types/settings.ts *)

Inductive Action := ActAdd | ActDelete.

Record CharChange := {
  cc_timestamp : Z;
  cc_action : Action;
  cc_fileName : string;
  cc_chinese : Z;
  cc_english : Z;
  cc_punctuation : Z;
  cc_numbers : Z;
  cc_spaces : Z;
  cc_words : Z;
  cc_total : Z
}.

Record DailyStats := {
  date : string;
  chinese : Z;
  english : Z;
  punctuation : Z;
  numbers : Z;
  spaces : Z;
  words : Z;
  total : Z;
  goal : Z;
  completed : bool;
  charChanges : list CharChange
}.

Record StreakData := {
  current : Z;
  longest : Z;
  lastDate : string
}.

Record TextAnalysisResult := {
  r_chinese : Z;
  r_english : Z;
  r_punctuation : Z;
  r_numbers : Z;
  r_spaces : Z;
  r_words : Z
}.

(** The toggles of [WordCountSettings] that the core reads; the heat-map and
    status-bar fields play no part in it. *)
Record WordCountSettings := {
  trackChinese : bool;
  trackEnglish : bool;
  trackPunctuation : bool;
  trackNumbers : bool;
  trackSpaces : bool;
  showWordCount : bool;
  enableCache : bool
}.

(** ** utils/constants.ts *)

Module CONSTANTS.

Definition MAX_CHAR_CHANGES : nat := 100.

Definition CACHE_TTL : Z := 5 * 60 * 1000.



End CONSTANTS.

(** ** JavaScript helpers *)

(** [a || b] on numbers: [0] is the only falsy integer. *)
Definition num_or (a b : Z) : Z := if a =? 0 then b else a.

(** [arr.slice(-n)]: the start index is [max (length - n) 0]. *)
Definition slice_last {A} (n : nat) (l : list A) : list A :=
  drop (length l - n)%nat l.

Definition msPerDay : Z := 1000 * 60 * 60 * 24.

(** *** Number arithmetic on time values

    A Number is a double: 53 significant bits, results rounded to the
    nearest representable value, to the one with the even significand when
    two are equally near.  Time values are integers of magnitude at most
    8.64e15 and are doubles themselves; their difference can need 54 bits,
    and a quotient is rarely representable. *)

(** The integer nearest to [n / d] for [d > 0], the even one of two that are
    equally near. *)
Definition roundEven (n d : Z) : Z :=
  let q := n `div` d in
  let r := n `mod` d in
  if 2 * r <? d then q
  else if d <? 2 * r then q + 1
  else if Z.even q then q else q + 1.

(** The double nearest to the integer [x]: with [e] the exponent of the last
    of the 53 bits, [x] is rounded to a multiple of [2 ^ e]. *)
Definition toDouble (x : Z) : Z :=
  let e := Z.log2 (Z.abs x) - 52 in
  if e <=? 0 then x
  else Z.sgn x * (roundEven (Z.abs x) (2 ^ e) * 2 ^ e).

(** [Math.floor(x / y)] for integer doubles [x] and [y > 0].  The quotient
    lies in [2 ^ L, 2 ^ (L + 1)) up to sign; it is rounded to a multiple
    [m * 2 ^ e] of [2 ^ e], [e = L - 52], and the floor is taken of that. *)
Definition floorQuotient (x y : Z) : Z :=
  if x =? 0 then 0
  else
    let a := Z.abs x in
    let k := Z.log2 a - Z.log2 y in
    let L := if y * 2 ^ Z.max k 0 <=? a * 2 ^ Z.max (- k) 0 then k else k - 1 in
    let e := L - 52 in
    let m := roundEven (a * 2 ^ Z.max (- e) 0) (y * 2 ^ Z.max e 0) in
    (Z.sgn x * m * 2 ^ Z.max e 0) `div` 2 ^ Z.max (- e) 0.

(** [Math.floor((t2 - t1) / (1000 * 60 * 60 * 24))] on two time values. *)
Definition dayDifference (t1 t2 : Z) : Z :=
  floorQuotient (toDouble (t2 - t1)) msPerDay.

(** *** Local time

    [Day], [TimeWithinDay] and [MakeDate] are the abstract operations of the
    language specification. *)
Definition Day (t : Z) : Z := t `div` msPerDay.
Definition TimeWithinDay (t : Z) : Z := t `mod` msPerDay.
Definition MakeDate (day time : Z) : Z := day * msPerDay + time.

(** How a call of an [async] method ends. *)
Inductive completion := Returned | Threw.

(** ** Values read back from the plugin store

    [plugin.loadData()] hands back whatever JSON the data file holds.  JSON
    numbers are restricted to integers here; a missing property reads as
    [VUndefined]. *)

#[local] Unset Elimination Schemes.
Inductive jsval :=
| VUndefined
| VNull
| VBool (b : bool)
| VNum (z : Z)
| VStr (s : string)
| VArr (items : list jsval)
| VObj (fields : gmap string jsval).
#[local] Set Elimination Schemes.

(** ToBoolean. *)
Definition truthy (v : jsval) : bool :=
  match v with
  | VUndefined | VNull => false
  | VBool b => b
  | VNum z => negb (z =? 0)
  | VStr s => negb (String.eqb s "")
  | VArr _ | VObj _ => true
  end.

(** [a || b]. *)
Definition js_or (a b : jsval) : jsval := if truthy a then a else b.

(** [v.name] for a property name that no built-in prototype defines: a
    TypeError ([None]) on [null] and [undefined], the stored field of an
    object, [undefined] everywhere else. *)
Definition js_get (v : jsval) (name : string) : option jsval :=
  match v with
  | VUndefined | VNull => None
  | VObj fields => Some (default VUndefined (fields !! name))
  | _ => Some VUndefined
  end.

(** ** services/StatsManager.ts *)

Module StatsManager.

Record t := {
  dailyStats : gmap string DailyStats;
  streakData : StreakData;
  settings : WordCountSettings
}.

Definition createEmptyStats (d : string) : DailyStats :=
  {| date := d; chinese := 0; english := 0; punctuation := 0; numbers := 0;
     spaces := 0; words := 0; total := 0; goal := 0; completed := false;
     charChanges := [] |}.

(** The state of a manager right after construction. *)
Definition initialStreak : StreakData :=
  {| current := 0; longest := 0; lastDate := "" |}.

Definition new (s : WordCountSettings) : t :=
  {| dailyStats := ∅; streakData := initialStreak; settings := s |}.

(** The sum that [updateWordCount] accumulates in [charCount]. *)
Definition charCount (s : WordCountSettings) (r : TextAnalysisResult) : Z :=
  let c := 0 in
  let c := if trackChinese s then c + r_chinese r else c in
  let c := if trackEnglish s then c + r_english r else c in
  let c := if trackPunctuation s then c + r_punctuation r else c in
  let c := if trackNumbers s then c + r_numbers r else c in
  let c := if trackSpaces s then c + r_spaces r else c in
  c.

Definition mkCharChange (now : Z) (fileName : string)
    (r : TextAnalysisResult) (tot : Z) : CharChange :=
  {| cc_timestamp := now; cc_action := ActAdd; cc_fileName := fileName;
     cc_chinese := r_chinese r; cc_english := r_english r;
     cc_punctuation := r_punctuation r; cc_numbers := r_numbers r;
     cc_spaces := r_spaces r; cc_words := r_words r; cc_total := tot |}.

(** The record that [updateWordCount] leaves under today's key: the six
    counters, [total] and [completed] are assigned, the change is pushed and
    the log is cut back to its last [MAX_CHAR_CHANGES] entries. *)
Definition updatedStats (s : WordCountSettings) (existingStats : DailyStats)
    (now : Z) (fileName : string) (r : TextAnalysisResult) : DailyStats :=
  let tot := num_or (charCount s r) 0 in
  let done_ := 0 <? tot in
  let charChange := mkCharChange now fileName r tot in
  let pushed := charChanges existingStats ++ [charChange] in
  {| date := date existingStats;
     chinese := r_chinese r;
     english := r_english r;
     punctuation := r_punctuation r;
     numbers := r_numbers r;
     spaces := r_spaces r;
     words := r_words r;
     total := tot;
     goal := goal existingStats;
     completed := done_;
     charChanges :=
       if (CONSTANTS.MAX_CHAR_CHANGES <? length pushed)%nat
       then slice_last CONSTANTS.MAX_CHAR_CHANGES pushed
       else pushed |}.

Section HostDate.

(** [new Date(v).getTime()]: the time value in milliseconds, or [None] for an
    invalid date (NaN).  What the constructor makes of its argument belongs
    to the host. *)
Variable Date_getTime : jsval → option Z.

(** [Math.floor((currentDate.getTime() - lastDate.getTime()) / msPerDay)];
    [None] stands for NaN. *)
Definition diffDays (last today : string) : option Z :=
  match Date_getTime (VStr last), Date_getTime (VStr today) with
  | Some t1, Some t2 => Some (dayDifference t1 t2)
  | _, _ => None
  end.

Definition updateStreakData (sd : StreakData) (today : string) : StreakData :=
  if decide (lastDate sd = "") then
    {| current := 1; longest := 1; lastDate := today |}
  else
    match diffDays (lastDate sd) today with
    | Some d =>
        if d =? 1 then
          let cur := current sd + 1 in
          {| current := cur;
             longest := if longest sd <? cur then cur else longest sd;
             lastDate := today |}
        else if 1 <? d then
          {| current := 1; longest := longest sd; lastDate := today |}
        else sd
    | None => sd
    end.

(** [updateWordCount].  [today] is the value of [getTodayString()], [now] of
    [Date.now()], and [save_ok] tells whether [saveData] resolved.  When it
    rejects, the day record has already been written in memory, the streak is
    not advanced and the error is rethrown. *)
Definition updateWordCount (m : t) (today : string) (now : Z)
    (fileName : string) (analysisResult : TextAnalysisResult)
    (save_ok : bool) : t * completion :=
  let existingStats :=
    default (createEmptyStats today) (dailyStats m !! today) in
  let stats' :=
    updatedStats (settings m) existingStats now fileName analysisResult in
  let m1 := {| dailyStats := <[today := stats']> (dailyStats m);
               streakData := streakData m;
               settings := settings m |} in
  if save_ok then
    ({| dailyStats := dailyStats m1;
        streakData := updateStreakData (streakData m1) today;
        settings := settings m1 |}, Returned)
  else (m1, Threw).

(** *** loadData *)

(** The object literal that the [map] callback builds from one stored item;
    [None] when reading a property of the item throws. *)
Record ValidatedItem := {
  v_date : jsval;
  v_chinese : jsval;
  v_english : jsval;
  v_punctuation : jsval;
  v_numbers : jsval;
  v_spaces : jsval;
  v_words : jsval;
  v_total : jsval;
  v_goal : Z;
  v_completed : jsval;
  v_charChanges : jsval
}.

Definition validateItem (item : jsval) : option ValidatedItem :=
  d ← js_get item "date";
  c ← js_get item "chinese";
  e ← js_get item "english";
  p ← js_get item "punctuation";
  n ← js_get item "numbers";
  s ← js_get item "spaces";
  w ← js_get item "words";
  t ← js_get item "total";
  k ← js_get item "completed";
  h ← js_get item "charChanges";
  Some {| v_date := js_or d (VStr "");
          v_chinese := js_or c (VNum 0);
          v_english := js_or e (VNum 0);
          v_punctuation := js_or p (VNum 0);
          v_numbers := js_or n (VNum 0);
          v_spaces := js_or s (VNum 0);
          v_words := js_or w (VNum 0);
          v_total := js_or t (VNum 0);
          v_goal := 0;
          v_completed := js_or k (VBool false);
          v_charChanges := js_or h (VArr []) |}.

(** The offset of local time from UTC in milliseconds ([LocalTZA] of the
    language specification): at the UTC time value [t] when the flag is
    [true], at the local time value [t] when it is [false].  It belongs to
    the host's time zone. *)
Variable LocalTZA : Z → bool → Z.

Definition LocalTime (t : Z) : Z := t + LocalTZA t true.
Definition UTC (t : Z) : Z := t - LocalTZA t false.

(** [thirtyDaysAgo.setDate(today.getDate() - 30)] on a copy of [today].
    With [t] the local time of the clock, [setDate(dt)] builds
    [MakeDate(MakeDay(YearFromTime(t), MonthFromTime(t), dt), TimeWithinDay(t))]
    and stores its [UTC].  [MakeDay] counts [dt - 1] days from the first of
    the month of [t], and [dt] is [DateFromTime(t) - 30], so the day it
    returns is [Day(t) - 30]: the cut-off is the same local wall-clock time
    thirty calendar days earlier. *)
Definition thirtyDaysAgo (now : Z) : Z :=
  let t := LocalTime now in
  UTC (MakeDate (Day t - 30) (TimeWithinDay t)).

(** The [filter] callback; a comparison with an invalid date is false. *)
Definition inWindow (now : Z) (item : ValidatedItem) : bool :=
  match Date_getTime (v_date item) with
  | Some itemDate => (thirtyDaysAgo now <=? itemDate) && (itemDate <=? now)
  | None => false
  end.

(** [filteredData]; [None] when the [map] callback throws. *)
Definition filteredData (now : Z) (items : list jsval)
    : option (list ValidatedItem) :=
  validatedData ← mapM validateItem items;
  Some (filter (λ item, inWindow now item = true) validatedData).

(** Reading a validated record and its change log at their declared
    TypeScript types. *)
Definition asNum (v : jsval) : option Z :=
  match v with VNum z => Some z | _ => None end.

Definition asStr (v : jsval) : option string :=
  match v with VStr s => Some s | _ => None end.

Definition asBool (v : jsval) : option bool :=
  match v with VBool b => Some b | _ => None end.

Definition asAction (v : jsval) : option Action :=
  match v with
  | VStr s => if String.eqb s "add" then Some ActAdd
              else if String.eqb s "delete" then Some ActDelete else None
  | _ => None
  end.

Definition field (fields : gmap string jsval) (name : string) : jsval :=
  default VUndefined (fields !! name).

Definition asCharChange (v : jsval) : option CharChange :=
  match v with
  | VObj f =>
      ts ← asNum (field f "timestamp");
      a ← asAction (field f "action");
      fn ← asStr (field f "fileName");
      c ← asNum (field f "chinese");
      e ← asNum (field f "english");
      p ← asNum (field f "punctuation");
      n ← asNum (field f "numbers");
      s ← asNum (field f "spaces");
      w ← asNum (field f "words");
      t ← asNum (field f "total");
      Some {| cc_timestamp := ts; cc_action := a; cc_fileName := fn;
              cc_chinese := c; cc_english := e; cc_punctuation := p;
              cc_numbers := n; cc_spaces := s; cc_words := w; cc_total := t |}
  | _ => None
  end.

Definition asDailyStats (item : ValidatedItem) : option DailyStats :=
  d ← asStr (v_date item);
  c ← asNum (v_chinese item);
  e ← asNum (v_english item);
  p ← asNum (v_punctuation item);
  n ← asNum (v_numbers item);
  s ← asNum (v_spaces item);
  w ← asNum (v_words item);
  t ← asNum (v_total item);
  k ← asBool (v_completed item);
  h ← match v_charChanges item with
      | VArr l => mapM asCharChange l
      | _ => None
      end;
  Some {| date := d; chinese := c; english := e; punctuation := p;
          numbers := n; spaces := s; words := w; total := t;
          goal := v_goal item; completed := k; charChanges := h |}.

(** [new Map(entries)]: a later entry replaces an earlier one with its key. *)
Definition Map_of (entries : list DailyStats) : gmap string DailyStats :=
  foldl (λ acc d, <[date d := d]> acc) ∅ entries.

(** How [loadData] ends.  [LoadedUntyped] covers stores whose retained
    records carry values outside the declared field types; the typed state
    [t] cannot follow such a run, the validated records are reported as they
    are. *)
Inductive loadOutcome :=
| Loaded (m : t)
| LoadThrew (m : t)
| LoadedUntyped (items : list ValidatedItem).

(** [loadData]: [historicalData] is what [plugin.loadData()] resolved to
    (or [VNull] without a plugin instance), [now] the clock. *)
Definition loadData (m : t) (now : Z) (historicalData : jsval) : loadOutcome :=
  match historicalData with
  | VArr items =>
      match filteredData now items with
      | None => LoadThrew m
      | Some kept =>
          match mapM asDailyStats kept with
          | Some typed =>
              Loaded {| dailyStats := Map_of typed;
                        streakData := streakData m;
                        settings := settings m |}
          | None => LoadedUntyped kept
          end
      end
  | _ => Loaded m
  end.

End HostDate.

(** [resetData]; the state is cleared before [saveData] is awaited. *)
Definition resetData (m : t) (save_ok : bool) : t * completion :=
  ({| dailyStats := ∅; streakData := initialStreak; settings := settings m |},
   if save_ok then Returned else Threw).

(** [updateSettings]: the loop assigns [goal] and [completed] on every record
    of the map. *)
Definition refreshStats (d : DailyStats) : DailyStats :=
  {| date := date d; chinese := chinese d; english := english d;
     punctuation := punctuation d; numbers := numbers d; spaces := spaces d;
     words := words d; total := total d;
     goal := 0;
     completed := 0 <? total d;
     charChanges := charChanges d |}.

Definition updateSettings (m : t) (newSettings : WordCountSettings) : t :=
  {| dailyStats := refreshStats <$> dailyStats m;
     streakData := streakData m;
     settings := newSettings |}.

End StatsManager.

(** ** A host [Date] for the examples

    The date-only form [YYYY-MM-DD] of the ECMAScript date-time string format,
    which is what [getTodayString] produces and what the [date] keys hold; it
    denotes midnight UTC.  Numbers are time values.  Everything else is
    reported as an invalid date.  The theorems below hold for every host
    parser; this one instantiates them. *)

Module IsoDate.

Definition digit (c : Ascii.ascii) : option Z :=
  let n := Z.of_N (Ascii.N_of_ascii c) in
  if (48 <=? n) && (n <=? 57) then Some (n - 48) else None.

Definition isLeap (y : Z) : bool :=
  ((y `mod` 4 =? 0) && negb (y `mod` 100 =? 0)) || (y `mod` 400 =? 0).

Definition daysInMonth (y m : Z) : Z :=
  if m =? 2 then (if isLeap y then 29 else 28)
  else if (m =? 4) || (m =? 6) || (m =? 9) || (m =? 11) then 30
  else 31.

(** Days from 1970-01-01 to the given civil date. *)
Definition daysFromCivil (y m d : Z) : Z :=
  let y' := if m <=? 2 then y - 1 else y in
  let era := y' `div` 400 in
  let yoe := y' - era * 400 in
  let mp := if 2 <? m then m - 3 else m + 9 in
  let doy := (153 * mp + 2) `div` 5 + d - 1 in
  let doe := yoe * 365 + yoe `div` 4 - yoe `div` 100 + doy in
  era * 146097 + doe - 719468.

Definition parse (s : string) : option Z :=
  match String.list_ascii_of_string s with
  | [y1; y2; y3; y4; s1; m1; m2; s2; d1; d2] =>
      if Ascii.eqb s1 "-"%char && Ascii.eqb s2 "-"%char then
        a ← digit y1; b ← digit y2; c ← digit y3; e ← digit y4;
        f ← digit m1; g ← digit m2; h ← digit d1; i ← digit d2;
        let y := 1000 * a + 100 * b + 10 * c + e in
        let m := 10 * f + g in
        let d := 10 * h + i in
        if (1 <=? m) && (m <=? 12) && (1 <=? d) && (d <=? daysInMonth y m)
        then Some (daysFromCivil y m d * msPerDay)
        else None
      else None
  | _ => None
  end.

Definition getTime (v : jsval) : option Z :=
  match v with
  | VStr s => parse s
  | VNum z => Some z
  | _ => None
  end.

End IsoDate.

(** ** Host time zones for the examples

    [utc] is a host whose local time is UTC.  [newYork] has the offsets of
    America/New_York in 2024: five hours behind UTC, and four hours behind
    from 10 March 07:00 UTC (03:00 local) to 3 November 06:00 UTC (02:00
    local).  A local time that the clock skips or shows twice is read with
    the offset before the change.  The theorems below hold for every zone;
    these two instantiate them. *)

Module Zone.

Definition hour : Z := 60 * 60 * 1000.

Definition utc (t : Z) (isUTC : bool) : Z := 0.

Definition newYork (t : Z) (isUTC : bool) : Z :=
  let start := IsoDate.daysFromCivil 2024 3 10 * msPerDay in
  let stop := IsoDate.daysFromCivil 2024 11 3 * msPerDay in
  let summer :=
    if isUTC then (start + 7 * hour <=? t) && (t <? stop + 6 * hour)
    else (start + 3 * hour <=? t) && (t <? stop + 2 * hour) in
  if summer then - 4 * hour else - 5 * hour.

End Zone.

(** ** JavaScript strings and regular expressions

    Text is a list of UTF-16 code units.  The matcher below is the
    backtracking matcher of the language, for the constructs that the
    patterns of this program use. *)

Module Js.

(** The code unit of an ASCII character, and of the characters of an ASCII
    literal. *)
Definition ch (c : Ascii.ascii) : Z := Z.of_N (Ascii.N_of_ascii c).

Definition str (s : string) : list Z := ch <$> String.list_ascii_of_string s.

(** WhiteSpace and LineTerminator code units: [\s], and what [trim] strips. *)
Definition isSpace (c : Z) : bool :=
  ((9 <=? c) && (c <=? 13)) || (c =? 32) || (c =? 0xa0) || (c =? 0x1680)
  || ((0x2000 <=? c) && (c <=? 0x200a)) || (c =? 0x2028) || (c =? 0x2029)
  || (c =? 0x202f) || (c =? 0x205f) || (c =? 0x3000) || (c =? 0xfeff).

Definition isLineTerminator (c : Z) : bool :=
  (c =? 10) || (c =? 13) || (c =? 0x2028) || (c =? 0x2029).

(** [\w]. *)
Definition isWordChar (c : Z) : bool :=
  ((97 <=? c) && (c <=? 122)) || ((65 <=? c) && (c <=? 90))
  || ((48 <=? c) && (c <=? 57)) || (c =? 95).

Definition asciiUpper (c : Z) : Z :=
  if (97 <=? c) && (c <=? 122) then c - 32 else c.

Definition asciiLower (c : Z) : Z :=
  if (65 <=? c) && (c <=? 90) then c + 32 else c.

(** *** Character classes *)

Inductive classItem :=
| One (c : Z)
| Range (lo hi : Z)
| WordChar
| Space
| NotSpace.

Definition inItem (c : Z) (it : classItem) : bool :=
  match it with
  | One x => c =? x
  | Range lo hi => (lo <=? c) && (c <=? hi)
  | WordChar => isWordChar c
  | Space => isSpace c
  | NotSpace => negb (isSpace c)
  end.

Record charClass := { negated : bool; items : list classItem }.

Definition inClass (cls : charClass) (c : Z) : bool :=
  xorb (negated cls) (existsb (inItem c) (items cls)).

(** *** Patterns *)

Inductive regex :=
| Empty
| Chars (cls : charClass)
| Start
| End_
| Seq (r1 r2 : regex)
| Group (n : nat) (r : regex)
| Repeat (lo : nat) (hi : option nat) (greedy : bool) (r : regex).

Record RegExp := {
  source : regex;
  global : bool;
  ignoreCase : bool;
  multiline : bool
}.

(** Pattern syntax. *)
Definition lit (c : Ascii.ascii) : regex :=
  Chars {| negated := false; items := [One (ch c)] |}.
Definition set (l : list classItem) : regex :=
  Chars {| negated := false; items := l |}.
Definition notSet (l : list classItem) : regex :=
  Chars {| negated := true; items := l |}.
Definition star (r : regex) : regex := Repeat 0 None true r.
Definition lazyStar (r : regex) : regex := Repeat 0 None false r.
Definition plus (r : regex) : regex := Repeat 1 None true r.
Definition seq (l : list regex) : regex := foldr Seq Empty l.

(** *** Matching *)

Definition captures := list (nat * list Z).

(** The text of group [n]: its latest binding, or the empty string. *)
Fixpoint capture (c : captures) (n : nat) : list Z :=
  match c with
  | [] => []
  | (m, l) :: c' => if (m =? n)%nat then l else capture c' n
  end.

(** With the [i] flag a code unit matches a class when one of its case
    variants does.  The patterns that carry the flag have ASCII letters only,
    for which canonicalisation is ASCII case folding. *)
Definition matchesClass (re : RegExp) (cls : charClass) (c : Z) : bool :=
  if ignoreCase re
  then inClass cls c || inClass cls (asciiUpper c) || inClass cls (asciiLower c)
  else inClass cls c.

(** [^]: the start of the input, or after a line terminator with [m]. *)
Definition atStart (re : RegExp) (prev : option Z) : bool :=
  match prev with
  | None => true
  | Some p => multiline re && isLineTerminator p
  end.

(** [$]: the end of the input, or before a line terminator with [m]. *)
Definition atEnd (re : RegExp) (s : list Z) : bool :=
  match s with
  | [] => true
  | x :: _ => multiline re && isLineTerminator x
  end.

Definition below (n : nat) (hi : option nat) : bool :=
  match hi with
  | None => true
  | Some h => (n <? h)%nat
  end.

(** The type of a matcher for one pattern: the code unit before the
    current position, the rest of the input, the captures so far and the
    continuation. *)
Definition matcher (R : Type) : Type :=
  option Z → list Z → captures
  → (option Z → list Z → captures → option R) → option R.

Section Matcher.

Context {R : Type}.
Variable re : RegExp.

(** The repetition of a matcher [m1]: [n] iterations are done; a greedy
    repetition first tries one more iteration and falls back on stopping, a
    lazy one the other way round.  An iteration has to consume input (the
    atoms repeated in this program all consume one code unit), so the length
    of the input bounds the number of iterations. *)
Fixpoint iterate (m1 : matcher R) (lo : nat) (hi : option nat) (greedy : bool)
    (k : option Z → list Z → captures → option R)
    (fuel n : nat) (prev : option Z) (s : list Z) (c : captures)
    {struct fuel} : option R :=
  let stop (_ : unit) := if (lo <=? n)%nat then k prev s c else None in
  let more (_ : unit) :=
    match fuel with
    | O => None
    | S fuel' =>
        if below n hi then
          m1 prev s c
            (λ p' s' c',
               if (length s' <? length s)%nat
               then iterate m1 lo hi greedy k fuel' (S n) p' s' c'
               else None)
        else None
    end in
  if greedy
  then match more () with Some x => Some x | None => stop () end
  else match stop () with Some x => Some x | None => more () end.

(** [rmatch r prev s c k]: match [r] against a prefix of the remaining input
    [s] ([prev] is the code unit before it), then hand the rest to the
    continuation [k]; a [None] from [k] makes the matcher backtrack. *)
Fixpoint rmatch (r : regex) : matcher R :=
  λ prev s c k,
  match r with
  | Empty => k prev s c
  | Chars cls =>
      match s with
      | x :: s' => if matchesClass re cls x then k (Some x) s' c else None
      | [] => None
      end
  | Start => if atStart re prev then k prev s c else None
  | End_ => if atEnd re s then k prev s c else None
  | Seq r1 r2 => rmatch r1 prev s c (λ p' s' c', rmatch r2 p' s' c' k)
  | Group n r1 =>
      rmatch r1 prev s c
        (λ p' s' c', k p' s' ((n, take (length s - length s') s) :: c'))
  | Repeat lo hi greedy r1 =>
      iterate (rmatch r1) lo hi greedy k (length s) 0 prev s c
  end.

End Matcher.

(** A match attempt at the current position ([prev] is the code unit before
    it): the rest of the input after the match, and the captures. *)
Definition exec (re : RegExp) (prev : option Z) (s : list Z)
    : option (list Z * captures) :=
  rmatch re (source re) prev s [] (λ _ s' c, Some (s', c)).

(** [re.test(s)] for a pattern without the [g] flag: is there a match at some
    position. *)
Fixpoint testFrom (re : RegExp) (prev : option Z) (s : list Z) : bool :=
  match exec re prev s with
  | Some _ => true
  | None =>
      match s with
      | [] => false
      | x :: s' => testFrom re (Some x) s'
      end
  end.

Definition test (re : RegExp) (s : list Z) : bool := testFrom re None s.

(** Replacement strings: literal text and [$n]. *)
Inductive replItem :=
| RLit (l : list Z)
| RGroup (n : nat).

Definition expand (repl : list replItem) (c : captures) : list Z :=
  mjoin ((λ it, match it with RLit l => l | RGroup n => capture c n end) <$> repl).

(** [s.replace(re, repl)] for a pattern with the [g] flag: the matches are
    taken left to right without overlap; after an empty match the scan moves
    on by one code unit.  [skip] counts the code units of the current match
    that are still to be passed over. *)
Fixpoint replaceFrom (re : RegExp) (repl : list replItem) (skip : nat)
    (prev : option Z) (s : list Z) : list Z :=
  match s with
  | [] =>
      match skip, exec re prev [] with
      | O, Some (_, c) => expand repl c
      | _, _ => []
      end
  | x :: s' =>
      match skip with
      | S n => replaceFrom re repl n (Some x) s'
      | O =>
          match exec re prev s with
          | Some (rest, c) =>
              expand repl c
              ++ match (length s - length rest)%nat with
                 | O => x :: replaceFrom re repl 0 (Some x) s'
                 | S n => replaceFrom re repl n (Some x) s'
                 end
          | None => x :: replaceFrom re repl 0 (Some x) s'
          end
      end
  end.

Definition replace (re : RegExp) (repl : list replItem) (s : list Z) : list Z :=
  replaceFrom re repl 0 None s.

(** *** String methods *)

Fixpoint dropWhile {A} (p : A → bool) (l : list A) : list A :=
  match l with
  | x :: l' => if p x then dropWhile p l' else l
  | [] => []
  end.

Fixpoint takeWhile {A} (p : A → bool) (l : list A) : list A :=
  match l with
  | x :: l' => if p x then x :: takeWhile p l' else []
  | [] => []
  end.

(** [s.trim()]: white space and line terminators go from both ends. *)
Definition trimStart (s : list Z) : list Z := dropWhile isSpace s.
Definition trimEnd (s : list Z) : list Z :=
  reverse (dropWhile isSpace (reverse s)).
Definition trim (s : list Z) : list Z := trimEnd (trimStart s).

(** [s.substring(a, b)]; the arguments are swapped when [a > b]. *)
Definition substring (s : list Z) (a b : nat) : list Z :=
  let lo := (a `min` b)%nat in
  let hi := (a `max` b)%nat in
  take (hi - lo) (drop lo s).

(** [s.startsWith(p)], read at the current position. *)
Fixpoint startsWith (s p : list Z) : bool :=
  match p, s with
  | [], _ => true
  | y :: p', x :: s' => (x =? y) && startsWith s' p'
  | _ :: _, [] => false
  end.

(** [s.endsWith(p)] and [s.includes(p)]. *)
Definition endsWith (s p : list Z) : bool :=
  startsWith (reverse s) (reverse p).

Fixpoint findFrom (p s : list Z) (i : nat) : option nat :=
  if startsWith s p then Some i
  else match s with
       | [] => None
       | _ :: s' => findFrom p s' (S i)
       end.

(** [s.indexOf(p, from)]; [None] is the result -1. *)
Definition indexOf (s p : list Z) (from : nat) : option nat :=
  findFrom p (drop from s) from.

Definition includes (s p : list Z) : bool :=
  bool_decide (is_Some (indexOf s p 0)).

(** [s.split(sep)] for a separator of one code unit: the pieces between the
    occurrences of [sep], empty pieces included; [cur] is the piece being
    read. *)
Fixpoint splitFrom (sep : Z) (cur : list Z) (s : list Z) : list (list Z) :=
  match s with
  | [] => [cur]
  | x :: s' =>
      if x =? sep then cur :: splitFrom sep [] s'
      else splitFrom sep (cur ++ [x]) s'
  end.

Definition split (s : list Z) (sep : Z) : list (list Z) := splitFrom sep [] s.

End Js.

(** ** utils/constants.ts: REGEX_PATTERNS

    The patterns carry no [u] flag, so [\U] inside a class is the letter [U]:
    the tail [\U00020000-\U0002a6df...] of the two long classes contributes
    the letter [U], some digits, the letters [a]-[f] and, four times, the
    range [0-\U], that is, the code units from [0] to [U]. *)

Module REGEX_PATTERNS.
Import Js.

(** The class items shared by [CHINESE] and (negated) [PUNCTUATION]. *)
Definition chineseItems : list classItem :=
  [ Range 0x4e00 0x9fff; Range 0x3400 0x4dbf; Range 0xf900 0xfaff;
    Range 0x3300 0x33ff; Range 0xfe30 0xfe4f; Range 0xf900 0xfaff ]
  ++ (* \U00020000-\U0002a6df *)
     (One <$> str "U0002000") ++ [Range (ch "0") (ch "U")]
      ++ (One <$> str "0002a6df")
  ++ (* \U0002a700-\U0002b73f *)
     (One <$> str "U0002a70") ++ [Range (ch "0") (ch "U")]
      ++ (One <$> str "0002b73f")
  ++ (* \U0002b740-\U0002b81f *)
     (One <$> str "U0002b74") ++ [Range (ch "0") (ch "U")]
      ++ (One <$> str "0002b81f")
  ++ (* \U0002b820-\U0002ceaf *)
     (One <$> str "U0002b82") ++ [Range (ch "0") (ch "U")]
      ++ (One <$> str "0002ceaf").

Definition plain (r : regex) : RegExp :=
  {| source := r; global := false; ignoreCase := false; multiline := false |}.

Definition CHINESE : RegExp := plain (set chineseItems).

Definition ENGLISH : RegExp :=
  plain (set [Range (ch "a") (ch "z"); Range (ch "A") (ch "Z")]).

Definition NUMBERS : RegExp := plain (set [Range (ch "0") (ch "9")]).

Definition FULL_WIDTH_NUMBERS : RegExp := plain (set [Range 0xff10 0xff19]).

Definition PUNCTUATION : RegExp :=
  plain (notSet (WordChar :: Space :: chineseItems)).

Definition FULL_WIDTH_PUNCTUATION : RegExp :=
  plain (set [ Range 0xff01 0xff0f; Range 0xff1a 0xff20; Range 0xff3b 0xff40;
               Range 0xff5b 0xff60; Range 0xff61 0xff65; Range 0xffe0 0xffe6 ]).

(** [/^[IVXLCDM]+$/i] *)
Definition ROMAN_NUMERALS : RegExp :=
  {| source := seq [Start; plus (set (One <$> str "IVXLCDM")); End_];
     global := false; ignoreCase := true; multiline := false |}.

End REGEX_PATTERNS.

(** ** services/TextAnalyzer.ts *)

Module TextAnalyzer.
Import Js.

(** *** preprocessText *)

Definition gm (r : regex) : RegExp :=
  {| source := r; global := true; ignoreCase := false; multiline := true |}.
Definition g (r : regex) : RegExp :=
  {| source := r; global := true; ignoreCase := false; multiline := false |}.

Definition anyChar : regex := set [Space; NotSpace].
Definition ws : regex := set [Space].

(** [/^---[\s\S]*?---\n/gm] *)
Definition reFrontmatter : RegExp :=
  gm (seq [Start; lit "-"; lit "-"; lit "-"; lazyStar anyChar;
           lit "-"; lit "-"; lit "-"; Chars {| negated := false; items := [One 10] |}]).

(** [/```[\s\S]*?```/g] *)
Definition reCodeBlock : RegExp :=
  g (seq [lit "`"; lit "`"; lit "`"; lazyStar anyChar;
          lit "`"; lit "`"; lit "`"]).

(** [/`[^`]+`/g] *)
Definition reInlineCode : RegExp :=
  g (seq [lit "`"; plus (notSet [One (ch "`")]); lit "`"]).

(** The image pattern, flag [g]: an exclamation mark, an opening bracket,
    group 1 (a greedy run of code units other than the closing bracket), the
    closing bracket, an opening parenthesis, a greedy run of code units other
    than the closing parenthesis, the closing parenthesis. *)
Definition reImage : RegExp :=
  g (seq [lit "!"; lit "["; Group 1 (star (notSet [One (ch "]")])); lit "]";
          lit "("; star (notSet [One (ch ")")]); lit ")"]).

(** The link pattern, flag [g]: the image pattern without the exclamation
    mark. *)
Definition reLink : RegExp :=
  g (seq [lit "["; Group 1 (star (notSet [One (ch "]")])); lit "]";
          lit "("; star (notSet [One (ch ")")]); lit ")"]).

(** [/^#{1,6}\s+/gm] *)
Definition reHeading : RegExp :=
  gm (seq [Start; Repeat 1 (Some 6%nat) true (lit "#"); plus ws]).

(** The quote pattern, flags [gm]: line start, [>], a greedy run of [\s]. *)
Definition reQuote : RegExp := gm (seq [Start; lit ">"; star ws]).

(** [/^[-*+]\s+/gm] *)
Definition reList : RegExp :=
  gm (seq [Start; set (One <$> str "-*+"); plus ws]).

(** [/^\[[ x]\]\s+/gm] *)
Definition reTask : RegExp :=
  gm (seq [Start; lit "["; set (One <$> str " x"); lit "]"; plus ws]).

(** [/<[^>]+>/g] *)
Definition reHtmlTag : RegExp :=
  g (seq [lit "<"; plus (notSet [One (ch ">")]); lit ">"]).

(** [/\s+/g] *)
Definition reSpaces : RegExp := g (seq [plus ws]).

Definition preprocessText (text : list Z) : list Z :=
  let t := replace reFrontmatter [] text in
  let t := replace reCodeBlock [] t in
  let t := replace reInlineCode [] t in
  let t := replace reImage [RGroup 1] t in
  let t := replace reLink [RGroup 1] t in
  let t := replace reHeading [] t in
  let t := replace reQuote [] t in
  let t := replace reList [] t in
  let t := replace reTask [] t in
  let t := replace reHtmlTag [] t in
  let t := replace reSpaces [RLit (str " ")] t in
  trim t.

(** *** countCharacters *)

Definition zeroCounts : TextAnalysisResult :=
  {| r_chinese := 0; r_english := 0; r_punctuation := 0; r_numbers := 0;
     r_spaces := 0; r_words := 0 |}.

(** [re.test(text[i])] *)
Definition testChar (re : RegExp) (c : Z) : bool := test re [c].

(** The [while] loop that looks for the end of a run of letters: the first
    index from [j] on that is past the text or holds no letter. *)
Fixpoint runEnd (rest : list Z) (j : nat) : nat :=
  match rest with
  | x :: rest' =>
      if testChar REGEX_PATTERNS.ENGLISH x then runEnd rest' (S j) else j
  | [] => j
  end.

(** [/^[a-zA-Z]$/] *)
Definition reSingleLetter : RegExp :=
  REGEX_PATTERNS.plain
    (seq [Start; set [Range (ch "a") (ch "z"); Range (ch "A") (ch "Z")]; End_]).

Section Classifier.

Variable settings : WordCountSettings.
Variable text : list Z.

(** One turn of the [for] loop at index [i] on character [char]: the index
    the body leaves in [i] (the loop then adds one) and the counters. *)
Definition countBody (i : nat) (char : Z) (acc : TextAnalysisResult)
    : nat * TextAnalysisResult :=
  if trackNumbers settings
     && (testChar REGEX_PATTERNS.NUMBERS char
         || testChar REGEX_PATTERNS.FULL_WIDTH_NUMBERS char)
  then (i, {| r_chinese := r_chinese acc; r_english := r_english acc;
              r_punctuation := r_punctuation acc;
              r_numbers := r_numbers acc + 1;
              r_spaces := r_spaces acc; r_words := r_words acc |})
  else if trackEnglish settings && testChar REGEX_PATTERNS.ENGLISH char
  then
    if bool_decide (i = 0%nat)
       || negb (from_option (testChar REGEX_PATTERNS.ENGLISH) false
                  (text !! (i - 1)%nat))
    then
      let j := runEnd (drop i text) i in
      let word := substring text i j in
      let acc' :=
        if negb (test REGEX_PATTERNS.ROMAN_NUMERALS word)
           && (1 <? length word)%nat
        then {| r_chinese := r_chinese acc;
                r_english := r_english acc + Z.of_nat (length word);
                r_punctuation := r_punctuation acc;
                r_numbers := r_numbers acc;
                r_spaces := r_spaces acc;
                r_words := if showWordCount settings
                           then r_words acc + 1 else r_words acc |}
        else if bool_decide (length word = 1%nat) && test reSingleLetter word
        then {| r_chinese := r_chinese acc;
                r_english := r_english acc + 1;
                r_punctuation := r_punctuation acc;
                r_numbers := r_numbers acc;
                r_spaces := r_spaces acc; r_words := r_words acc |}
        else acc in
      ((j - 1)%nat, acc')
    else (i, acc)
  else if trackChinese settings && testChar REGEX_PATTERNS.CHINESE char
  then (i, {| r_chinese := r_chinese acc + 1; r_english := r_english acc;
              r_punctuation := r_punctuation acc;
              r_numbers := r_numbers acc;
              r_spaces := r_spaces acc; r_words := r_words acc |})
  else if trackPunctuation settings
          && (testChar REGEX_PATTERNS.PUNCTUATION char
              || testChar REGEX_PATTERNS.FULL_WIDTH_PUNCTUATION char)
  then (i, {| r_chinese := r_chinese acc; r_english := r_english acc;
              r_punctuation := r_punctuation acc + 1;
              r_numbers := r_numbers acc;
              r_spaces := r_spaces acc; r_words := r_words acc |})
  else if trackSpaces settings
          && ((char =? 32) || (char =? 9) || (char =? 10) || (char =? 13))
  then (i, {| r_chinese := r_chinese acc; r_english := r_english acc;
              r_punctuation := r_punctuation acc;
              r_numbers := r_numbers acc;
              r_spaces := r_spaces acc + 1; r_words := r_words acc |})
  else (i, acc).

(** The [for] loop from index [i]; [None] when the fuel runs out before the
    index passes the end of the text. *)
Fixpoint countLoop (fuel : nat) (i : nat) (acc : TextAnalysisResult)
    : option TextAnalysisResult :=
  match text !! i with
  | None => Some acc
  | Some char =>
      match fuel with
      | O => None
      | S fuel' =>
          let '(i', acc') := countBody i char acc in
          countLoop fuel' (S i') acc'
      end
  end.

End Classifier.

(** Every turn moves the index forward, so [length text] turns are enough
    (lemma [countCharacters_returns]). *)
Definition countCharacters (settings : WordCountSettings) (text : list Z)
    : option TextAnalysisResult :=
  countLoop settings text (length text) 0 zeroCounts.

Definition analyzeText (settings : WordCountSettings) (text : list Z)
    : option TextAnalysisResult :=
  countCharacters settings (preprocessText text).

(** [calculateSimpleWordCount]: the non-empty pieces of the stripped text
    between spaces; [0] for an empty stripped text. *)
Definition calculateSimpleWordCount (text : list Z) : nat :=
  let cleanText := preprocessText text in
  if bool_decide (cleanText = []) then 0%nat
  else length (filter (λ word, (0 < length word)%nat) (split cleanText 32)).

End TextAnalyzer.


(** ** The single-file plugin (class [WordCountPlugin], with its own
    [preprocessText] and [updateStreakData]) *)

Module WordCountPlugin.
Import Js.

(** *** preprocessText, the state-machine stripper *)

Record scanState := {
  result : list Z;
  inCodeBlock : bool;
  inInlineCode : bool;
  inFrontmatter : bool;
  inHtmlTag : bool;
  inMathBlock : bool
}.

Definition initialScan : scanState :=
  {| result := []; inCodeBlock := false; inInlineCode := false;
     inFrontmatter := false; inHtmlTag := false; inMathBlock := false |}.

(** The check before the loop: a text that starts with three hyphens and has
    three more further on has front matter, up to the end of the second
    marker. *)
Definition frontmatterEndOf (text : list Z) : option nat :=
  if startsWith text (str "---")
  then (λ frontmatterEndMatch, (frontmatterEndMatch + 3)%nat)
         <$> indexOf text (str "---") 3
  else None.

Definition pushChar (st : scanState) (char : Z) : scanState :=
  {| result := result st ++ [char]; inCodeBlock := inCodeBlock st;
     inInlineCode := inInlineCode st; inFrontmatter := inFrontmatter st;
     inHtmlTag := inHtmlTag st; inMathBlock := inMathBlock st |}.

Definition pushText (st : scanState) (s : list Z) : scanState :=
  {| result := result st ++ s; inCodeBlock := inCodeBlock st;
     inInlineCode := inInlineCode st; inFrontmatter := inFrontmatter st;
     inHtmlTag := inHtmlTag st; inMathBlock := inMathBlock st |}.

Section Scan.

Variable text : list Z.
Variable frontmatterEnd : nat.

(** [i < text.length && text[i] === a] *)
Definition charIs (i : nat) (a : Ascii.ascii) : bool :=
  match text !! i with
  | Some c => c =? ch a
  | None => false
  end.

(** [i === 0 || text[i - 1] === newline] *)
Definition atLineStart (i : nat) : bool :=
  match i with
  | O => true
  | S j => match text !! j with Some c => c =? 10 | None => false end
  end.

(** The number of code units equal to [a] from index [i] on: what a loop
    [while (i < text.length && text[i] === a) i++] adds to [i]. *)
Definition runOf (a : Z) (i : nat) : nat :=
  length (takeWhile (λ c, c =? a) (drop i text)).

(** The index of the end of the line that holds index [i]. *)
Definition lineEnd (i : nat) : nat :=
  (i + length (takeWhile (λ c : Z, negb (c =? 10)%Z) (drop i text)))%nat.

(** The link and image branches: with [open] the index of the opening
    bracket, find the closing bracket from [from] on, require an opening
    parenthesis right after it and a closing parenthesis from two further
    on; the result is the bracketed text and the index of that
    parenthesis. *)
Definition linkAt (textStart from : nat) : option (list Z * nat) :=
  match indexOf text (str "]") from with
  | Some closeBracket =>
      if charIs (closeBracket + 1) "(" then
        match indexOf text (str ")") (closeBracket + 2) with
        | Some closeParen => Some (substring text textStart closeBracket, closeParen)
        | None => None
        end
      else None
  | None => None
  end.

(** The tag branch: [Some (flag, closeTag)] when the branch jumps to the
    closing angle bracket; [flag] tells whether [inHtmlTag] is set. *)
Definition tagAt (i : nat) : option (bool * nat) :=
  match indexOf text (str ">") i with
  | Some closeTag =>
      let tagContent := substring text (i + 1) closeTag in
      if startsWith tagContent (str "!--") then Some (false, closeTag)
      else if negb (includes tagContent (str "/"))
              || endsWith tagContent (str "/")
      then Some (true, closeTag)
      else None
  | None => None
  end.

(** The task-marker branch: the index of the space after the closing
    bracket. *)
Definition taskAt (i : nat) : option nat :=
  if charIs (i + 1) " " || charIs (i + 1) "x" then
    match indexOf text (str "]") (i + 2) with
    | Some closeBracket =>
        if charIs (closeBracket + 1) " " then Some (closeBracket + 1)%nat
        else None
    | None => None
    end
  else None.

(** The horizontal-rule branch: the index of the end of a line made of three
    or more hyphens. *)
Definition ruleAt (i : nat) : option nat :=
  let j := (i + runOf (ch "-") i)%nat in
  if (3 <=? j - i)%nat && (bool_decide (j = length text) || charIs j "010")
  then Some (lineEnd j)
  else None.

(** The table branch: the index of the end of a line that has a hyphen. *)
Definition tableAt (i : nat) : option nat :=
  let j := lineEnd i in
  if includes (substring text i j) (str "-") then Some j else None.

Definition setFlags (st : scanState) (code inline front html math : bool)
    : scanState :=
  {| result := result st; inCodeBlock := code; inInlineCode := inline;
     inFrontmatter := front; inHtmlTag := html; inMathBlock := math |}.

(** One turn of the [for] loop at index [i] on character [char].  The first
    component is the index of the next turn: the value the body leaves in
    [i], plus the loop's own increment. *)
Definition body (i : nat) (char : Z) (st : scanState) : nat * scanState :=
  if inFrontmatter st && (i <? frontmatterEnd)%nat then
    if bool_decide (i = (frontmatterEnd - 1)%nat)
    then (S i, pushChar (setFlags st (inCodeBlock st) (inInlineCode st) false
                           (inHtmlTag st) (inMathBlock st)) 10)
    else (S i, st)
  else if negb (inInlineCode st) && (char =? ch "$") && charIs (i + 1) "$" then
    (S (i + 1), setFlags st (inCodeBlock st) (inInlineCode st)
                  (inFrontmatter st) (inHtmlTag st) (negb (inMathBlock st)))
  else if negb (inCodeBlock st) && (char =? ch "$") then
    (S i, setFlags st (inCodeBlock st) (negb (inInlineCode st))
            (inFrontmatter st) (inHtmlTag st) (inMathBlock st))
  else if negb (inInlineCode st) && (char =? ch "`")
          && (i + 2 <? length text)%nat
          && charIs (i + 1) "`" && charIs (i + 2) "`" then
    (S (i + 2), setFlags st (negb (inCodeBlock st)) (inInlineCode st)
                  (inFrontmatter st) (inHtmlTag st) (inMathBlock st))
  else if negb (inMathBlock st) && (char =? ch "`") then
    (S i, setFlags st (inCodeBlock st) (negb (inInlineCode st))
            (inFrontmatter st) (inHtmlTag st) (inMathBlock st))
  else if inCodeBlock st || inInlineCode st || inMathBlock st then
    (S i, pushChar st char)
  else
    match (if char =? ch "<" then tagAt i else None) with
    | Some (flag, closeTag) =>
        (S closeTag,
         if flag
         then setFlags st (inCodeBlock st) (inInlineCode st)
                (inFrontmatter st) true (inMathBlock st)
         else st)
    | None =>
    if inHtmlTag st then
      (S i, if char =? ch ">"
            then setFlags st (inCodeBlock st) (inInlineCode st)
                   (inFrontmatter st) false (inMathBlock st)
            else st)
    else
    match (if (char =? ch "[") && negb (inInlineCode st)
           then linkAt (i + 1) i else None) with
    | Some (linkText, closeParen) => (S closeParen, pushText st linkText)
    | None =>
    match (if (char =? ch "!") && charIs (i + 1) "[" && negb (inInlineCode st)
           then linkAt (i + 2) (i + 2) else None) with
    | Some (altText, closeParen) => (S closeParen, pushText st altText)
    | None =>
    if (char =? ch "#") && atLineStart i then
      let i1 := (i + runOf (ch "#") i)%nat in
      let i2 := (i1 + runOf (ch " ") i1)%nat in
      (i2, st)
    else if (char =? ch ">") && atLineStart i then
      let i1 := (i + runOf (ch " ") i)%nat in
      (i1, st)
    else if ((char =? ch "-") || (char =? ch "*") || (char =? ch "+"))
            && atLineStart i && charIs (i + 1) " " then
      (S (i + 1), st)
    else
    match (if (char =? ch "[") && atLineStart i then taskAt i else None) with
    | Some afterBracket => (S afterBracket, st)
    | None =>
    match (if (char =? ch "-") && atLineStart i then ruleAt i else None) with
    | Some j => (S j, st)
    | None =>
    match (if (char =? ch "|") && atLineStart i then tableAt i else None) with
    | Some j => (S j, st)
    | None => (S i, pushChar st char)
    end end end end end end.

(** The [for] loop from index [i]; [None] when the fuel runs out before the
    index passes the end of the text. *)
Fixpoint scan (fuel : nat) (i : nat) (st : scanState) : option scanState :=
  match text !! i with
  | None => Some st
  | Some char =>
      match fuel with
      | O => None
      | S fuel' => let '(i', st') := body i char st in scan fuel' i' st'
      end
  end.

End Scan.

(** The patterns of the clean-up after the loop: a run of spaces and tabs;
    a newline, a greedy run of [\s], a newline. *)
Definition reBlanks : RegExp :=
  {| source := seq [plus (set [One 32; One 9])];
     global := true; ignoreCase := false; multiline := false |}.

Definition reBlankLines : RegExp :=
  {| source := seq [set [One 10]; star (set [Space]); set [One 10]];
     global := true; ignoreCase := false; multiline := false |}.

Definition cleanUp (result : list Z) : list Z :=
  trim (replace reBlankLines [RLit [10; 10]]
          (replace reBlanks [RLit [32]] result)).

(** The loop alone, and the whole function; [fuel] bounds the number of
    turns of the loop. *)
Definition scanText (fuel : nat) (text : list Z) : option (list Z) :=
  let frontmatterEnd := frontmatterEndOf text in
  let st0 := setFlags initialScan false false (bool_decide (is_Some frontmatterEnd))
               false false in
  result <$> scan text (default 0%nat frontmatterEnd) fuel 0 st0.

Definition preprocessText (fuel : nat) (text : list Z) : option (list Z) :=
  cleanUp <$> scanText fuel text.

Section HostDate.

Variable Date_getTime : jsval → option Z.

(** [updateStreakData], on the plugin's [streakData] field. *)
Definition updateStreakData (sd : StreakData) (today : string) : StreakData :=
  if decide (lastDate sd = "") then
    {| current := 1; longest := 1; lastDate := today |}
  else
    match Date_getTime (VStr (lastDate sd)), Date_getTime (VStr today) with
    | Some lastTime, Some currentTime =>
        let diffDays := dayDifference lastTime currentTime in
        if diffDays =? 1 then
          let cur := current sd + 1 in
          {| current := cur;
             longest := if longest sd <? cur then cur else longest sd;
             lastDate := today |}
        else if 1 <? diffDays then
          {| current := 1; longest := longest sd; lastDate := today |}
        else sd
    | _, _ => sd
    end.

End HostDate.

(** *** countCharacters, the classifier of the single-file plugin

    Its patterns are written out in the method; they are the patterns of
    [REGEX_PATTERNS].  A run of letters that is not a Roman numeral adds one
    to [english] and, with word counting on, one to [words]. *)

Definition chineseRegex : RegExp :=
  REGEX_PATTERNS.plain (set REGEX_PATTERNS.chineseItems).
Definition englishRegex : RegExp :=
  REGEX_PATTERNS.plain (set [Range (ch "a") (ch "z"); Range (ch "A") (ch "Z")]).
Definition punctuationRegex : RegExp :=
  REGEX_PATTERNS.plain
    (notSet (WordChar :: Space :: REGEX_PATTERNS.chineseItems)).
Definition numberRegex : RegExp :=
  REGEX_PATTERNS.plain (set [Range (ch "0") (ch "9")]).
Definition fullWidthNumberRegex : RegExp :=
  REGEX_PATTERNS.plain (set [Range 0xff10 0xff19]).
Definition fullWidthPunctuationRegex : RegExp :=
  REGEX_PATTERNS.plain
    (set [ Range 0xff01 0xff0f; Range 0xff1a 0xff20; Range 0xff3b 0xff40;
           Range 0xff5b 0xff60; Range 0xff61 0xff65; Range 0xffe0 0xffe6 ]).
Definition romanRegex : RegExp :=
  {| source := seq [Start; plus (set (One <$> str "IVXLCDM")); End_];
     global := false; ignoreCase := true; multiline := false |}.

(** The [while] loop that looks for the end of a run of letters. *)
Fixpoint wordEnd (rest : list Z) (j : nat) : nat :=
  match rest with
  | x :: rest' => if test englishRegex [x] then wordEnd rest' (S j) else j
  | [] => j
  end.

Section Classifier.

Variable settings : WordCountSettings.
Variable text : list Z.

(** One turn of the [for] loop at index [i] on character [char]: the index
    the body leaves in [i] (the loop then adds one) and the counters. *)
Definition countBody (i : nat) (char : Z) (acc : TextAnalysisResult)
    : nat * TextAnalysisResult :=
  if trackNumbers settings
     && (test numberRegex [char] || test fullWidthNumberRegex [char])
  then (i, {| r_chinese := r_chinese acc; r_english := r_english acc;
              r_punctuation := r_punctuation acc;
              r_numbers := r_numbers acc + 1;
              r_spaces := r_spaces acc; r_words := r_words acc |})
  else if trackEnglish settings && test englishRegex [char]
  then
    if bool_decide (i = 0%nat)
       || negb (from_option (λ c, test englishRegex [c]) false
                  (text !! (i - 1)%nat))
    then
      let j := wordEnd (drop i text) i in
      let word := substring text i j in
      let acc' :=
        if negb (test romanRegex word)
        then {| r_chinese := r_chinese acc;
                r_english := r_english acc + 1;
                r_punctuation := r_punctuation acc;
                r_numbers := r_numbers acc;
                r_spaces := r_spaces acc;
                r_words := if showWordCount settings
                           then r_words acc + 1 else r_words acc |}
        else acc in
      ((j - 1)%nat, acc')
    else (i, acc)
  else if trackChinese settings && test chineseRegex [char]
  then (i, {| r_chinese := r_chinese acc + 1; r_english := r_english acc;
              r_punctuation := r_punctuation acc;
              r_numbers := r_numbers acc;
              r_spaces := r_spaces acc; r_words := r_words acc |})
  else if trackPunctuation settings
          && (test punctuationRegex [char]
              || test fullWidthPunctuationRegex [char])
  then (i, {| r_chinese := r_chinese acc; r_english := r_english acc;
              r_punctuation := r_punctuation acc + 1;
              r_numbers := r_numbers acc;
              r_spaces := r_spaces acc; r_words := r_words acc |})
  else if trackSpaces settings
          && ((char =? 32) || (char =? 9) || (char =? 10) || (char =? 13))
  then (i, {| r_chinese := r_chinese acc; r_english := r_english acc;
              r_punctuation := r_punctuation acc;
              r_numbers := r_numbers acc;
              r_spaces := r_spaces acc + 1; r_words := r_words acc |})
  else (i, acc).

(** The [for] loop from index [i]; [None] when the fuel runs out before the
    index passes the end of the text. *)
Fixpoint countLoop (fuel : nat) (i : nat) (acc : TextAnalysisResult)
    : option TextAnalysisResult :=
  match text !! i with
  | None => Some acc
  | Some char =>
      match fuel with
      | O => None
      | S fuel' =>
          let '(i', acc') := countBody i char acc in
          countLoop fuel' (S i') acc'
      end
  end.

End Classifier.

Definition countCharacters (settings : WordCountSettings) (text : list Z)
    : option TextAnalysisResult :=
  countLoop settings text (length text) 0 TextAnalyzer.zeroCounts.

End WordCountPlugin.

(** ** services/CacheService.ts

    A map from keys to values with the time they were stored.  The clock
    ([Date.now()]) is an input of the operations that read it.  Reading an
    entry that has outlived [CONSTANTS.CACHE_TTL] removes it, so [get] and
    [has] return the cache along with their answer. *)

Module CacheService.

Section Cache.

Context {T : Type}.

Record CacheItem := {
  value : T;
  timestamp : Z
}.

(** The private field [cache]: [new Map<string, CacheItem<any>>()]. *)
Local Abbreviation t := (gmap string CacheItem).

(** [Date.now() - item.timestamp > CONSTANTS.CACHE_TTL] *)
Definition expired (now : Z) (item : CacheItem) : bool :=
  CONSTANTS.CACHE_TTL <? now - timestamp item.

(** [set(key, value, ttl)]; the method does not use [ttl]. *)
Definition set (cache : t) (key : string) (v : T) (ttl : Z) (now : Z) : t :=
  <[key := {| value := v; timestamp := now |}]> cache.

Definition get (cache : t) (key : string) (now : Z) : t * option T :=
  match cache !! key with
  | None => (cache, None)
  | Some item =>
      if expired now item then (base.delete key cache, None)
      else (cache, Some (value item))
  end.

Definition has (cache : t) (key : string) (now : Z) : t * bool :=
  match cache !! key with
  | None => (cache, false)
  | Some item =>
      if expired now item then (base.delete key cache, false)
      else (cache, true)
  end.

Definition delete (cache : t) (key : string) : t := base.delete key cache.

Definition clear (cache : t) : t := ∅.

(** [cleanup]: one clock reading, then every entry that has outlived the
    time to live is deleted. *)
Definition cleanup (cache : t) (now : Z) : t :=
  filter (λ entry, expired now entry.2 = false) cache.

Definition size (cache : t) : nat := base.size cache.

End Cache.

Arguments CacheItem : clear implicits.

End CacheService.

(** ** utils/helpers.ts

    Numbers are integers here; [NaN] arguments are outside the model.  The
    day difference is computed on doubles ([dayDifference]). *)

Module helpers.



(** [throttle(func, delay)]: the closure keeps [lastCall], which starts at 0.
    One call of the throttled function at clock reading [now]: the new
    [lastCall], and whether [func] was invoked. *)
Definition throttled (delay : Z) (lastCall : Z) (now : Z) : Z * bool :=
  if delay <=? now - lastCall then (now, true) else (lastCall, false).

Section HostDate.

Variable Date_getTime : jsval → option Z.

(** [getDaysDifference(date1, date2)]:
    [Math.floor((d2.getTime() - d1.getTime()) / (1000 * 60 * 60 * 24))];
    [None] stands for NaN. *)
Definition getDaysDifference (date1 date2 : string) : option Z :=
  match Date_getTime (VStr date1), Date_getTime (VStr date2) with
  | Some d1, Some d2 => Some (dayDifference d1 d2)
  | _, _ => None
  end.

End HostDate.

(** [isEmpty(str)]: [!str || str.trim().length === 0] *)
Definition isEmpty (str : list Z) : bool :=
  bool_decide (str = []) || (length (Js.trim str) =? 0)%nat.

End helpers.

(** ** utils/validators.ts *)

Module validators.

Record result := {
  isValid : bool;
  message : option string
}.

Definition valid : result := {| isValid := true; message := None |}.
Definition invalid (msg : string) : result :=
  {| isValid := false; message := Some msg |}.


(** The class of [invalidChars]: the two angle brackets, the colon, the
    double quote, the slash, the backslash, the bar, the question mark and
    the asterisk. *)
Definition invalidChars : Js.RegExp :=
  REGEX_PATTERNS.plain
    (Js.set [Js.One (Js.ch "<"); Js.One (Js.ch ">"); Js.One (Js.ch ":");
             Js.One 34; Js.One (Js.ch "/"); Js.One (Js.ch "\");
             Js.One (Js.ch "|"); Js.One (Js.ch "?"); Js.One (Js.ch "*")]).

Definition validateFileName (fileName : list Z) : result :=
  if bool_decide (fileName = []) || (length (Js.trim fileName) =? 0)%nat
  then invalid "文件名不能为空"
  else if (255 <? length fileName)%nat then invalid "文件名过长"
  else if Js.test invalidChars fileName then invalid "文件名包含非法字符"
  else valid.

(** [validateStats(stats)] on a stored value.

    [typeof] is ["object"] for objects and arrays ([null] has been turned
    away by [!stats]); none of the field names is a property of an array. *)
Definition isObject (v : jsval) : bool :=
  match v with
  | VArr _ | VObj _ => true
  | _ => false
  end.

(** [field in stats] *)
Definition js_in (name : string) (v : jsval) : bool :=
  match v with
  | VObj fields => bool_decide (is_Some (fields !! name))
  | _ => false
  end.

(** [stats[field]] *)
Definition js_index (v : jsval) (name : string) : jsval :=
  match v with
  | VObj fields => default VUndefined (fields !! name)
  | _ => VUndefined
  end.

Definition requiredFields : list string :=
  ["date"; "chinese"; "english"; "punctuation"; "numbers"; "spaces"; "words";
   "total"; "goal"; "completed"].

Definition numericFields : list string :=
  ["chinese"; "english"; "punctuation"; "numbers"; "spaces"; "words";
   "total"; "goal"].

(** [typeof x !== 'number' || isNaN(x) || x < 0]; stored numbers are never
    NaN. *)
Definition badNumber (v : jsval) : bool :=
  match v with
  | VNum z => z <? 0
  | _ => true
  end.

Definition validateStats (stats : jsval) : result :=
  if negb (truthy stats) || negb (isObject stats)
  then invalid "统计数据格式不正确"
  else
    match List.find (λ field, negb (js_in field stats)) requiredFields with
    | Some field => invalid ("缺少必要字段: " +:+ field)
    | None =>
        match List.find (λ field, badNumber (js_index stats field))
                numericFields with
        | Some field => invalid ("字段 " +:+ field +:+ " 必须是有效的非负数")
        | None =>
            match js_index stats "completed" with
            | VBool _ => valid
            | _ => invalid "completed 字段必须是布尔值"
            end
        end
    end.

End validators.

(** ** ui/HeatmapComponent.ts: the colour and the label of a day *)

Module HeatmapComponent.

Record ColorRange := {
  min : Z;
  max : Z;
  color : string;
  label : string
}.

Definition defaultRanges : list ColorRange :=
  [ {| min := 0; max := 0; color := "#f0f9f0"; label := "无写作" |};
    {| min := 1; max := 99; color := "#dcfce7"; label := "少量写作" |};
    {| min := 100; max := 199; color := "#bbf7d0"; label := "轻度写作" |};
    {| min := 200; max := 299; color := "#86efac"; label := "中度写作" |};
    {| min := 300; max := 999999; color := "#10b981"; label := "重度写作" |} ].

(** [heatmapColorRanges && heatmapColorRanges.length > 0 ? ... : defaultRanges];
    [None] is a settings object without the property. *)
Definition rangesOf (heatmapColorRanges : option (list ColorRange))
    : list ColorRange :=
  match heatmapColorRanges with
  | Some (r :: l) => r :: l
  | _ => defaultRanges
  end.

(** The [for] loop of both methods: the first range that holds the count. *)
Definition findRange (ranges : list ColorRange) (wordCount : Z)
    : option ColorRange :=
  List.find (λ range, (min range <=? wordCount) && (wordCount <=? max range))
    ranges.

(** [a || b] on strings. *)
Definition str_or (a b : string) : string :=
  if String.eqb a "" then b else a.

Definition getCellColor (heatmapColorRanges : option (list ColorRange))
    (wordCount : Z) : string :=
  let ranges := rangesOf heatmapColorRanges in
  match findRange ranges wordCount with
  | Some range => color range
  | None =>
      match ranges with
      | r :: _ => str_or (color r) "#f0f9f0"
      | [] => "#f0f9f0"
      end
  end.

Definition getRangeLabel (heatmapColorRanges : option (list ColorRange))
    (wordCount : Z) : string :=
  let ranges := rangesOf heatmapColorRanges in
  match findRange ranges wordCount with
  | Some range => label range
  | None =>
      match ranges with
      | r :: _ => str_or (label r) "无写作"
      | [] => "无写作"
      end
  end.

End HeatmapComponent.

(** ** main.ts: the plugin's [updateWordCount]

    The method takes the note's text from the cache when the cache has it and
    from the vault otherwise, analyses it and hands the result to the
    statistics manager.  Every error ends in the [catch] block, so the method
    returns normally; the second component tells whether the block ran. *)

Record TFile := {
  path : string;
  name : string;
  extension : string
}.

Module Main.

Record t := {
  settings : WordCountSettings;
  textAnalyzer : WordCountSettings;
  statsManager : StatsManager.t;
  cacheService : gmap string (CacheService.CacheItem (list Z))
}.

Definition isMarkdownFile (file : TFile) : bool :=
  String.eqb (extension file) "md".

Definition withCache (p : t) (cache : gmap string (CacheService.CacheItem (list Z))) : t :=
  {| settings := settings p; textAnalyzer := textAnalyzer p;
     statsManager := statsManager p; cacheService := cache |}.

Section Host.

Variable Date_getTime : jsval → option Z.

(** [activeFile] is what [getActiveFile()] returns and [vaultContent] what
    [vault.read] resolves to ([None] when it rejects).  [t_has], [t_get] and
    [t_set] are the clock readings of the cache's [has], [get] and [set];
    [today], [now] and [save_ok] are the inputs of
    [StatsManager.updateWordCount].  A cache [get] that comes back empty
    leaves [content] undefined, and the analysis of it throws. *)
Definition updateWordCount (p : t) (activeFile : option TFile)
    (vaultContent : option (list Z)) (t_has t_get t_set : Z)
    (today : string) (now : Z) (save_ok : bool) : t * bool :=
  match activeFile with
  | None => (p, false)
  | Some file =>
      if negb (isMarkdownFile file) then (p, false)
      else
        let cacheKey := "file_" +:+ path file in
        let '(cache1, hit) :=
          if enableCache (settings p)
          then CacheService.has (cacheService p) cacheKey t_has
          else (cacheService p, false) in
        let '(cache2, content) :=
          if hit then CacheService.get cache1 cacheKey t_get
          else match vaultContent with
               | None => (cache1, None)
               | Some c =>
                   (if enableCache (settings p)
                    then CacheService.set cache1 cacheKey c
                           CONSTANTS.CACHE_TTL t_set
                    else cache1,
                    Some c)
               end in
        match content with
        | None => (withCache p cache2, true)
        | Some c =>
            match TextAnalyzer.analyzeText (textAnalyzer p) c with
            | None => (withCache p cache2, true)
            | Some analysisResult =>
                let '(m, completion) :=
                  StatsManager.updateWordCount Date_getTime (statsManager p)
                    today now (name file) analysisResult save_ok in
                ({| settings := settings p; textAnalyzer := textAnalyzer p;
                    statsManager := m; cacheService := cache2 |},
                 match completion with Returned => false | Threw => true end)
            end
        end
  end.

End Host.

End Main.

(** ** Vocabulary of the statements *)

(** The sum of the counters whose tracking toggle is on. *)
Definition enabledSum (s : WordCountSettings) (r : TextAnalysisResult) : Z :=
  (if trackChinese s then r_chinese r else 0)
  + (if trackEnglish s then r_english r else 0)
  + (if trackPunctuation s then r_punctuation r else 0)
  + (if trackNumbers s then r_numbers r else 0)
  + (if trackSpaces s then r_spaces r else 0).

(** One call of [updateWordCount] with the inputs the host supplies. *)
Record updateCall := {
  uc_today : string;
  uc_now : Z;
  uc_fileName : string;
  uc_result : TextAnalysisResult;
  uc_save_ok : bool
}.

Definition runUpdate (getTime : jsval → option Z) (m : StatsManager.t)
    (c : updateCall) : StatsManager.t :=
  (StatsManager.updateWordCount getTime m (uc_today c) (uc_now c)
     (uc_fileName c) (uc_result c) (uc_save_ok c)).1.

Definition runUpdates (getTime : jsval → option Z) (m : StatsManager.t)
    (calls : list updateCall) : StatsManager.t :=
  foldl (runUpdate getTime) m calls.

(** The log entry that a call appends. *)
Definition changeOf (s : WordCountSettings) (c : updateCall) : CharChange :=
  StatsManager.mkCharChange (uc_now c) (uc_fileName c) (uc_result c)
    (num_or (StatsManager.charCount s (uc_result c)) 0).

(** The log a day starts from. *)
Definition logOf (m : StatsManager.t) (day : string) : list CharChange :=
  charChanges (default (StatsManager.createEmptyStats day)
                 (StatsManager.dailyStats m !! day)).

Definition logsBounded (m : StatsManager.t) : Prop :=
  ∀ k d, StatsManager.dailyStats m !! k = Some d →
         (length (charChanges d) ≤ CONSTANTS.MAX_CHAR_CHANGES)%nat.

Definition streakInv (sd : StreakData) : Prop := current sd ≤ longest sd.

(** The streak records that [updateStreakData] steps reach from the initial
    (or reset) record. *)
Inductive streakReachable (getTime : jsval → option Z) : StreakData → Prop :=
| reach_initial : streakReachable getTime StatsManager.initialStreak
| reach_advance sd today :
    streakReachable getTime sd →
    streakReachable getTime (StatsManager.updateStreakData getTime sd today).

(** The counter properties of a stored item, with the field of the validated
    record each one lands in. *)
Definition counterFields : list (string * (StatsManager.ValidatedItem → jsval)) :=
  [ ("chinese", StatsManager.v_chinese);
    ("english", StatsManager.v_english);
    ("punctuation", StatsManager.v_punctuation);
    ("numbers", StatsManager.v_numbers);
    ("spaces", StatsManager.v_spaces);
    ("words", StatsManager.v_words) ].

(** A store written by the single-file plugin, where a day below its goal was
    saved with [completed = false]; a store with a negative counter. *)
Definition staleStore : jsval :=
  VArr [VObj (list_to_map
    [("date", VStr "2024-01-01"); ("chinese", VNum 5); ("total", VNum 5);
     ("goal", VNum 1000); ("completed", VBool false); ("charChanges", VArr [])])].


Definition defaultSettings : WordCountSettings :=
  {| trackChinese := true; trackEnglish := true; trackPunctuation := true;
     trackNumbers := true; trackSpaces := false; showWordCount := true;
     enableCache := true |}.

(** Noon UTC on 2024-01-02. *)
Definition sampleNow : Z := 19724 * msPerDay + 12 * 60 * 60 * 1000.

(** Two clocks thirty days after a change of the New York offset: half past
    midnight UTC on 2024-11-20, and midnight UTC on 2024-03-26; a store with
    a record of 2024-10-21. *)
Definition novemberClock : Z :=
  IsoDate.daysFromCivil 2024 11 20 * msPerDay + 30 * 60 * 1000.

Definition marchClock : Z := IsoDate.daysFromCivil 2024 3 26 * msPerDay.

Definition octoberFields : gmap string jsval :=
  list_to_map
    [("date", VStr "2024-10-21"); ("chinese", VNum 5); ("total", VNum 5);
     ("completed", VBool true); ("charChanges", VArr [])].

Definition octoberStore : jsval := VArr [VObj octoberFields].


(** White-space normalisation: every maximal run of white space becomes one
    space.  [inRun] tells that the code unit before was white space. *)
Fixpoint collapseFrom (inRun : bool) (s : list Z) : list Z :=
  match s with
  | [] => []
  | x :: s' =>
      if Js.isSpace x
      then (if inRun then collapseFrom true s' else 32 :: collapseFrom true s')
      else x :: collapseFrom false s'
  end.

Definition collapse (s : list Z) : list Z := collapseFrom false s.

(** Normalised text: every white-space code unit is a space and follows a
    code unit that is not white space.  [afterSpace] tells that the code unit
    before the text was white space. *)
Fixpoint tidy (afterSpace : bool) (s : list Z) : Prop :=
  match s with
  | [] => True
  | x :: s' =>
      if Js.isSpace x then x = 32 ∧ afterSpace = false ∧ tidy true s'
      else tidy false s'
  end.

(** Inside code nothing but a backtick or a dollar sign ends the copying of
    the state-machine stripper. *)
Definition codeChar (x : Z) : Prop := x ≠ 96 ∧ x ≠ 36.

(** The front-matter skip of the state-machine stripper is over at index
    [i]. *)
Definition pastFrontmatter (frontmatterEnd : nat)
    (st : WordCountPlugin.scanState) (i : nat) : Prop :=
  WordCountPlugin.inFrontmatter st = false ∨ (frontmatterEnd ≤ i)%nat.

(** Code units other than the backtick and the hyphen. *)
Definition noTickNoHyphen (x : Z) : Prop := x ≠ 96 ∧ x ≠ 45.

(** *** Documents with code

    A document as a sequence of pieces: a plain code unit, a fenced code
    region with its content, an inline code span with its content. *)
Inductive piece :=
| Plain (x : Z)
| Fence (c : list Z)
| Span (c : list Z).

Definition pieceText (p : piece) : list Z :=
  match p with
  | Plain x => [x]
  | Fence c => Js.str "```" ++ c ++ Js.str "```"
  | Span c => Js.str "`" ++ c ++ Js.str "`"
  end.

Definition docText (d : list piece) : list Z := mjoin (pieceText <$> d).

(** The text of the document with every code region deleted, markers and
    content. *)
Definition plainText (p : piece) : list Z :=
  match p with
  | Plain x => [x]
  | _ => []
  end.

Definition withoutCode (d : list piece) : list Z := mjoin (plainText <$> d).

(** The document without its fenced regions. *)
Definition isFence (p : piece) : bool :=
  match p with
  | Fence _ => true
  | _ => false
  end.

Definition withoutFences (d : list piece) : list piece :=
  filter (λ p, isFence p = false) d.

(** The pieces read as what they are: plain code units and code contents
    have no backtick and no hyphen, a span is not empty, and no fence comes
    right after a span, where the closing backtick of the span would read as
    the start of the fence.  [afterSpan] tells that the piece before was a
    span. *)
Fixpoint codeDelimited (afterSpan : bool) (d : list piece) : Prop :=
  match d with
  | [] => True
  | Plain x :: d' => noTickNoHyphen x ∧ codeDelimited false d'
  | Fence c :: d' =>
      afterSpan = false ∧ Forall noTickNoHyphen c ∧ codeDelimited false d'
  | Span c :: d' =>
      c ≠ [] ∧ Forall noTickNoHyphen c ∧ codeDelimited true d'
  end.

(** A note with two inline spans and two fenced regions. *)
Definition sampleDoc : list piece :=
  (Plain <$> Js.str "run ") ++ [Span (Js.str "ls")]
  ++ (Plain <$> Js.str " or ") ++ [Span (Js.str "dir"); Plain 10]
  ++ [Fence (Js.str "x = 1"); Fence (Js.str "y = 2")]
  ++ (Plain <$> Js.str " done").

(** *** Vocabulary for the matcher *)

(** A matcher that fails whenever its continuation fails on every suffix of
    the input. *)
Definition failsWith {R : Type} (m1 : Js.matcher R) : Prop :=
  ∀ prev s c k,
    (∀ p' s' c', s' `suffix_of` s → k p' s' c' = None) →
    m1 prev s c k = None.

(** [requires re P r]: every match of [r] consumes a code unit that
    satisfies [P]. *)
Inductive requires (re : Js.RegExp) (P : Z → Prop) : Js.regex → Prop :=
| req_chars cls :
    (∀ x, Js.matchesClass re cls x = true → P x) →
    requires re P (Js.Chars cls)
| req_seq_l r1 r2 : requires re P r1 → requires re P (Js.Seq r1 r2)
| req_seq_r r1 r2 : requires re P r2 → requires re P (Js.Seq r1 r2)
| req_group n r : requires re P r → requires re P (Js.Group n r)
| req_repeat lo hi greedy r :
    (1 ≤ lo)%nat → requires re P r →
    requires re P (Js.Repeat lo hi greedy r).

(** The code unit before the position reached after the run [c]. *)
Definition lastOr (prev : option Z) (c : list Z) : option Z :=
  match last c with Some x => Some x | None => prev end.

(** *** Sample inputs *)

Definition sampleStreak : StreakData :=
  {| current := 2; longest := 5; lastDate := "2024-01-01" |}.

Definition sampleResult : TextAnalysisResult :=
  {| r_chinese := 4; r_english := 3; r_punctuation := 2; r_numbers := 1;
     r_spaces := 7; r_words := 1 |}.

Definition sampleCall : updateCall :=
  {| uc_today := "2024-01-02"; uc_now := sampleNow; uc_fileName := "note.md";
     uc_result := sampleResult; uc_save_ok := true |}.

(** 105 calls on one day, a millisecond apart. *)
Definition sampleCalls : list updateCall :=
  (λ i : nat,
     {| uc_today := "2024-01-02"; uc_now := sampleNow + Z.of_nat i;
        uc_fileName := "note.md"; uc_result := sampleResult;
        uc_save_ok := true |}) <$> seq 0 105.

(** A day record as the single-file plugin saved it below its goal. *)
Definition staleStats : DailyStats :=
  {| date := "2024-01-01"; chinese := 5; english := 0; punctuation := 0;
     numbers := 0; spaces := 0; words := 0; total := 5; goal := 0;
     completed := false; charChanges := [] |}.

Definition staleManager : StatsManager.t :=
  {| StatsManager.dailyStats := {[ "2024-01-01" := staleStats ]};
     StatsManager.streakData := StatsManager.initialStreak;
     StatsManager.settings := defaultSettings |}.

(** *** Vocabulary for the classifier *)

(** An ASCII letter; one of the letters I V X L C D M, in either case. *)
Definition isLetter (x : Z) : bool :=
  ((97 <=? x) && (x <=? 122)) || ((65 <=? x) && (x <=? 90)).

Definition isRomanLetter (x : Z) : bool :=
  bool_decide (x ∈ Js.str "IVXLCDMivxlcdm").

(** The record with [e] letters and [w] words and nothing else. *)
Definition lettersAndWords (e w : Z) : TextAnalysisResult :=
  {| r_chinese := 0; r_english := e; r_punctuation := 0; r_numbers := 0;
     r_spaces := 0; r_words := w |}.

(** The class of the Roman-numeral pattern and the continuation that follows
    its repetition: the end of the input, without the [m] flag. *)
Definition romanClass : Js.charClass :=
  {| Js.negated := false; Js.items := Js.One <$> Js.str "IVXLCDM" |}.

Definition romanEnd
    : option Z → list Z → Js.captures → option (list Z * Js.captures) :=
  λ p' s' c',
    Js.rmatch REGEX_PATTERNS.ROMAN_NUMERALS (Js.seq [Js.End_]) p' s' c'
      (λ _ s'' c'', Some (s'', c'')).

(** The counters with [e] more letters and [w] more words. *)
Definition addLetters (acc : TextAnalysisResult) (e w : Z) : TextAnalysisResult :=
  {| r_chinese := r_chinese acc; r_english := r_english acc + e;
     r_punctuation := r_punctuation acc; r_numbers := r_numbers acc;
     r_spaces := r_spaces acc; r_words := r_words acc + w |}.

(** What a maximal run [w] of letters adds to the counters: a single letter
    is one letter, a longer run of Roman-numeral letters is nothing, any other
    run is its letters and, with word counting on, one word. *)
Definition countRun (s : WordCountSettings) (acc : TextAnalysisResult)
    (w : list Z) : TextAnalysisResult :=
  if bool_decide (length w = 1%nat) then addLetters acc 1 0
  else if forallb isRomanLetter w then acc
  else addLetters acc (Z.of_nat (length w)) (if showWordCount s then 1 else 0).

(** *** Vocabulary for the services and the helpers *)

(** The clock readings at which [func] runs when the throttled function is
    called at the readings [times], in this order. *)
Fixpoint throttleRun (delay lastCall : Z) (times : list Z) : list Z :=
  match times with
  | [] => []
  | now :: rest =>
      let '(lastCall', fired) := helpers.throttled delay lastCall now in
      if fired then now :: throttleRun delay lastCall' rest
      else throttleRun delay lastCall' rest
  end.

(** Each reading of [l] lies at least [delay] after the one before it, the
    first one after [prev]. *)
Fixpoint spaced (delay prev : Z) (l : list Z) : Prop :=
  match l with
  | [] => True
  | x :: l' => delay ≤ x - prev ∧ spaced delay x l'
  end.

(** The number of spaces of a text. *)
Definition spacesOf (s : list Z) : nat :=
  length (filter (λ x, x = 32) s).

(** A day record is filed under its own date and has no goal. *)
Definition wellKeyed (m : StatsManager.t) : Prop :=
  ∀ k d, StatsManager.dailyStats m !! k = Some d → date d = k ∧ goal d = 0.

(** The stored form of a log entry and of a day record: the JSON value that
    the data file holds for it. *)
Definition storedAction (a : Action) : jsval :=
  match a with
  | ActAdd => VStr "add"
  | ActDelete => VStr "delete"
  end.

Definition storedChange (c : CharChange) : jsval :=
  VObj (list_to_map
    [ ("timestamp", VNum (cc_timestamp c)); ("action", storedAction (cc_action c));
      ("fileName", VStr (cc_fileName c)); ("chinese", VNum (cc_chinese c));
      ("english", VNum (cc_english c)); ("punctuation", VNum (cc_punctuation c));
      ("numbers", VNum (cc_numbers c)); ("spaces", VNum (cc_spaces c));
      ("words", VNum (cc_words c)); ("total", VNum (cc_total c)) ]).

Definition storedStats (d : DailyStats) : jsval :=
  VObj (list_to_map
    [ ("date", VStr (date d)); ("chinese", VNum (chinese d));
      ("english", VNum (english d)); ("punctuation", VNum (punctuation d));
      ("numbers", VNum (numbers d)); ("spaces", VNum (spaces d));
      ("words", VNum (words d)); ("total", VNum (total d));
      ("goal", VNum (goal d)); ("completed", VBool (completed d));
      ("charChanges", VArr (storedChange <$> charChanges d)) ]).

(** The array that [saveData] hands to the plugin store: the day records of
    the map. *)
Definition storedMap (stats : gmap string DailyStats) : jsval :=
  VArr (storedStats <$> (map_to_list stats).*2).

(** A day record as [loadData] rebuilds it: the goal is set to 0. *)
Definition withoutGoal (d : DailyStats) : DailyStats :=
  {| date := date d; chinese := chinese d; english := english d;
     punctuation := punctuation d; numbers := numbers d; spaces := spaces d;
     words := words d; total := total d; goal := 0;
     completed := completed d; charChanges := charChanges d |}.

(** The date of a day record lies between the cut-off of [loadData] and
    [now]. *)
Definition dateInWindow (getTime : jsval → option Z) (zone : Z → bool → Z)
    (now : Z) (d : DailyStats) : bool :=
  match getTime (VStr (date d)) with
  | Some itemDate =>
      (StatsManager.thirtyDaysAgo zone now <=? itemDate) && (itemDate <=? now)
  | None => false
  end.

(** Each date of [days] is the day after the one before it, the first one
    the day after [last]. *)
Fixpoint consecutive (getTime : jsval → option Z) (last : string)
    (days : list string) : Prop :=
  match days with
  | [] => True
  | day :: rest =>
      day ≠ "" ∧ StatsManager.diffDays getTime last day = Some 1
      ∧ consecutive getTime day rest
  end.

(** The sum of the five character counters. *)
Definition charSum (r : TextAnalysisResult) : Z :=
  r_chinese r + r_english r + r_punctuation r + r_numbers r + r_spaces r.

Definition nonNegative (r : TextAnalysisResult) : Prop :=
  0 ≤ r_chinese r ∧ 0 ≤ r_english r ∧ 0 ≤ r_punctuation r
  ∧ 0 ≤ r_numbers r ∧ 0 ≤ r_spaces r ∧ 0 ≤ r_words r.

(** A sample cache, note and plugin state. *)
Definition sampleFile : TFile :=
  {| path := "notes/a.md"; name := "a.md"; extension := "md" |}.

Definition samplePlugin : Main.t :=
  {| Main.settings := defaultSettings; Main.textAnalyzer := defaultSettings;
     Main.statsManager := StatsManager.new defaultSettings;
     Main.cacheService := ∅ |}.

(** A counter whose toggle is off stays at 0; [words] needs both the
    alphabetic toggle and the word toggle. *)
Definition respectsToggles (s : WordCountSettings) (r : TextAnalysisResult)
    : Prop :=
  (trackChinese s = false → r_chinese r = 0)
  ∧ (trackEnglish s = false → r_english r = 0 ∧ r_words r = 0)
  ∧ (trackPunctuation s = false → r_punctuation r = 0)
  ∧ (trackNumbers s = false → r_numbers r = 0)
  ∧ (trackSpaces s = false → r_spaces r = 0)
  ∧ (showWordCount s = false → r_words r = 0).

(** What the classifier's loop keeps true of the index and the counters. *)
Definition countInv (s : WordCountSettings) (text : list Z) (i : nat)
    (acc : TextAnalysisResult) : Prop :=
  (i ≤ length text)%nat
  ∧ nonNegative acc
  ∧ charSum acc ≤ Z.of_nat i
  ∧ 2 * r_words acc ≤ r_english acc
  ∧ respectsToggles s acc.

(** A code unit from [0] to [U] that neither the number branch nor the
    letter branch of the classifier takes under the settings [s]. *)
Definition fallsToChinese (s : WordCountSettings) (x : Z) : Prop :=
  48 ≤ x ≤ 85
  ∧ (trackNumbers s = true → 57 < x)
  ∧ (trackEnglish s = true → x < 65).

(** The record with [n] in the first counter and nothing else. *)
Definition onlyChinese (n : Z) : TextAnalysisResult :=
  {| r_chinese := n; r_english := 0; r_punctuation := 0; r_numbers := 0;
     r_spaces := 0; r_words := 0 |}.

(** Stripped text: it neither starts nor ends with white space, and its
    white space is single spaces. *)
Definition normalised (p : list Z) : Prop :=
  tidy true p ∧ from_option Js.isSpace false (last p) = false.

(** What the validation step of [loadData] makes of a stored day record. *)
Definition validated (d : DailyStats) : StatsManager.ValidatedItem :=
  {| StatsManager.v_date := VStr (date d);
     StatsManager.v_chinese := VNum (chinese d);
     StatsManager.v_english := VNum (english d);
     StatsManager.v_punctuation := VNum (punctuation d);
     StatsManager.v_numbers := VNum (numbers d);
     StatsManager.v_spaces := VNum (spaces d);
     StatsManager.v_words := VNum (words d);
     StatsManager.v_total := VNum (total d);
     StatsManager.v_goal := 0;
     StatsManager.v_completed := VBool (completed d);
     StatsManager.v_charChanges := VArr (storedChange <$> charChanges d) |}.

(** What the loop of the single-file classifier keeps true of the counters:
    [english] counts words, not letters. *)
Definition countsWords (s : WordCountSettings) (r : TextAnalysisResult)
    : Prop :=
  0 ≤ r_words r ≤ r_english r
  ∧ (showWordCount s = true → r_english r = r_words r)
  ∧ (showWordCount s = false → r_words r = 0).

(** A code unit that no branch of the state-machine stripper looks for. *)
Definition ordinary (x : Z) : Prop := x ∉ Js.str "$`<[!#>-*+|".

(** No mode of the state-machine stripper is on. *)
Definition noMode (st : WordCountPlugin.scanState) : Prop :=
  WordCountPlugin.inCodeBlock st = false
  ∧ WordCountPlugin.inInlineCode st = false
  ∧ WordCountPlugin.inFrontmatter st = false
  ∧ WordCountPlugin.inHtmlTag st = false
  ∧ WordCountPlugin.inMathBlock st = false.

(** The counters added up, field by field. *)
Definition addCounts (r1 r2 : TextAnalysisResult) : TextAnalysisResult :=
  {| r_chinese := r_chinese r1 + r_chinese r2;
     r_english := r_english r1 + r_english r2;
     r_punctuation := r_punctuation r1 + r_punctuation r2;
     r_numbers := r_numbers r1 + r_numbers r2;
     r_spaces := r_spaces r1 + r_spaces r2;
     r_words := r_words r1 + r_words r2 |}.

(** No run of letters goes across the place where [a] ends and [b]
    starts. *)
Definition noWordAcross (a b : list Z) : Prop :=
  from_option isLetter false (last a) = true →
  from_option isLetter false (head b) = false.

(** More sample inputs: a cache with one entry, settings with number
    tracking off, a day record in the window of [sampleNow], two overlapping
    colour ranges. *)
Definition sampleCache : gmap string (CacheService.CacheItem Z) :=
  CacheService.set ∅ "k" 7 0 0.

Definition staleCachePlugin : Main.t :=
  Main.withCache samplePlugin
    {[ "file_notes/a.md" :=
         {| CacheService.value := Js.str "old text";
            CacheService.timestamp := 0 |} ]}.

Definition noNumbers : WordCountSettings :=
  {| trackChinese := true; trackEnglish := true; trackPunctuation := true;
     trackNumbers := false; trackSpaces := false; showWordCount := true;
     enableCache := true |}.

Definition sampleStored : jsval :=
  storedStats staleStats.

Definition sampleRanges : list HeatmapComponent.ColorRange :=
  [ {| HeatmapComponent.min := 0; HeatmapComponent.max := 500;
       HeatmapComponent.color := "#111111"; HeatmapComponent.label := "low" |};
    {| HeatmapComponent.min := 100; HeatmapComponent.max := 900;
       HeatmapComponent.color := "#222222"; HeatmapComponent.label := "high" |} ].

(** Two day records around the cut-off of [marchClock]. *)
Definition dayStats (d : string) (n : Z) : DailyStats :=
  {| date := d; chinese := n; english := 0; punctuation := 0; numbers := 0;
     spaces := 0; words := 0; total := n; goal := 0; completed := 0 <? n;
     charChanges := [] |}.

Definition marchStats : gmap string DailyStats :=
  {[ "2024-02-25" := dayStats "2024-02-25" 7;
     "2024-03-01" := dayStats "2024-03-01" 9 ]}.

(** * Number arithmetic: the day difference on doubles

    Below [2 ^ 53] the subtraction of two time values is exact and the floor
    of the rounded quotient is the floor of the exact one; beyond, the
    rounded results stay on the same side of 0 and of 1 as the exact ones. *)

(** Above [2 ^ 53] only every second integer is a double, and a tie goes to
    the multiple of four; a quotient just below 0 has floor -1. *)
Example toDouble_examples :
  toDouble (2 ^ 53 + 1) = 2 ^ 53
  ∧ toDouble (2 ^ 53 + 2) = 2 ^ 53 + 2
  ∧ toDouble (2 ^ 53 + 3) = 2 ^ 53 + 4
  ∧ toDouble (- (2 ^ 53 + 1)) = - 2 ^ 53
  ∧ floorQuotient (-1) msPerDay = -1
  ∧ floorQuotient (msPerDay - 1) msPerDay = 0
  ∧ dayDifference (19723 * msPerDay) (19732 * msPerDay) = 9.
Proof. vm_compute. split_and!; reflexivity. Qed.

Lemma roundEven_near n d :
  0 < d → - d ≤ 2 * (roundEven n d * d - n) ≤ d.
Proof.
  intros Hd. unfold roundEven.
  pose proof (Z.div_mod n d ltac:(lia)) as Hdm.
  pose proof (Z.mod_pos_bound n d Hd) as Hb.
  destruct (Z.ltb_spec (2 * (n `mod` d)) d);
    [|destruct (Z.ltb_spec d (2 * (n `mod` d)));
      [|destruct (Z.even (n `div` d))]]; nia.
Qed.

Lemma roundEven_floor n d :
  0 < d → n `div` d ≤ roundEven n d.
Proof.
  intros Hd. unfold roundEven.
  destruct (Z.ltb_spec (2 * (n `mod` d)) d);
    [|destruct (Z.ltb_spec d (2 * (n `mod` d)));
      [|destruct (Z.even (n `div` d))]]; lia.
Qed.

Lemma toDouble_exact x : Z.abs x < 2 ^ 53 → toDouble x = x.
Proof.
  intros Hx. unfold toDouble.
  destruct (Z.leb_spec (Z.log2 (Z.abs x) - 52) 0) as [|He]; [done|].
  assert (0 < Z.abs x) by (destruct (Z.abs x) eqn:E; cbn in He; lia).
  apply Z.log2_lt_pow2 in Hx; lia.
Qed.

Lemma floorQuotient_exact x y :
  0 < y → Z.abs x < 2 ^ 53 → floorQuotient x y = x `div` y.
Proof.
  intros Hy Hx. unfold floorQuotient.
  destruct (Z.eqb_spec x 0) as [->|Hx0]; [done|].
  set (a := Z.abs x).
  assert (Ha : 0 < a) by lia.
  set (k := Z.log2 a - Z.log2 y).
  set (L := if _ <=? _ then k else k - 1).
  assert (Hlog : Z.log2 a < 53) by (by apply Z.log2_lt_pow2).
  pose proof (Z.log2_nonneg y) as Hly.
  assert (HL : L ≤ 52 - Z.log2 y) by (subst L k; case_match; lia).
  set (e := L - 52).
  assert (He : e ≤ 0) by lia.
  rewrite (Z.max_l (- e) 0), (Z.max_r e 0) by lia.
  change (2 ^ 0) with 1. rewrite !Z.mul_1_r.
  set (P := 2 ^ (- e)).
  assert (HP : 0 < P) by (apply Z.pow_pos_nonneg; lia).
  assert (HyP : y < 2 * P).
  { pose proof (Z.log2_spec y Hy) as [_ Hup].
    assert (2 ^ Z.succ (Z.log2 y) ≤ 2 * P); [|lia].
    subst P. rewrite <- (Z.pow_succ_r 2 (- e)) by lia.
    apply Z.pow_le_mono_r; lia. }
  pose proof (roundEven_near (a * P) y Hy) as Hm.
  set (m := roundEven (a * P) y) in *.
  assert (HM : - y ≤ 2 * (Z.sgn x * m * y - x * P) ≤ y).
  { destruct (Z.sgn_spec x) as [[? ->]|[[? ->]|[? ->]]]; subst a; [|lia|].
    - rewrite Z.abs_eq in Hm by lia. lia.
    - rewrite Z.abs_neq in Hm by lia. lia. }
  set (M := Z.sgn x * m) in *.
  pose proof (Z.div_mod M P ltac:(lia)) as Hz.
  pose proof (Z.mod_pos_bound M P HP) as Hzb.
  pose proof (Z.div_mod x y ltac:(lia)) as Hw.
  pose proof (Z.mod_pos_bound x y Hy) as Hwb.
  set (z := M `div` P) in *. set (w := x `div` y) in *.
  destruct (Z.lt_trichotomy z w) as [Hlt|[Heq|Hgt]]; [|done|].
  - exfalso. assert (M * y ≤ x * P - y); [|lia].
    assert (M ≤ P * w - 1) by nia.
    assert (P * (y * w) ≤ x * P) by nia. nia.
  - exfalso. assert (P ≤ M * y - x * P); [|lia].
    assert (x ≤ y * z - 1) by nia.
    assert (P * z * y ≤ M * y) by nia. nia.
Qed.

Lemma dayDifference_exact t1 t2 :
  Z.abs (t2 - t1) < 2 ^ 53 →
  dayDifference t1 t2 = (t2 - t1) `div` msPerDay.
Proof.
  intros H. unfold dayDifference.
  rewrite toDouble_exact by done. by apply floorQuotient_exact.
Qed.

Lemma toDouble_opp x : toDouble (- x) = - toDouble x.
Proof.
  unfold toDouble. rewrite Z.abs_opp, Z.sgn_opp.
  destruct (Z.log2 (Z.abs x) - 52 <=? 0); lia.
Qed.

Lemma toDouble_large x : 2 ^ 53 ≤ x → 2 ^ 53 ≤ toDouble x.
Proof.
  intros Hx. unfold toDouble.
  destruct (Z.leb_spec (Z.log2 (Z.abs x) - 52) 0) as [|He]; [done|].
  rewrite Z.abs_eq, Z.sgn_pos, Z.mul_1_l in * by lia.
  set (e := Z.log2 x - 52) in *.
  assert (HE : 2 ≤ 2 ^ e).
  { change 2 with (2 ^ 1) at 1. apply Z.pow_le_mono_r; lia. }
  pose proof (roundEven_floor x (2 ^ e) ltac:(lia)) as Hm.
  assert (Hq : 2 ^ 52 ≤ x `div` 2 ^ e).
  { apply Z.div_le_lower_bound; [lia|].
    rewrite <- Z.pow_add_r by lia.
    replace (e + 52) with (Z.log2 x) by lia.
    apply Z.log2_spec. lia. }
  nia.
Qed.

(** The mantissa of a quotient is not 0. *)
Lemma quotient_mantissa a y e :
  0 < a → 0 < y → e ≤ Z.log2 a - Z.log2 y - 52 →
  y * 2 ^ Z.max e 0 ≤ a * 2 ^ Z.max (- e) 0.
Proof.
  intros Ha Hy He.
  pose proof (Z.log2_spec a Ha) as [Hla _].
  pose proof (Z.log2_spec y Hy) as [_ Hly].
  pose proof (Z.log2_nonneg a). pose proof (Z.log2_nonneg y).
  destruct (Z.le_gt_cases e 0) as [Hneg|Hpos].
  - rewrite (Z.max_r e 0), (Z.max_l (- e) 0) by lia.
    change (2 ^ 0) with 1. rewrite Z.mul_1_r.
    assert (2 ^ Z.succ (Z.log2 y) ≤ 2 ^ Z.log2 a * 2 ^ (- e)).
    { rewrite <- Z.pow_add_r by lia. apply Z.pow_le_mono_r; lia. }
    assert (0 < 2 ^ (- e)) by (apply Z.pow_pos_nonneg; lia). nia.
  - rewrite (Z.max_l e 0), (Z.max_r (- e) 0) by lia.
    change (2 ^ 0) with 1. rewrite Z.mul_1_r.
    assert (2 ^ Z.succ (Z.log2 y) * 2 ^ e ≤ 2 ^ Z.log2 a).
    { rewrite <- Z.pow_add_r by lia. apply Z.pow_le_mono_r; lia. }
    assert (0 < 2 ^ e) by (apply Z.pow_pos_nonneg; lia). nia.
Qed.

Lemma floorQuotient_neg x y : 0 < y → x < 0 → floorQuotient x y < 0.
Proof.
  intros Hy Hx. unfold floorQuotient.
  destruct (Z.eqb_spec x 0) as [|_]; [lia|].
  set (a := Z.abs x). assert (Ha : 0 < a) by lia.
  set (k := Z.log2 a - Z.log2 y).
  set (L := if _ <=? _ then k else k - 1).
  assert (HL : L - 52 ≤ Z.log2 a - Z.log2 y - 52)
    by (subst L k; case_match; lia).
  set (e := L - 52) in *.
  pose proof (quotient_mantissa a y e Ha Hy HL) as Hnd.
  assert (HD : 0 < y * 2 ^ Z.max e 0).
  { apply Z.mul_pos_pos; [done|]. apply Z.pow_pos_nonneg; lia. }
  pose proof (roundEven_floor (a * 2 ^ Z.max (- e) 0) (y * 2 ^ Z.max e 0) HD)
    as Hm.
  assert (1 ≤ (a * 2 ^ Z.max (- e) 0) `div` (y * 2 ^ Z.max e 0))
    by (apply Z.div_le_lower_bound; lia).
  set (m := roundEven _ _) in *.
  rewrite Z.sgn_neg by done.
  apply Z.div_lt_upper_bound; [apply Z.pow_pos_nonneg; lia|].
  assert (0 < 2 ^ Z.max e 0) by (apply Z.pow_pos_nonneg; lia).
  assert (0 < 2 ^ Z.max (- e) 0) by (apply Z.pow_pos_nonneg; lia). nia.
Qed.

Lemma floorQuotient_ge_2 x y : 0 < y → 2 * y ≤ x → 2 ≤ floorQuotient x y.
Proof.
  intros Hy Hx. unfold floorQuotient.
  destruct (Z.eqb_spec x 0) as [|_]; [lia|].
  set (a := Z.abs x). assert (Ha : 0 < a) by lia.
  assert (Hax : a = x) by lia.
  set (k := Z.log2 a - Z.log2 y).
  set (L := if _ <=? _ then k else k - 1).
  assert (HL : L - 52 ≤ Z.log2 a - Z.log2 y - 52)
    by (subst L k; case_match; lia).
  set (e := L - 52) in *.
  pose proof (quotient_mantissa a y e Ha Hy HL) as Hnd.
  assert (HE : 0 < 2 ^ Z.max e 0) by (apply Z.pow_pos_nonneg; lia).
  assert (HP : 0 < 2 ^ Z.max (- e) 0) by (apply Z.pow_pos_nonneg; lia).
  assert (HD : 0 < y * 2 ^ Z.max e 0) by lia.
  pose proof (roundEven_floor (a * 2 ^ Z.max (- e) 0) (y * 2 ^ Z.max e 0) HD)
    as Hm.
  rewrite Z.sgn_pos, Z.mul_1_l by lia.
  apply Z.div_le_lower_bound; [done|].
  destruct (Z.le_gt_cases e 0) as [Hneg|Hpos].
  - rewrite (Z.max_r e 0) in * by lia. change (2 ^ 0) with 1 in *.
    rewrite ?Z.mul_1_r in *.
    assert (2 * 2 ^ Z.max (- e) 0 ≤ (a * 2 ^ Z.max (- e) 0) `div` y);
      [|lia].
    apply Z.div_le_lower_bound; [done|].
    assert (2 * y * 2 ^ Z.max (- e) 0 ≤ a * 2 ^ Z.max (- e) 0)
      by (apply Z.mul_le_mono_nonneg_r; lia).
    lia.
  - rewrite (Z.max_r (- e) 0) in * by lia. change (2 ^ 0) with 1 in *.
    rewrite ?Z.mul_1_r in *. rewrite (Z.max_l e 0) in * by lia.
    assert (1 ≤ a `div` (y * 2 ^ e)) by (apply Z.div_le_lower_bound; lia).
    assert (2 ≤ 2 ^ e).
    { change 2 with (2 ^ 1) at 1. apply Z.pow_le_mono_r; lia. }
    nia.
Qed.

(** The day difference on doubles against the exact one: equal below
    [2 ^ 53], and on the same side of 0 and of 1 everywhere. *)
Lemma dayDifference_cases t1 t2 :
  let d := dayDifference t1 t2 in
  let d' := (t2 - t1) `div` msPerDay in
  (Z.abs (t2 - t1) < 2 ^ 53 ∧ d = d')
  ∨ (1 < d ∧ 1 < d')
  ∨ (d < 0 ∧ d' < 0).
Proof.
  intros d d'. subst d d'.
  destruct (Z.lt_ge_cases (Z.abs (t2 - t1)) (2 ^ 53)) as [Hs|Hl].
  - left. split; [done|]. by apply dayDifference_exact.
  - right. unfold dayDifference.
    destruct (Z.le_gt_cases 0 (t2 - t1)) as [Hpos|Hneg].
    + left. rewrite Z.abs_eq in Hl by done.
      pose proof (toDouble_large _ Hl) as Hd. split.
      * assert (2 ≤ floorQuotient (toDouble (t2 - t1)) msPerDay); [|lia].
        apply floorQuotient_ge_2; [done|]. etrans; [|exact Hd]. done.
      * assert (2 ≤ (t2 - t1) `div` msPerDay); [|lia].
        apply Z.div_le_lower_bound; [done|]. etrans; [|exact Hl]. done.
    + right. rewrite Z.abs_neq in Hl by lia.
      pose proof (toDouble_large _ Hl) as Hd. rewrite toDouble_opp in Hd.
      split.
      * apply floorQuotient_neg; [done|].
        assert (0 < 2 ^ 53) by done. lia.
      * apply Z.div_lt_upper_bound; [done|]. lia.
Qed.

(** * Properties of the daily aggregator and the streak tracker *)

Example parse_epoch : IsoDate.parse "1970-01-01" = Some 0.
Proof. reflexivity. Qed.

Example parse_2024 : IsoDate.parse "2024-01-02" = Some (19724 * msPerDay).
Proof. reflexivity. Qed.

Example parse_bad : IsoDate.parse "2024-02-30" = None.
Proof. reflexivity. Qed.

Lemma num_or_zero (a : Z) : num_or a 0 = a.
Proof. unfold num_or. destruct (Z.eqb_spec a 0); congruence. Qed.

Lemma charCount_enabledSum s r : StatsManager.charCount s r = enabledSum s r.
Proof.
  unfold StatsManager.charCount, enabledSum.
  destruct (trackChinese s), (trackEnglish s), (trackPunctuation s),
    (trackNumbers s), (trackSpaces s); lia.
Qed.

Section Aggregator.

Variable Date_getTime : jsval → option Z.

Local Abbreviation updateWordCount :=
  (StatsManager.updateWordCount Date_getTime).

Lemma updateWordCount_lookup m today now fileName r save_ok :
  StatsManager.dailyStats (updateWordCount m today now fileName r save_ok).1
    !! today
  = Some (StatsManager.updatedStats (StatsManager.settings m)
            (default (StatsManager.createEmptyStats today)
               (StatsManager.dailyStats m !! today)) now fileName r).
Proof.
  unfold StatsManager.updateWordCount.
  destruct save_ok; simpl; apply lookup_insert_eq.
Qed.

Lemma updateWordCount_lookup_ne m today now fileName r save_ok k :
  k ≠ today →
  StatsManager.dailyStats (updateWordCount m today now fileName r save_ok).1
    !! k
  = StatsManager.dailyStats m !! k.
Proof.
  intros Hk. unfold StatsManager.updateWordCount.
  destruct save_ok; simpl; by apply lookup_insert_ne.
Qed.

Lemma updateWordCount_settings m today now fileName r save_ok :
  StatsManager.settings (updateWordCount m today now fileName r save_ok).1
  = StatsManager.settings m.
Proof. unfold StatsManager.updateWordCount. by destruct save_ok. Qed.

(** C1.  After [updateWordCount] today's record carries the six counters of
    the given result, its [total] is the sum of the counters whose toggle is
    on (a counter whose toggle is off adds nothing, whatever its value) and
    [completed] is [total > 0].  A second call on the same day leaves the
    second call's figures: the total is the second sum, not the sum of
    both. *)
Theorem updateWordCount_overwrites m today now fileName r save_ok :
  let m1 := (updateWordCount m today now fileName r save_ok).1 in
  (∃ d, StatsManager.dailyStats m1 !! today = Some d
        ∧ chinese d = r_chinese r ∧ english d = r_english r
        ∧ punctuation d = r_punctuation r ∧ numbers d = r_numbers r
        ∧ spaces d = r_spaces r ∧ words d = r_words r
        ∧ total d = enabledSum (StatsManager.settings m) r
        ∧ completed d = (0 <? total d))
  ∧ ∀ now2 fileName2 r2 save_ok2,
      let m2 := (updateWordCount m1 today now2 fileName2 r2 save_ok2).1 in
      ∃ d2, StatsManager.dailyStats m2 !! today = Some d2
        ∧ chinese d2 = r_chinese r2 ∧ english d2 = r_english r2
        ∧ punctuation d2 = r_punctuation r2 ∧ numbers d2 = r_numbers r2
        ∧ spaces d2 = r_spaces r2 ∧ words d2 = r_words r2
        ∧ total d2 = enabledSum (StatsManager.settings m) r2
        ∧ completed d2 = (0 <? total d2).
Proof.
  assert (Hone : ∀ m today now fileName r save_ok,
    ∃ d, StatsManager.dailyStats
           (updateWordCount m today now fileName r save_ok).1 !! today = Some d
        ∧ chinese d = r_chinese r ∧ english d = r_english r
        ∧ punctuation d = r_punctuation r ∧ numbers d = r_numbers r
        ∧ spaces d = r_spaces r ∧ words d = r_words r
        ∧ total d = enabledSum (StatsManager.settings m) r
        ∧ completed d = (0 <? total d)).
  { clear. intros m today now fileName r save_ok.
    eexists. split; [apply updateWordCount_lookup|].
    cbn [chinese english punctuation numbers spaces words total completed
         StatsManager.updatedStats].
    rewrite num_or_zero, charCount_enabledSum. repeat split. }
  intros m1. split; [apply Hone|].
  intros now2 fileName2 r2 save_ok2 m2.
  destruct (Hone m1 today now2 fileName2 r2 save_ok2) as (d2 & Hd2).
  exists d2. subst m1. by rewrite updateWordCount_settings in Hd2.
Qed.

(** *** The change log *)

Lemma slice_last_length {A} (n : nat) (l : list A) :
  length (slice_last n l) = (length l `min` n)%nat.
Proof. unfold slice_last. rewrite length_drop. lia. Qed.

Lemma slice_last_short {A} (n : nat) (l : list A) :
  (length l ≤ n)%nat → slice_last n l = l.
Proof.
  intros H. unfold slice_last.
  replace (length l - n)%nat with 0%nat by lia. done.
Qed.

(** Cutting after every push is cutting once at the end. *)
Lemma slice_last_snoc {A} (n : nat) (l : list A) (x : A) :
  (0 < n)%nat → slice_last n (slice_last n l ++ [x]) = slice_last n (l ++ [x]).
Proof.
  intros Hn. unfold slice_last.
  rewrite !length_app, length_drop. cbn [length].
  destruct (decide (length l ≤ n)%nat) as [Hle|Hgt].
  - replace (length l - n)%nat with 0%nat by lia.
    rewrite drop_0. do 2 f_equal. lia.
  - rewrite (drop_app_le l [x] (length l + 1 - n)) by lia.
    rewrite drop_app_le by (rewrite length_drop; lia).
    rewrite drop_drop. do 2 f_equal. lia.
Qed.

Lemma updatedStats_charChanges s d now fileName r :
  charChanges (StatsManager.updatedStats s d now fileName r)
  = slice_last CONSTANTS.MAX_CHAR_CHANGES
      (charChanges d
       ++ [StatsManager.mkCharChange now fileName r
             (num_or (StatsManager.charCount s r) 0)]).
Proof.
  cbn [charChanges StatsManager.updatedStats].
  case_match; [done|].
  symmetry. apply slice_last_short.
  apply Nat.ltb_ge. done.
Qed.

Lemma runUpdate_logsBounded m c :
  logsBounded m → logsBounded (runUpdate Date_getTime m c).
Proof.
  intros Hm k d. unfold runUpdate.
  destruct (decide (k = uc_today c)) as [->|Hne].
  - rewrite updateWordCount_lookup. intros [= <-].
    rewrite updatedStats_charChanges, slice_last_length. lia.
  - rewrite updateWordCount_lookup_ne by done. apply Hm.
Qed.

Lemma runUpdates_logsBounded m calls :
  logsBounded m → logsBounded (runUpdates Date_getTime m calls).
Proof.
  revert m. induction calls as [|c calls IH]; intros m Hm; [done|].
  apply IH, runUpdate_logsBounded, Hm.
Qed.

Lemma runUpdates_settings m calls :
  StatsManager.settings (runUpdates Date_getTime m calls)
  = StatsManager.settings m.
Proof.
  unfold runUpdates.
  revert m. induction calls as [|c calls IH]; intros m; [done|].
  cbn [foldl]. rewrite IH. apply updateWordCount_settings.
Qed.

Lemma runUpdates_same_day m today calls :
  calls ≠ [] →
  Forall (λ c, uc_today c = today) calls →
  ∃ d, StatsManager.dailyStats (runUpdates Date_getTime m calls) !! today
       = Some d
     ∧ charChanges d
       = slice_last CONSTANTS.MAX_CHAR_CHANGES
           (logOf m today ++ map (changeOf (StatsManager.settings m)) calls).
Proof.
  induction calls as [|c calls IH] using rev_ind; [done|].
  intros _ Hall. apply Forall_app in Hall as [Hall Hc].
  rewrite Forall_singleton in Hc.
  unfold runUpdates. rewrite foldl_app. cbn [foldl].
  fold (runUpdates Date_getTime m calls).
  eexists. split.
  { unfold runUpdate. rewrite Hc. apply updateWordCount_lookup. }
  rewrite updatedStats_charChanges, runUpdates_settings.
  rewrite map_app, app_assoc. cbn [map]. fold (changeOf (StatsManager.settings m) c).
  destruct calls as [|c0 calls'] eqn:Hcalls.
  - cbn. rewrite app_nil_r. done.
  - rewrite <- Hcalls in *.
    destruct IH as (d & Hd & Hlog); [by subst|done|].
    rewrite Hd. cbn [from_option id]. rewrite Hlog.
    apply slice_last_snoc. unfold CONSTANTS.MAX_CHAR_CHANGES. lia.
Qed.

(** C5.  Starting from a fresh manager, after any sequence of
    [updateWordCount] calls every day record has at most 100 change entries
    (the bound is kept from any state that has it); and after a run of calls
    on one day the log of that day is the last 100 of the entries appended so
    far, oldest first: exactly 100 of them once more than 100 have been
    appended. *)
Theorem charChanges_window (calls : list updateCall) :
  (∀ s k d,
     StatsManager.dailyStats
       (runUpdates Date_getTime (StatsManager.new s) calls) !! k = Some d →
     (length (charChanges d) ≤ 100)%nat)
  ∧ (∀ m, logsBounded m → logsBounded (runUpdates Date_getTime m calls))
  ∧ (∀ m today,
       calls ≠ [] →
       Forall (λ c, uc_today c = today) calls →
       let appended :=
         logOf m today ++ map (changeOf (StatsManager.settings m)) calls in
       ∃ d, StatsManager.dailyStats (runUpdates Date_getTime m calls) !! today
            = Some d
          ∧ charChanges d = drop (length appended - 100) appended
          ∧ ((100 < length appended)%nat → length (charChanges d) = 100%nat)).
Proof.
  split_and!.
  - intros s k d. apply (runUpdates_logsBounded (StatsManager.new s)).
    intros k' d'. cbn. by rewrite lookup_empty.
  - intros m. apply runUpdates_logsBounded.
  - intros m today Hne Hall appended.
    destruct (runUpdates_same_day m today calls Hne Hall) as (d & Hd & Hlog).
    exists d. split; [done|]. split; [done|].
    intros Hlen. rewrite Hlog, slice_last_length.
    fold appended. unfold CONSTANTS.MAX_CHAR_CHANGES. lia.
Qed.

End Aggregator.

(** * The streak tracker *)

Section Streak.

Variable Date_getTime : jsval → option Z.

Local Abbreviation updateStreakData :=
  (StatsManager.updateStreakData Date_getTime).
Local Abbreviation diffDays := (StatsManager.diffDays Date_getTime).

Lemma diffDays_times (last today : string) (tLast tToday : Z) :
  Date_getTime (VStr last) = Some tLast →
  Date_getTime (VStr today) = Some tToday →
  diffDays last today = Some (dayDifference tLast tToday).
Proof. unfold StatsManager.diffDays. by intros -> ->. Qed.

(** C3.  [updateStreakData] is the stated transition function: from the
    uninitialised record it yields (1, 1, today); otherwise, with [d] the
    whole-day difference from [lastDate] to [today], that is, the floor of
    the difference of the two time values over the milliseconds of a day,
    [d = 1] increments [current], raises [longest] to the new [current] if
    that is larger and moves [lastDate]; [d > 1] restarts [current] at 1,
    moves [lastDate] and keeps [longest]; [d = 0] changes nothing.  For time
    values less than [2 ^ 53] apart [d] is the very number the code
    computes. *)
Theorem updateStreakData_transition (sd : StreakData) (today : string) :
  (lastDate sd = "" →
     updateStreakData sd today
     = {| current := 1; longest := 1; lastDate := today |})
  ∧ (∀ tLast tToday,
       lastDate sd ≠ "" →
       Date_getTime (VStr (lastDate sd)) = Some tLast →
       Date_getTime (VStr today) = Some tToday →
       let d := (tToday - tLast) `div` msPerDay in
       (d = 1 →
          updateStreakData sd today
          = {| current := current sd + 1;
               longest := longest sd `max` (current sd + 1);
               lastDate := today |})
       ∧ (1 < d →
          updateStreakData sd today
          = {| current := 1; longest := longest sd; lastDate := today |})
       ∧ (d = 0 → updateStreakData sd today = sd)
       ∧ (Z.abs (tToday - tLast) < 2 ^ 53 →
          diffDays (lastDate sd) today = Some d)).
Proof.
  split.
  - unfold StatsManager.updateStreakData. intros ->. done.
  - intros tLast tToday Hne HtLast HtToday d.
    unfold StatsManager.updateStreakData.
    rewrite (diffDays_times _ _ _ _ HtLast HtToday).
    destruct (decide (lastDate sd = "")) as [?|_]; [done|].
    pose proof (dayDifference_cases tLast tToday) as Hcases.
    cbv zeta in Hcases. fold d in Hcases.
    split; [|split; [|split]].
    + intros Hd.
      assert (dayDifference tLast tToday = 1) as -> by lia.
      cbn. f_equal.
      destruct (Z.ltb_spec (longest sd) (current sd + 1)); lia.
    + intros Hd.
      destruct (Z.eqb_spec (dayDifference tLast tToday) 1); [lia|].
      destruct (Z.ltb_spec 1 (dayDifference tLast tToday)); [done|lia].
    + intros Hd.
      assert (dayDifference tLast tToday = 0) as -> by lia. done.
    + intros Hsmall. f_equal. by apply dayDifference_exact.
Qed.

(** The examples of the streak rules: the next day continues the streak, a
    gap restarts it and keeps [longest]. *)
Example streak_next_day :
  StatsManager.updateStreakData IsoDate.getTime sampleStreak "2024-01-02"
  = {| current := 3; longest := 5; lastDate := "2024-01-02" |}.
Proof. reflexivity. Qed.

Example streak_gap :
  StatsManager.updateStreakData IsoDate.getTime sampleStreak "2024-01-10"
  = {| current := 1; longest := 5; lastDate := "2024-01-10" |}.
Proof. reflexivity. Qed.

(** The predicate alone is not inductive: a gap step from a record with a
    date and [longest = 0], which no run produces, would break it.
    Reachable records with a date have [longest >= 1], which is what the gap
    step needs. *)
Remark streakInv_needs_reachability :
  let sd := {| current := 0; longest := 0; lastDate := "2024-01-01" |} in
  streakInv sd
  ∧ ¬ streakInv (StatsManager.updateStreakData IsoDate.getTime sd "2024-01-10").
Proof. split; [done|]. vm_compute. by intros H. Qed.

Lemma streakReachable_strong sd :
  streakReachable Date_getTime sd →
  current sd ≤ longest sd ∧ (lastDate sd ≠ "" → 1 ≤ longest sd).
Proof.
  induction 1 as [|sd today _ [IHle IHpos]]; [done|].
  unfold StatsManager.updateStreakData.
  destruct (decide (lastDate sd = "")) as [He|Hne]; [done|].
  specialize (IHpos Hne).
  destruct (diffDays (lastDate sd) today) as [d|]; [|done].
  destruct (Z.eqb_spec d 1); cbn.
  - destruct (Z.ltb_spec (longest sd) (current sd + 1)); lia.
  - destruct (Z.ltb_spec 1 d); cbn; [lia|done].
Qed.

(** C4.  [current <= longest] is an invariant of the streak record: it holds
    of the initial record, of every record reached from it by
    [updateStreakData] steps (first call, next day, gap, same day), hence
    again after one more step, and of the record [resetData] installs. *)
Theorem streak_invariant (sd : StreakData) :
  streakReachable Date_getTime sd →
  streakInv StatsManager.initialStreak
  ∧ streakInv sd
  ∧ (∀ today, streakInv (updateStreakData sd today))
  ∧ (∀ m save_ok,
       StatsManager.streakData (StatsManager.resetData m save_ok).1
       = StatsManager.initialStreak
       ∧ streakInv
           (StatsManager.streakData (StatsManager.resetData m save_ok).1)).
Proof.
  intros Hreach. unfold streakInv. split; [done|]. split; [|split].
  - by apply streakReachable_strong.
  - intros today.
    apply (streakReachable_strong (updateStreakData sd today)).
    by constructor.
  - done.
Qed.

(** C10.  When [lastDate] is set and [today] lies before it (a negative
    whole-day difference) the step leaves the record as it is, in the
    services version and in the single-file version alike, and an
    [updateWordCount] whose save succeeded returns normally with the streak
    untouched. *)
Theorem updateStreakData_backwards (sd : StreakData) (today : string) (d : Z) :
  lastDate sd ≠ "" →
  diffDays (lastDate sd) today = Some d →
  d < 0 →
  updateStreakData sd today = sd
  ∧ WordCountPlugin.updateStreakData Date_getTime sd today = sd
  ∧ ∀ m now fileName r,
      StatsManager.streakData m = sd →
      let res := StatsManager.updateWordCount Date_getTime m today now
                   fileName r true in
      StatsManager.streakData res.1 = sd ∧ res.2 = Returned.
Proof.
  intros Hne Hd Hneg.
  assert (Hs : updateStreakData sd today = sd).
  { unfold StatsManager.updateStreakData. rewrite Hd.
    destruct (decide (lastDate sd = "")); [done|].
    destruct (Z.eqb_spec d 1); [lia|].
    destruct (Z.ltb_spec 1 d); [lia|done]. }
  split; [done|]. split.
  - unfold WordCountPlugin.updateStreakData.
    unfold StatsManager.diffDays in Hd.
    destruct (decide (lastDate sd = "")); [done|].
    destruct (Date_getTime (VStr (lastDate sd))) as [t1|]; [|done].
    destruct (Date_getTime (VStr today)) as [t2|]; [|done].
    injection Hd as <-.
    destruct (Z.eqb_spec (dayDifference t1 t2) 1); [lia|].
    destruct (Z.ltb_spec 1 (dayDifference t1 t2)); [lia|done].
  - intros m now fileName r <-. cbn. by rewrite Hs.
Qed.

End Streak.

(** * Loading and the settings update *)

Section Loading.

Variable Date_getTime : jsval → option Z.
Variable LocalTZA : Z → bool → Z.

Local Abbreviation thirtyDaysAgo := (StatsManager.thirtyDaysAgo LocalTZA).
Local Abbreviation filteredData :=
  (StatsManager.filteredData Date_getTime LocalTZA).
Local Abbreviation loadData := (StatsManager.loadData Date_getTime LocalTZA).


Lemma validateItem_obj fields :
  StatsManager.validateItem (VObj fields)
  = Some {|
      StatsManager.v_date := js_or (StatsManager.field fields "date") (VStr "");
      StatsManager.v_chinese :=
        js_or (StatsManager.field fields "chinese") (VNum 0);
      StatsManager.v_english :=
        js_or (StatsManager.field fields "english") (VNum 0);
      StatsManager.v_punctuation :=
        js_or (StatsManager.field fields "punctuation") (VNum 0);
      StatsManager.v_numbers :=
        js_or (StatsManager.field fields "numbers") (VNum 0);
      StatsManager.v_spaces :=
        js_or (StatsManager.field fields "spaces") (VNum 0);
      StatsManager.v_words := js_or (StatsManager.field fields "words") (VNum 0);
      StatsManager.v_total := js_or (StatsManager.field fields "total") (VNum 0);
      StatsManager.v_goal := 0;
      StatsManager.v_completed :=
        js_or (StatsManager.field fields "completed") (VBool false);
      StatsManager.v_charChanges :=
        js_or (StatsManager.field fields "charChanges") (VArr []) |}.
Proof. done. Qed.


Lemma Map_of_lookup (typed : list DailyStats) k d :
  StatsManager.Map_of typed !! k = Some d → d ∈ typed ∧ date d = k.
Proof.
  unfold StatsManager.Map_of.
  induction typed as [|x typed IH] using rev_ind;
    [cbn [foldl]; by rewrite lookup_empty|].
  rewrite foldl_app. cbn [foldl]. rewrite lookup_insert.
  case_decide as Hk.
  - intros [= <-]. split; [|done]. apply elem_of_app. right. by left.
  - intros H. destruct (IH H) as [Hin Hd]. split; [|done].
    apply elem_of_app. by left.
Qed.



End Loading.


(** The counterexample to C9 as stated: a day record loaded with
    [total = 5] and [completed = false] has [completed = true] after a
    settings update. *)
Lemma updateSettings_rewrites_completed :
  ∃ m d,
    StatsManager.loadData IsoDate.getTime Zone.utc
      (StatsManager.new defaultSettings) sampleNow staleStore
    = StatsManager.Loaded m
    ∧ StatsManager.dailyStats m !! "2024-01-01" = Some d
    ∧ completed d = false
    ∧ completed <$>
        StatsManager.dailyStats (StatsManager.updateSettings m defaultSettings)
          !! "2024-01-01" = Some true
    ∧ StatsManager.dailyStats (StatsManager.updateSettings m defaultSettings)
        !! "2024-01-01" ≠ Some d.
Proof.
  eexists _, _. split; [vm_compute; reflexivity|].
  split; [vm_compute; reflexivity|].
  split; [reflexivity|]. split; [vm_compute; reflexivity|].
  vm_compute. discriminate.
Qed.

(** C9 (as the code has it).  A settings update keeps the days of the map
    and, on every day record, the date, the six counters, the total and the
    change log: nothing is recomputed from text.  It does assign [goal := 0]
    and [completed := total > 0], so a record stays the same in all fields
    exactly when it already had those two values, as every record built by
    [updateWordCount] from an empty or an already refreshed record has. *)
Theorem updateSettings_frame (m : StatsManager.t) (s : WordCountSettings)
    (k : string) :
  (StatsManager.dailyStats (StatsManager.updateSettings m s) !! k = None
   ↔ StatsManager.dailyStats m !! k = None)
  ∧ ∀ d, StatsManager.dailyStats m !! k = Some d →
      ∃ d', StatsManager.dailyStats (StatsManager.updateSettings m s) !! k
            = Some d'
        ∧ date d' = date d ∧ chinese d' = chinese d ∧ english d' = english d
        ∧ punctuation d' = punctuation d ∧ numbers d' = numbers d
        ∧ spaces d' = spaces d ∧ words d' = words d ∧ total d' = total d
        ∧ charChanges d' = charChanges d
        ∧ goal d' = 0 ∧ completed d' = (0 <? total d)
        ∧ (d' = d ↔ goal d = 0 ∧ completed d = (0 <? total d))
        ∧ ∀ s' now fileName r,
            goal d = 0 →
            StatsManager.refreshStats
              (StatsManager.updatedStats s' d now fileName r)
            = StatsManager.updatedStats s' d now fileName r.
Proof.
  cbn [StatsManager.updateSettings StatsManager.dailyStats].
  rewrite lookup_fmap. split.
  - by rewrite fmap_None.
  - intros d ->. eexists. split; [reflexivity|].
    cbn. split_and!; try done.
    + split.
      * by intros <-.
      * intros [Hg Hc]. destruct d; cbn in *. by subst.
    + intros s' now fileName r Hg.
      unfold StatsManager.refreshStats, StatsManager.updatedStats.
      cbn [date chinese english punctuation numbers spaces words total goal
           completed charChanges].
      by rewrite Hg.
Qed.

(** * Facts about the matcher *)

Section MatcherFacts.
Import Js.

Context {R : Type} (re : RegExp).

Implicit Types (r : regex) (s : list Z) (c : captures) (prev : option Z).
Implicit Types (k : option Z → list Z → captures → option R).

Lemma iterate_None (m1 : matcher R) lo hi greedy k fuel :
  failsWith m1 →
  ∀ n prev s c,
    (∀ p' s' c', s' `suffix_of` s → k p' s' c' = None) →
    iterate m1 lo hi greedy k fuel n prev s c = None.
Proof.
  intros Hm1. induction fuel as [|fuel IH]; intros n prev s c Hk.
  - cbn. rewrite Hk by done. by destruct greedy, (lo <=? n)%nat.
  - cbn [iterate]. rewrite Hk by done.
    assert (Hmore : (if below n hi
                     then m1 prev s c
                            (λ p' s' c',
                               if (length s' <? length s)%nat
                               then iterate m1 lo hi greedy k fuel (S n) p' s' c'
                               else None)
                     else None) = None).
    { destruct (below n hi); [|done]. apply Hm1.
      intros p' s' c' Hsuf. destruct (length s' <? length s)%nat; [|done].
      apply IH. intros p'' s'' c'' Hsuf'. apply Hk. by etrans. }
    rewrite Hmore. by destruct greedy, (lo <=? n)%nat.
Qed.

Lemma rmatch_None r : failsWith (R := R) (rmatch re r).
Proof.
  induction r as [|cls| | |r1 IH1 r2 IH2|n r1 IH1|lo hi greedy r1 IH1];
    intros prev s c k Hk; cbn [rmatch].
  - by apply Hk.
  - destruct s as [|x s']; [done|].
    destruct (matchesClass re cls x); [|done].
    apply Hk. by apply suffix_cons_r.
  - destruct (atStart re prev); [|done]. by apply Hk.
  - destruct (atEnd re s); [|done]. by apply Hk.
  - apply IH1. intros p' s' c' Hsuf. apply IH2.
    intros p'' s'' c'' Hsuf'. apply Hk. by etrans.
  - apply IH1. intros p' s' c' Hsuf. by apply Hk.
  - by apply iterate_None.
Qed.

Lemma rmatch_requires (P : Z → Prop) r :
  requires re P r →
  ∀ prev s c k, Forall (λ x, ¬ P x) s → rmatch re r prev s c k = None.
Proof.
  induction 1 as [cls Hcls|r1 r2 _ IH|r1 r2 _ IH|n r _ IH|lo hi greedy r Hlo _ IH];
    intros prev s c k Hs; cbn [rmatch].
  - destruct s as [|x s']; [done|].
    destruct (matchesClass re cls x) eqn:Hx; [|done].
    apply Forall_cons in Hs as [Hnx _]. destruct Hnx. by apply Hcls.
  - by apply IH.
  - apply rmatch_None. intros p' s' c' [pre ->]. apply IH.
    by apply Forall_app in Hs as [_ ?].
  - by apply IH.
  - destruct (length s) as [|fuel]; cbn [iterate].
    + destruct lo; [lia|]. by destruct greedy.
    + rewrite IH by done. destruct lo; [lia|]. cbn.
      by destruct greedy, (below 0 hi).
Qed.

End MatcherFacts.

Section ReplaceFacts.
Import Js.

Lemma replaceFrom_no_match re repl s :
  (∀ prev t, t `suffix_of` s → exec re prev t = None) →
  ∀ prev, replaceFrom re repl 0 prev s = s.
Proof.
  induction s as [|x s IH]; intros Hno prev; cbn [replaceFrom].
  - by rewrite Hno.
  - rewrite Hno by done. f_equal. apply IH.
    intros p t Ht. apply Hno. by apply suffix_cons_r.
Qed.

(** A text without any code unit that the pattern needs is left alone. *)
Lemma replace_requires (P : Z → Prop) re repl s :
  requires re P (source re) →
  Forall (λ x, ¬ P x) s →
  replace re repl s = s.
Proof.
  intros Hreq Hs. apply replaceFrom_no_match.
  intros prev t [pre ->]. unfold exec.
  eapply rmatch_requires; [done|]. by apply Forall_app in Hs as [_ ?].
Qed.

End ReplaceFacts.

Section ListFacts.
Import Js.

Lemma takeWhile_dropWhile {A} (p : A → bool) (l : list A) :
  takeWhile p l ++ dropWhile p l = l.
Proof. induction l as [|x l IH]; cbn; [done|]. destruct (p x); cbn; by f_equal. Qed.

Lemma takeWhile_Forall {A} (p : A → bool) (l : list A) :
  Forall (λ x, p x = true) (takeWhile p l).
Proof.
  induction l as [|x l IH]; cbn; [done|].
  destruct (p x) eqn:Hx; by constructor.
Qed.

Lemma dropWhile_head {A} (p : A → bool) (l : list A) :
  from_option p false (head (dropWhile p l)) = false.
Proof. induction l as [|x l IH]; cbn; [done|]. by destruct (p x) eqn:Hx; cbn. Qed.


Lemma length_takeWhile_dropWhile {A} (p : A → bool) (l : list A) :
  (length (takeWhile p l) + length (dropWhile p l) = length l)%nat.
Proof. by rewrite <- length_app, takeWhile_dropWhile. Qed.

Lemma dropWhile_ext {A} (p q : A → bool) (l : list A) :
  (∀ x, p x = q x) → dropWhile p l = dropWhile q l.
Proof.
  intros Hpq. induction l as [|x l IH]; cbn; [done|].
  rewrite Hpq. by destruct (q x).
Qed.

End ListFacts.

Section RunFacts.
Import Js.

Context {R : Type} (re : RegExp).

Lemma lastOr_cons prev x c : lastOr (Some x) c = lastOr prev (x :: c).
Proof.
  unfold lastOr. rewrite last_cons. by destruct (last c).
Qed.

Lemma rmatch_Chars_cons cls prev x s c
    (k : option Z → list Z → captures → option R) :
  rmatch re (Chars cls) prev (x :: s) c k
  = if matchesClass re cls x then k (Some x) s c else None.
Proof. done. Qed.

Lemma rmatch_Chars_head cls prev s c
    (k : option Z → list Z → captures → option R) :
  from_option (matchesClass re cls) false (head s) = false →
  rmatch re (Chars cls) prev s c k = None.
Proof. destruct s as [|x s]; [done|]. cbn. by intros ->. Qed.

(** A greedy unbounded repetition of a class runs through all of [c] when
    the code unit after it is outside the class, and is done when the
    continuation accepts there. *)
Lemma iterate_greedy_run cls lo
    (k : option Z → list Z → captures → option R) c :
  ∀ fuel n prev t cc v,
    Forall (λ x, matchesClass re cls x = true) c →
    from_option (matchesClass re cls) false (head t) = false →
    (lo ≤ n + length c)%nat →
    (length (c ++ t) ≤ fuel)%nat →
    k (lastOr prev c) t cc = Some v →
    iterate (rmatch re (Chars cls)) lo None true k fuel n prev (c ++ t) cc
    = Some v.
Proof.
  induction c as [|x c IH]; intros fuel n prev t cc v Hc Ht Hlo Hfuel Hk.
  - assert (Hle : (lo <=? n)%nat = true) by (apply Nat.leb_le; cbn in Hlo; lia).
    cbn in Hk. cbn [app].
    destruct fuel as [|fuel]; cbn [iterate below]; rewrite Hle, Hk; [done|].
    by rewrite rmatch_Chars_head.
  - apply Forall_cons in Hc as [Hx Hc].
    destruct fuel as [|fuel]; [cbn in Hfuel; lia|].
    cbn [iterate below app]. rewrite rmatch_Chars_cons, Hx.
    replace (length (c ++ t) <? length (x :: c ++ t))%nat with true
      by (symmetry; apply Nat.ltb_lt; cbn; lia).
    rewrite (IH fuel (S n) (Some x) t cc v); try done.
    + cbn in Hlo. lia.
    + cbn in Hfuel. lia.
    + by rewrite lastOr_cons with (prev := prev).
Qed.

(** A lazy unbounded repetition of a class runs through [c] when the
    continuation rejects every position inside [c], and is done when it
    accepts after [c]. *)
Lemma iterate_lazy_run cls lo
    (k : option Z → list Z → captures → option R) c :
  ∀ fuel n prev t cc v,
    Forall (λ x, matchesClass re cls x = true) c →
    (∀ c1 y c2 p, c = c1 ++ y :: c2 → k p (y :: c2 ++ t) cc = None) →
    (lo ≤ n)%nat →
    (length (c ++ t) ≤ fuel)%nat →
    k (lastOr prev c) t cc = Some v →
    iterate (rmatch re (Chars cls)) lo None false k fuel n prev (c ++ t) cc
    = Some v.
Proof.
  induction c as [|x c IH]; intros fuel n prev t cc v Hc Hrej Hlo Hfuel Hk.
  - assert (Hle : (lo <=? n)%nat = true) by (apply Nat.leb_le; lia).
    cbn in Hk. cbn [app].
    destruct fuel; cbn [iterate]; by rewrite Hle, Hk.
  - assert (Hle : (lo <=? n)%nat = true) by (apply Nat.leb_le; lia).
    apply Forall_cons in Hc as [Hx Hc].
    destruct fuel as [|fuel]; [cbn in Hfuel; lia|].
    cbn [iterate below app]. rewrite Hle.
    rewrite (Hrej [] x c prev) by done.
    rewrite rmatch_Chars_cons, Hx.
    replace (length (c ++ t) <? length (x :: c ++ t))%nat with true
      by (symmetry; apply Nat.ltb_lt; cbn; lia).
    apply IH; try done.
    + intros c1 y c2 p ->. by apply (Hrej (x :: c1) y c2 p).
    + lia.
    + cbn in Hfuel. lia.
    + by rewrite lastOr_cons with (prev := prev).
Qed.

(** The same with the run read off the input. *)
Lemma iterate_greedy_split cls lo
    (k : option Z → list Z → captures → option R) fuel prev s cc v :
  let c := takeWhile (matchesClass re cls) s in
  let t := dropWhile (matchesClass re cls) s in
  (lo ≤ length c)%nat →
  (length s ≤ fuel)%nat →
  k (lastOr prev c) t cc = Some v →
  iterate (rmatch re (Chars cls)) lo None true k fuel 0 prev s cc = Some v.
Proof.
  intros c t Hlo Hfuel Hk.
  pose proof (iterate_greedy_run cls lo k c fuel 0 prev t cc v) as H.
  unfold c, t in H. rewrite takeWhile_dropWhile in H. apply H; try done.
  - apply takeWhile_Forall.
  - apply dropWhile_head.
Qed.

Lemma rmatch_Seq r1 r2 prev s c
    (k : option Z → list Z → captures → option R) :
  rmatch re (Seq r1 r2) prev s c k
  = rmatch re r1 prev s c (λ p' s' c', rmatch re r2 p' s' c' k).
Proof. done. Qed.

Lemma rmatch_Repeat lo hi greedy r1 prev s c
    (k : option Z → list Z → captures → option R) :
  rmatch re (Repeat lo hi greedy r1) prev s c k
  = iterate (rmatch re r1) lo hi greedy k (length s) 0 prev s c.
Proof. done. Qed.

End RunFacts.

Section SkipFacts.
Import Js.

(** Passing over a whole match that reaches the end of the text. *)
Lemma replaceFrom_skip_all re repl s :
  (∀ prev, exec re prev [] = None) →
  ∀ prev, replaceFrom re repl (length s) prev s = [].
Proof.
  intros Hend. induction s as [|x s IH]; intros prev; cbn [replaceFrom length].
  - by rewrite Hend.
  - apply IH.
Qed.

End SkipFacts.

(** * The classifier on a run of letters *)

Section ClassifierWords.
Import Js TextAnalyzer.

(** Decide integer comparisons that occur under boolean connectives. *)
Local Ltac cases_cmp :=
  repeat match goal with
         | |- context [Js.ch ?a] =>
             let v := eval vm_compute in (Js.ch a) in change (Js.ch a) with v
         | H : context [Js.ch ?a] |- _ =>
             let v := eval vm_compute in (Js.ch a) in
             change (Js.ch a) with v in H
         end;
  repeat match goal with
         | |- context [(?a <=? ?b)%Z] => destruct (Z.leb_spec a b)
         | |- context [(?a =? ?b)%Z] => destruct (Z.eqb_spec a b)
         | H : context [(?a <=? ?b)%Z] |- _ => destruct (Z.leb_spec a b)
         | H : context [(?a =? ?b)%Z] |- _ => destruct (Z.eqb_spec a b)
         end;
  cbn in *; try done; try lia.

Lemma testChar_class cls x :
  testChar (REGEX_PATTERNS.plain (Chars cls)) x = inClass cls x.
Proof.
  unfold testChar, test. cbn [testFrom]. unfold exec at 1.
  cbn [source REGEX_PATTERNS.plain]. rewrite rmatch_Chars_cons.
  unfold matchesClass. cbn [ignoreCase REGEX_PATTERNS.plain].
  by destruct (inClass cls x).
Qed.

Lemma testChar_ENGLISH x : testChar REGEX_PATTERNS.ENGLISH x = isLetter x.
Proof.
  unfold REGEX_PATTERNS.ENGLISH, set. rewrite testChar_class.
  unfold inClass, isLetter. cbn. by rewrite orb_false_r.
Qed.

Lemma testChar_NUMBERS_letter x :
  isLetter x = true →
  testChar REGEX_PATTERNS.NUMBERS x = false
  ∧ testChar REGEX_PATTERNS.FULL_WIDTH_NUMBERS x = false.
Proof.
  unfold REGEX_PATTERNS.NUMBERS, REGEX_PATTERNS.FULL_WIDTH_NUMBERS, set.
  rewrite !testChar_class. unfold inClass, isLetter. cbn.
  intros Hx. split; cases_cmp.
Qed.

(** *** The Roman-numeral pattern *)

(** The two sides agree on the code units from [A] to [z], by running them;
    outside that range case folding does nothing and no letter matches. *)
Lemma matchesClass_roman x :
  matchesClass REGEX_PATTERNS.ROMAN_NUMERALS romanClass x = isRomanLetter x.
Proof.
  destruct (decide (65 ≤ x ≤ 122)) as [Hin|Hout].
  - assert (Hall : forallb
              (λ k, Bool.eqb
                      (matchesClass REGEX_PATTERNS.ROMAN_NUMERALS romanClass
                         (65 + Z.of_nat k))
                      (isRomanLetter (65 + Z.of_nat k)))
              (List.seq 0 58) = true) by (vm_compute; reflexivity).
    rewrite forallb_forall in Hall.
    specialize (Hall (Z.to_nat (x - 65))).
    replace (65 + Z.of_nat (Z.to_nat (x - 65))) with x in Hall by lia.
    apply Bool.eqb_prop, Hall, in_seq. lia.
  - assert (Hup : asciiUpper x = x ∨ asciiUpper x < 65).
    { unfold asciiUpper. destruct (Z.leb_spec 97 x), (Z.leb_spec x 122);
        cbn; lia. }
    assert (Hlow : asciiLower x = x ∨ 122 < asciiLower x).
    { unfold asciiLower. destruct (Z.leb_spec 65 x), (Z.leb_spec x 90);
        cbn; lia. }
    assert (Hno : ∀ y, ¬ (65 ≤ y ≤ 122) → inClass romanClass y = false).
    { intros y Hy. unfold inClass. cbn.
      repeat match goal with
             | |- context [ch ?a] =>
                 let v := eval vm_compute in (ch a) in change (ch a) with v
             end.
      repeat match goal with
             | |- context [(y =? ?c)%Z] =>
                 rewrite (proj2 (Z.eqb_neq y c)) by lia
             end.
      reflexivity. }
    unfold matchesClass, isRomanLetter.
    cbn [ignoreCase REGEX_PATTERNS.ROMAN_NUMERALS].
    rewrite (Hno x) by lia.
    rewrite (Hno (asciiUpper x)) by (destruct Hup as [->|?]; lia).
    rewrite (Hno (asciiLower x)) by (destruct Hlow as [->|?]; lia).
    rewrite bool_decide_eq_false_2; [done|].
    let l := eval vm_compute in (str "IVXLCDMivxlcdm") in
    change (str "IVXLCDMivxlcdm") with l.
    rewrite !elem_of_cons, elem_of_nil. lia.
Qed.

Lemma romanEnd_cons p x s c : romanEnd p (x :: s) c = None.
Proof. done. Qed.

Lemma exec_ROMAN prev s :
  exec REGEX_PATTERNS.ROMAN_NUMERALS prev s
  = if atStart REGEX_PATTERNS.ROMAN_NUMERALS prev
    then iterate (rmatch REGEX_PATTERNS.ROMAN_NUMERALS (Chars romanClass))
           1 None true romanEnd (length s) 0 prev s []
    else None.
Proof.
  unfold exec.
  change (source REGEX_PATTERNS.ROMAN_NUMERALS)
    with (Seq Start (Seq (plus (Chars romanClass)) (seq [End_]))).
  rewrite rmatch_Seq. cbn [rmatch].
  destruct (atStart REGEX_PATTERNS.ROMAN_NUMERALS prev); [|done].
  reflexivity.
Qed.

(** With a letter outside the class somewhere in the input, the repetition
    never gets to the end of the input. *)
Lemma iterate_roman_stuck fuel :
  ∀ s n prev c,
    forallb isRomanLetter s = false →
    iterate (rmatch REGEX_PATTERNS.ROMAN_NUMERALS (Chars romanClass))
      1 None true romanEnd fuel n prev s c = None.
Proof.
  induction fuel as [|fuel IH]; intros s n prev c Hs;
    (destruct s as [|x s]; [done|]); cbn [iterate below].
  - rewrite romanEnd_cons. by destruct (1 <=? n)%nat.
  - rewrite rmatch_Chars_cons, matchesClass_roman, romanEnd_cons.
    cbn in Hs. destruct (isRomanLetter x); cbn in Hs.
    + replace (length s <? length (x :: s))%nat with true
        by (symmetry; apply Nat.ltb_lt; cbn; lia).
      rewrite IH by done. by destruct (1 <=? n)%nat.
    + by destruct (1 <=? n)%nat.
Qed.

Lemma testFrom_ROMAN_later p s :
  testFrom REGEX_PATTERNS.ROMAN_NUMERALS (Some p) s = false.
Proof.
  revert p. induction s as [|x s IH]; intros p; cbn [testFrom];
    rewrite exec_ROMAN; cbn [atStart multiline REGEX_PATTERNS.ROMAN_NUMERALS andb];
    [done|apply IH].
Qed.

(** [ROMAN_NUMERALS.test(w)]: [w] is a non-empty run of the seven letters. *)
Lemma test_ROMAN w :
  test REGEX_PATTERNS.ROMAN_NUMERALS w
  = negb (bool_decide (w = [])) && forallb isRomanLetter w.
Proof.
  unfold test. destruct w as [|x w]; [done|].
  cbn [testFrom negb andb]. rewrite bool_decide_eq_false_2 by done.
  cbn [negb andb]. rewrite exec_ROMAN. cbn [atStart].
  destruct (forallb isRomanLetter (x :: w)) eqn:Hw.
  - pose proof (iterate_greedy_run REGEX_PATTERNS.ROMAN_NUMERALS romanClass 1
                  romanEnd (x :: w) (length (x :: w)) 0 None [] []
                  ([], [])) as Hrun.
    rewrite app_nil_r in Hrun. rewrite Hrun; try done.
    + apply Forall_forall. intros y Hy. rewrite matchesClass_roman.
      rewrite forallb_forall in Hw. apply Hw. by apply list_elem_of_In.
    + cbn. lia.
  - rewrite iterate_roman_stuck by done. apply testFrom_ROMAN_later.
Qed.

Lemma test_reSingleLetter x :
  isLetter x = true → test reSingleLetter [x] = true.
Proof.
  intros Hx. unfold test. cbn [testFrom]. unfold exec.
  change (source reSingleLetter)
    with (Seq Start
            (Seq (set [Range (ch "a") (ch "z"); Range (ch "A") (ch "Z")])
               (seq [End_]))).
  rewrite rmatch_Seq. cbn [rmatch atStart]. unfold set.
  rewrite rmatch_Chars_cons.
  replace (matchesClass reSingleLetter _ x) with true; [done|].
  symmetry. unfold matchesClass, inClass. cbn.
  unfold isLetter in Hx. by rewrite orb_false_r.
Qed.

Lemma runEnd_run w post j :
  forallb isLetter w = true →
  from_option isLetter false (head post) = false →
  runEnd (w ++ post) j = (j + length w)%nat.
Proof.
  revert j. induction w as [|x w IH]; intros j Hw Hpost; cbn [app length].
  - rewrite Nat.add_0_r. destruct post as [|y post]; [done|].
    cbn in Hpost. cbn [runEnd]. by rewrite testChar_ENGLISH, Hpost.
  - cbn in Hw. apply andb_true_iff in Hw as [Hx Hw].
    cbn [runEnd]. rewrite testChar_ENGLISH, Hx, IH by done. lia.
Qed.

Lemma substring_middle (pre w post : list Z) :
  substring (pre ++ w ++ post) (length pre) (length pre + length w) = w.
Proof.
  unfold substring.
  rewrite Nat.min_l, Nat.max_r by lia.
  rewrite drop_app_length.
  replace (length pre + length w - length pre)%nat with (length w) by lia.
  by rewrite take_app_length.
Qed.

Lemma lookup_last (pre rest : list Z) :
  pre ≠ [] → (pre ++ rest) !! (length pre - 1)%nat = last pre.
Proof.
  intros Hne. destruct (exists_last Hne) as (pre' & z & ->).
  rewrite last_snoc, length_app. cbn [length].
  replace (length pre' + 1 - 1)%nat with (length pre') by lia.
  rewrite <- app_assoc. apply list_lookup_middle. done.
Qed.

(** Where the loop meets a maximal run of letters, it adds what [countRun]
    says and goes on behind the run. *)
Lemma countLoop_run (s : WordCountSettings) (text pre w post : list Z)
    (fuel : nat) (acc : TextAnalysisResult) :
  trackEnglish s = true →
  text = pre ++ w ++ post →
  w ≠ [] →
  forallb isLetter w = true →
  from_option isLetter false (last pre) = false →
  from_option isLetter false (head post) = false →
  countLoop s text (S fuel) (length pre) acc
  = countLoop s text fuel (length pre + length w) (countRun s acc w).
Proof.
  intros Hen Htext Hne Hw Hpre Hpost. destruct w as [|x w]; [done|].
  assert (Hx : isLetter x = true).
  { cbn in Hw. by apply andb_true_iff in Hw as [? _]. }
  assert (Hi : text !! length pre = Some x).
  { rewrite Htext. cbn [app]. apply list_lookup_middle. done. }
  cbn [countLoop]. rewrite Hi.
  destruct (testChar_NUMBERS_letter x Hx) as [Hn1 Hn2].
  unfold countBody. rewrite Hn1, Hn2, Hen, testChar_ENGLISH, Hx.
  rewrite andb_false_r. cbn [andb orb].
  assert (Hfirst :
    bool_decide (length pre = 0%nat)
    || negb (from_option (testChar REGEX_PATTERNS.ENGLISH) false
               (text !! (length pre - 1)%nat)) = true).
  { destruct pre as [|p pre']; [done|].
    rewrite Htext, lookup_last by done.
    destruct (last (p :: pre')) as [z|]; cbn [from_option negb] in *.
    - by rewrite testChar_ENGLISH, Hpre, orb_true_r.
    - by rewrite orb_true_r. }
  rewrite Hfirst.
  assert (Hdrop : drop (length pre) text = (x :: w) ++ post).
  { by rewrite Htext, drop_app_length. }
  rewrite Hdrop, runEnd_run by done.
  assert (Hword : substring text (length pre) (length pre + length (x :: w))
                  = x :: w) by (rewrite Htext; apply substring_middle).
  rewrite !Hword, test_ROMAN.
  rewrite (bool_decide_eq_false_2 (x :: w = [])) by done.
  cbn [negb andb].
  replace (S (length pre + length (x :: w) - 1))
    with (length pre + length (x :: w))%nat by (cbn; lia).
  f_equal. unfold countRun, addLetters.
  destruct w as [|y w].
  - cbn [length]. change (1 <? 1)%nat with false.
    rewrite andb_false_r, !bool_decide_eq_true_2 by done.
    rewrite test_reSingleLetter by done. cbn [andb].
    f_equal. lia.
  - rewrite !bool_decide_eq_false_2 by (cbn; lia).
    replace (1 <? length (x :: y :: w))%nat with true
      by (symmetry; apply Nat.ltb_lt; cbn; lia).
    rewrite andb_true_r. cbn [andb].
    destruct (forallb isRomanLetter (x :: y :: w)); cbn [negb]; [done|].
    f_equal. by destruct (showWordCount s); lia.
Qed.

(** The classifier on a text that is one run of letters. *)
Lemma countCharacters_word (s : WordCountSettings) (w : list Z) :
  trackEnglish s = true →
  w ≠ [] →
  forallb isLetter w = true →
  countCharacters s w = Some (countRun s zeroCounts w).
Proof.
  intros Hen Hne Hw. unfold countCharacters.
  destruct (length w) as [|fuel] eqn:Hlen; [by destruct w|].
  pose proof (countLoop_run s w [] w [] fuel zeroCounts Hen) as Hrun.
  cbn [length Nat.add app] in Hrun. rewrite Hrun; try done.
  - assert (Hnone : w !! length w = None) by (by apply lookup_ge_None).
    destruct fuel; cbn [countLoop]; by rewrite Hnone.
  - by rewrite app_nil_r.
Qed.

(** C2.  With alphabetic tracking and word counting on, whatever the other
    toggles: the text III is counted in no category (no letters, no word),
    abc counts three letters and one word, and the single letter a counts
    one letter and no word.  In general, wherever the loop meets a maximal
    run of letters it adds, and then goes on behind the run: one letter and
    no word for a single letter; nothing for a longer run made of the letters
    I V X L C D M only, in either case; the letters and one word for any
    other longer run. *)
Theorem countCharacters_roman_word_letter (s : WordCountSettings) :
  trackEnglish s = true →
  showWordCount s = true →
  countCharacters s (str "III") = Some (lettersAndWords 0 0)
  ∧ countCharacters s (str "abc") = Some (lettersAndWords 3 1)
  ∧ countCharacters s (str "a") = Some (lettersAndWords 1 0)
  ∧ (∀ text pre w post fuel acc,
       text = pre ++ w ++ post →
       w ≠ [] →
       forallb isLetter w = true →
       from_option isLetter false (last pre) = false →
       from_option isLetter false (head post) = false →
       countLoop s text (S fuel) (length pre) acc
       = countLoop s text fuel (length pre + length w) (countRun s acc w))
  ∧ (∀ acc w,
       (length w = 1%nat → countRun s acc w = addLetters acc 1 0)
       ∧ ((1 < length w)%nat → forallb isRomanLetter w = true →
            countRun s acc w = acc)
       ∧ ((1 < length w)%nat → forallb isRomanLetter w = false →
            countRun s acc w = addLetters acc (Z.of_nat (length w)) 1)).
Proof.
  intros Hen Hsw. split_and!.
  - rewrite (countCharacters_word s (str "III") Hen) by done. reflexivity.
  - rewrite (countCharacters_word s (str "abc") Hen) by done.
    unfold countRun. rewrite Hsw. reflexivity.
  - rewrite (countCharacters_word s (str "a") Hen) by done. reflexivity.
  - intros text pre w post fuel acc Htext Hne Hw Hpre Hpost.
    by apply (countLoop_run s text pre w post).
  - intros acc w. unfold countRun. rewrite Hsw. split_and!.
    + intros H1. by rewrite bool_decide_eq_true_2.
    + intros H1 ->. by rewrite bool_decide_eq_false_2 by lia.
    + intros H1 ->. by rewrite bool_decide_eq_false_2 by lia.
Qed.

End ClassifierWords.

(** * The classifier and the strippers *)

Section ClassifierExamples.
Import Js TextAnalyzer.


(** The counterexample to C7 as stated: the regex stripper deletes inline
    code and fenced code with their content, and the state-machine stripper
    hands the content to its white-space clean-up. *)
Lemma preprocessText_drops_code :
  preprocessText (str "`a`") = []
  ∧ preprocessText (str "```a```") = []
  ∧ WordCountPlugin.preprocessText 7 (str "`a  b`") = Some (str "a b").
Proof. vm_compute. split_and!; done. Qed.

(** The worked example of the design notes, through the regex stripper and
    the classifier with the default settings: fifteen letters, three digits,
    three words, and six punctuation marks (the four asterisks stay). *)
Example analyzeText_heading_example :
  analyzeText defaultSettings
    ([35; 32] ++ str "Title" ++ [10; 10] ++ str "Hello **world**, 123!" ++ [10])
  = Some {| r_chinese := 0; r_english := 15; r_punctuation := 6;
            r_numbers := 3; r_spaces := 0; r_words := 3 |}.
Proof. vm_compute. reflexivity. Qed.

(** Without the [u] flag the tail of the [CHINESE] class reads as ASCII
    characters, so the class also holds the code units from [0] to [U]. *)
Example CHINESE_holds_ascii :
  testChar REGEX_PATTERNS.CHINESE (ch "A") = true
  ∧ testChar REGEX_PATTERNS.CHINESE (ch "V") = false
  ∧ testChar REGEX_PATTERNS.CHINESE 0x4e2d = true.
Proof. vm_compute. split_and!; done. Qed.

End ClassifierExamples.

(** ** The regex stripper on text without markup characters *)

Section PlainText.
Import Js TextAnalyzer.




Lemma exec_reSpaces prev s :
  exec reSpaces prev s
  = match s with
    | x :: s' => if isSpace x then Some (dropWhile isSpace s', []) else None
    | [] => None
    end.
Proof.
  unfold exec.
  change (source reSpaces) with (Seq (plus ws) Empty).
  unfold plus, ws, set. rewrite rmatch_Seq, rmatch_Repeat.
  destruct s as [|x s']; [done|].
  assert (Hcls : ∀ y, matchesClass reSpaces
                        {| negated := false; items := [Space] |} y
                      = isSpace y).
  { intros y. unfold matchesClass, inClass. cbn. by rewrite orb_false_r. }
  destruct (isSpace x) eqn:Hx.
  - apply iterate_greedy_split; [| done |].
    + cbn [takeWhile]. rewrite Hcls, Hx. cbn. lia.
    + cbn [takeWhile dropWhile]. rewrite Hcls, Hx. cbn [rmatch].
      do 2 f_equal. by apply dropWhile_ext.
  - cbn [length iterate below]. rewrite rmatch_Chars_cons, Hcls, Hx. done.
Qed.

(** The white-space step is [collapse]. *)
Lemma replaceFrom_reSpaces s :
  ∀ prev,
    replaceFrom reSpaces [RLit (str " ")] 0 prev s = collapseFrom false s
    ∧ replaceFrom reSpaces [RLit (str " ")] (length (takeWhile isSpace s)) prev s
      = collapseFrom true s.
Proof.
  induction s as [|x s IH]; intros prev.
  - cbn [replaceFrom takeWhile length]. by rewrite exec_reSpaces.
  - assert (Hfirst : replaceFrom reSpaces [RLit (str " ")] 0 prev (x :: s)
                     = collapseFrom false (x :: s)).
    { cbn [replaceFrom collapseFrom]. rewrite exec_reSpaces.
      destruct (isSpace x) eqn:Hx.
      - pose proof (length_takeWhile_dropWhile isSpace s) as Hlen.
        replace (length (x :: s) - length (dropWhile isSpace s))%nat
          with (S (length (takeWhile isSpace s))) by (cbn [length]; lia).
        cbn [expand fmap list_fmap mjoin list_join app].
        f_equal. apply IH.
      - f_equal. apply IH. }
    split; [done|].
    cbn [takeWhile]. destruct (isSpace x) eqn:Hx.
    + cbn [length replaceFrom collapseFrom]. rewrite Hx. apply IH.
    + cbn [length]. rewrite Hfirst. cbn [collapseFrom]. by rewrite Hx.
Qed.

Lemma replace_reSpaces s :
  replace reSpaces [RLit (str " ")] s = collapse s.
Proof. apply replaceFrom_reSpaces. Qed.


(** *** White-space normalisation is idempotent *)

Lemma tidy_weaken b s : tidy b s → tidy false s.
Proof.
  destruct s as [|x s]; [done|]. cbn.
  destruct (isSpace x); [|done]. by intros (Hx & _ & Hs).
Qed.

Lemma tidy_collapseFrom b x : tidy b (collapseFrom b x).
Proof.
  revert b. induction x as [|c x IH]; intros b; [done|].
  cbn [collapseFrom]. destruct (isSpace c) eqn:Hc.
  - destruct b; [apply IH|]. cbn. split_and!; [done..|apply IH].
  - cbn [tidy]. rewrite Hc. apply IH.
Qed.

Lemma collapseFrom_tidy b s : tidy b s → collapseFrom b s = s.
Proof.
  revert b. induction s as [|x s IH]; intros b; [done|].
  cbn [tidy collapseFrom]. destruct (isSpace x) eqn:Hx.
  - intros (-> & -> & Hs). f_equal. by apply IH.
  - intros Hs. f_equal. by apply IH.
Qed.

Lemma tidy_app_l b s t : tidy b (s ++ t) → tidy b s.
Proof.
  revert b. induction s as [|x s IH]; intros b; [done|].
  cbn [app tidy]. destruct (isSpace x); [|apply IH].
  intros (Hx & Hb & Hs). split_and!; [done..|by eapply IH].
Qed.

Lemma tidy_trimStart s : tidy false s → tidy false (trimStart s).
Proof.
  unfold trimStart. induction s as [|x s IH]; [done|].
  cbn [tidy dropWhile]. destruct (isSpace x) eqn:Hx.
  - intros (_ & _ & Hs). by eapply IH, tidy_weaken.
  - intros Hs. cbn [tidy]. by rewrite Hx.
Qed.

Lemma trimEnd_prefix s :
  s = trimEnd s ++ reverse (takeWhile isSpace (reverse s)).
Proof.
  unfold trimEnd. rewrite <- reverse_app, takeWhile_dropWhile.
  by rewrite reverse_involutive.
Qed.

Lemma tidy_trimEnd b s : tidy b s → tidy b (trimEnd s).
Proof. intros Hs. rewrite (trimEnd_prefix s) in Hs. by eapply tidy_app_l. Qed.

Lemma dropWhile_idemp {A} (p : A → bool) (l : list A) :
  dropWhile p (dropWhile p l) = dropWhile p l.
Proof.
  induction l as [|x l IH]; [done|]. cbn [dropWhile].
  destruct (p x) eqn:Hx; [done|]. cbn [dropWhile]. by rewrite Hx.
Qed.

Lemma dropWhile_id {A} (p : A → bool) (l : list A) :
  from_option p false (head l) = false → dropWhile p l = l.
Proof. destruct l as [|x l]; [done|]. cbn. by intros ->. Qed.

Lemma trimEnd_idemp s : trimEnd (trimEnd s) = trimEnd s.
Proof.
  unfold trimEnd. by rewrite reverse_involutive, dropWhile_idemp.
Qed.

Lemma trimEnd_head s :
  from_option isSpace false (head s) = false →
  from_option isSpace false (head (trimEnd s)) = false.
Proof.
  intros Hs. pose proof (trimEnd_prefix s) as Hp.
  destruct (trimEnd s) as [|y r]; [done|].
  rewrite Hp in Hs. done.
Qed.

Lemma trim_idemp s : trim (trim s) = trim s.
Proof.
  unfold trim, trimStart.
  rewrite (dropWhile_id isSpace (trimEnd (dropWhile isSpace s))).
  - apply trimEnd_idemp.
  - apply trimEnd_head, dropWhile_head.
Qed.




End PlainText.

(** ** Code in the regex stripper *)

Section RegexStripperCode.
Import Js TextAnalyzer.

Lemma rmatch_lit {R} re a prev s c
    (k : option Z → list Z → captures → option R) :
  ignoreCase re = false →
  rmatch re (lit a) prev s c k
  = match s with
    | x :: s' => if x =? ch a then k (Some x) s' c else None
    | [] => None
    end.
Proof.
  intros Hi. destruct s as [|x s']; [done|].
  unfold lit. rewrite rmatch_Chars_cons. unfold matchesClass, inClass.
  rewrite Hi. cbn. by rewrite orb_false_r.
Qed.

(** One backtick of the pattern against a backtick of the text. *)
Local Ltac tick_step :=
  rewrite rmatch_Seq, rmatch_lit by done;
  cbv beta iota; change (96 =? ch "`") with true; cbv beta iota.

Lemma replace_reFrontmatter_id s :
  Forall (λ x, x ≠ 45) s → replace reFrontmatter [] s = s.
Proof.
  intros Hs. apply (replace_requires (λ x, x = 45)); [|done].
  apply req_seq_r, req_seq_l, req_chars.
  intros x H. cbn in H. rewrite orb_false_r in H. by apply Z.eqb_eq in H.
Qed.

Lemma exec_reCodeBlock_fenced prev c rest :
  Forall (λ x, x ≠ 96) c →
  exec reCodeBlock prev (str "```" ++ c ++ str "```" ++ rest)
  = Some (rest, []).
Proof.
  intros Hc. unfold exec.
  change (source reCodeBlock)
    with (Seq (lit "`") (Seq (lit "`") (Seq (lit "`")
            (Seq (lazyStar anyChar)
               (seq [lit "`"; lit "`"; lit "`"]))))).
  change (str "```") with [96; 96; 96]. cbn [app].
  do 3 tick_step.
  unfold lazyStar, anyChar, set. rewrite rmatch_Seq, rmatch_Repeat.
  apply iterate_lazy_run.
  - apply Forall_forall. intros x _. unfold matchesClass, inClass. cbn.
    by destruct (isSpace x).
  - intros c1 y c2 p ->. apply Forall_app in Hc as [_ Hc].
    apply Forall_cons in Hc as [Hy _].
    cbn [seq foldr]. rewrite rmatch_Seq, rmatch_lit by done.
    by destruct (Z.eqb_spec y (ch "`")).
  - done.
  - done.
  - reflexivity.
Qed.

Lemma exec_reCodeBlock_other prev x s :
  x ≠ 96 → exec reCodeBlock prev (x :: s) = None.
Proof.
  intros Hx. unfold exec.
  change (source reCodeBlock)
    with (Seq (lit "`") (seq [lit "`"; lit "`"; lazyStar anyChar;
                              lit "`"; lit "`"; lit "`"])).
  rewrite rmatch_Seq, rmatch_lit by done.
  by destruct (Z.eqb_spec x (ch "`")).
Qed.

Lemma exec_reCodeBlock_single prev y s :
  y ≠ 96 → exec reCodeBlock prev (96 :: y :: s) = None.
Proof.
  intros Hy. unfold exec.
  change (source reCodeBlock)
    with (Seq (lit "`") (Seq (lit "`")
            (seq [lit "`"; lazyStar anyChar; lit "`"; lit "`"; lit "`"]))).
  tick_step. rewrite rmatch_Seq, rmatch_lit by done.
  by destruct (Z.eqb_spec y (ch "`")).
Qed.

Lemma replaceFrom_reCodeBlock_tail c :
  Forall (λ x, x ≠ 96) c →
  ∀ prev, replaceFrom reCodeBlock [] 0 prev (c ++ [96]) = c ++ [96].
Proof.
  induction 1 as [|x c Hx Hc IH]; intros prev.
  - reflexivity.
  - cbn [app replaceFrom]. rewrite exec_reCodeBlock_other by done.
    f_equal. apply IH.
Qed.

Lemma exec_reInlineCode_span prev c rest :
  c ≠ [] →
  Forall (λ x, x ≠ 96) c →
  exec reInlineCode prev (96 :: c ++ 96 :: rest) = Some (rest, []).
Proof.
  intros Hne Hc. unfold exec.
  change (source reInlineCode)
    with (Seq (lit "`") (Seq (plus (notSet [One (ch "`")]))
                           (seq [lit "`"]))).
  tick_step.
  unfold plus, notSet. rewrite rmatch_Seq, rmatch_Repeat.
  apply iterate_greedy_run.
  - eapply Forall_impl; [exact Hc|]. intros x Hx.
    unfold matchesClass, inClass. cbn.
    by destruct (Z.eqb_spec x (ch "`")).
  - done.
  - destruct c; [done|]. cbn. lia.
  - done.
  - reflexivity.
Qed.

(** The regex stripper deletes fenced code and inline code, content
    included. *)
Lemma preprocessText_removes_code c :
  Forall noTickNoHyphen c →
  preprocessText (str "```" ++ c ++ str "```") = []
  ∧ (c ≠ [] → preprocessText (str "`" ++ c ++ str "`") = []).
Proof.
  intros Hc.
  assert (Htick : Forall (λ x, x ≠ 96) c).
  { eapply Forall_impl; [exact Hc|]. by intros x [? _]. }
  assert (Hhyph : Forall (λ x, x ≠ 45) c).
  { eapply Forall_impl; [exact Hc|]. by intros x [_ ?]. }
  split.
  - unfold preprocessText.
    rewrite replace_reFrontmatter_id.
    2:{ repeat (apply Forall_app; split); try done;
        repeat constructor; done. }
    assert (Hgone : replace reCodeBlock [] (str "```" ++ c ++ str "```") = []).
    { unfold replace.
      pose proof (exec_reCodeBlock_fenced None c [] Htick) as Hex.
      rewrite app_nil_r in Hex.
      change (str "```" ++ c ++ str "```")
        with (96 :: ([96; 96] ++ c ++ str "```")) in *.
      cbn [replaceFrom]. rewrite Hex. cbn [expand fmap list_fmap mjoin app].
      cbn [length Nat.sub].
      apply replaceFrom_skip_all. done. }
    rewrite Hgone. reflexivity.
  - intros Hne. unfold preprocessText.
    change (str "`" ++ c ++ str "`") with (96 :: c ++ [96]).
    rewrite replace_reFrontmatter_id.
    2:{ constructor; [done|]. apply Forall_app. split; [done|].
        by repeat constructor. }
    assert (Hkeep : replace reCodeBlock [] (96 :: c ++ [96]) = 96 :: c ++ [96]).
    { unfold replace. destruct c as [|y c]; [done|].
      apply Forall_cons in Htick as [Hy Htick].
      cbn [app replaceFrom]. rewrite exec_reCodeBlock_single by done.
      f_equal. rewrite exec_reCodeBlock_other by done. f_equal.
      by apply replaceFrom_reCodeBlock_tail. }
    rewrite Hkeep.
    assert (Hgone : replace reInlineCode [] (96 :: c ++ [96]) = []).
    { unfold replace.
      pose proof (exec_reInlineCode_span None c [] Hne Htick) as Hex.
      cbn [replaceFrom]. rewrite Hex. cbn [expand fmap list_fmap mjoin app].
      cbn [length Nat.sub].
      apply replaceFrom_skip_all. done. }
    rewrite Hgone. reflexivity.
Qed.

(** *** Every code region of a document goes *)

(** Passing over a match. *)
Lemma replaceFrom_skip re repl m :
  ∀ prev rest,
    replaceFrom re repl (length m) prev (m ++ rest)
    = replaceFrom re repl 0 (lastOr prev m) rest.
Proof.
  induction m as [|x m IH]; intros prev rest; [done|].
  cbn [length app replaceFrom]. rewrite IH.
  by rewrite lastOr_cons with (prev := prev).
Qed.

Lemma replaceFrom_match re repl prev x m rest c :
  exec re prev (x :: m ++ rest) = Some (rest, c) →
  replaceFrom re repl 0 prev (x :: m ++ rest)
  = expand repl c ++ replaceFrom re repl 0 (lastOr (Some x) m) rest.
Proof.
  intros Hex. cbn [replaceFrom]. rewrite Hex.
  replace (length (x :: m ++ rest) - length rest)%nat with (S (length m))
    by (cbn [length]; rewrite length_app; lia).
  by rewrite replaceFrom_skip.
Qed.

Lemma replaceFrom_reCodeBlock_plain c :
  Forall (λ x, x ≠ 96) c →
  ∀ prev t,
    replaceFrom reCodeBlock [] 0 prev (c ++ t)
    = c ++ replaceFrom reCodeBlock [] 0 (lastOr prev c) t.
Proof.
  induction 1 as [|x c Hx Hc IH]; intros prev t; [done|].
  cbn [app replaceFrom]. rewrite exec_reCodeBlock_other by done.
  f_equal. rewrite IH. by rewrite lastOr_cons with (prev := prev).
Qed.

Lemma exec_reCodeBlock_end prev : exec reCodeBlock prev [96] = None.
Proof. done. Qed.

Lemma exec_reCodeBlock_double prev y s :
  y ≠ 96 → exec reCodeBlock prev (96 :: 96 :: y :: s) = None.
Proof.
  intros Hy. unfold exec.
  change (source reCodeBlock)
    with (Seq (lit "`") (Seq (lit "`") (Seq (lit "`")
            (seq [lazyStar anyChar; lit "`"; lit "`"; lit "`"])))).
  do 2 tick_step. rewrite rmatch_Seq, rmatch_lit by done.
  by destruct (Z.eqb_spec y (ch "`")).
Qed.

Lemma docText_cons p d : docText (p :: d) = pieceText p ++ docText d.
Proof. done. Qed.

Lemma noTick c : Forall noTickNoHyphen c → Forall (λ x, x ≠ 96) c.
Proof. intros H. eapply Forall_impl; [exact H|]. by intros x [? _]. Qed.

Lemma noHyphen c : Forall noTickNoHyphen c → Forall (λ x, x ≠ 45) c.
Proof. intros H. eapply Forall_impl; [exact H|]. by intros x [_ ?]. Qed.

(** The closing backtick of a span starts no fence. *)
Lemma exec_reCodeBlock_closing prev d :
  codeDelimited true d → exec reCodeBlock prev (96 :: docText d) = None.
Proof.
  destruct d as [|[x|c|c] d]; cbn [codeDelimited].
  - intros _. apply exec_reCodeBlock_end.
  - intros [[Hx _] _]. rewrite docText_cons. cbn [pieceText app].
    by apply exec_reCodeBlock_single.
  - by intros [? _].
  - intros (Hne & Hc & _). rewrite docText_cons.
    destruct c as [|y c]; [done|]. apply Forall_cons in Hc as [[Hy _] _].
    change (pieceText (Span (y :: c))) with (96 :: y :: c ++ [96]).
    cbn [app]. by apply exec_reCodeBlock_double.
Qed.

(** The code-block pattern, with its [g] flag, deletes every fenced region
    of a document and leaves the rest as it is. *)
Lemma replaceFrom_reCodeBlock_doc d :
  ∀ b prev,
    codeDelimited b d →
    replaceFrom reCodeBlock [] 0 prev (docText d) = docText (withoutFences d).
Proof.
  induction d as [|[x|c|c] d IH]; intros b prev; cbn [codeDelimited].
  - done.
  - intros [[Hx _] Hd]. unfold withoutFences. rewrite filter_cons_True by done.
    rewrite !docText_cons. cbn [pieceText app replaceFrom].
    rewrite exec_reCodeBlock_other by done. f_equal. by eapply IH.
  - intros (_ & Hc & Hd). unfold withoutFences.
    rewrite filter_cons_False by done. rewrite docText_cons.
    cbn [pieceText].
    assert (Hex : exec reCodeBlock prev
                    (96 :: ([96; 96] ++ c ++ str "```") ++ docText d)
                  = Some (docText d, [])).
    { rewrite <- (exec_reCodeBlock_fenced prev c (docText d) (noTick _ Hc)).
      f_equal. cbn [app]. by rewrite <- !app_assoc. }
    change ((str "```" ++ c ++ str "```") ++ docText d)
      with (96 :: ([96; 96] ++ c ++ str "```") ++ docText d).
    rewrite (replaceFrom_match _ _ _ _ _ _ _ Hex).
    cbn [expand fmap list_fmap mjoin list_join app]. by eapply IH.
  - intros (Hne & Hc & Hd). unfold withoutFences.
    rewrite filter_cons_True by done. rewrite !docText_cons.
    destruct c as [|y c]; [done|].
    pose proof (noTick _ Hc) as Htick.
    apply Forall_cons in Htick as [Hy Htick'].
    change (pieceText (Span (y :: c))) with (96 :: (y :: c) ++ [96]).
    cbn [app]. rewrite <- !app_assoc. cbn [app replaceFrom].
    rewrite exec_reCodeBlock_single by done. f_equal.
    rewrite exec_reCodeBlock_other by done. f_equal.
    rewrite replaceFrom_reCodeBlock_plain by done. f_equal.
    cbn [replaceFrom]. rewrite exec_reCodeBlock_closing by done.
    f_equal. by eapply IH.
Qed.

Lemma exec_reInlineCode_other prev x s :
  x ≠ 96 → exec reInlineCode prev (x :: s) = None.
Proof.
  intros Hx. unfold exec.
  change (source reInlineCode)
    with (Seq (lit "`") (seq [plus (notSet [One (ch "`")]); lit "`"])).
  rewrite rmatch_Seq, rmatch_lit by done.
  by destruct (Z.eqb_spec x (ch "`")).
Qed.

(** The inline-code pattern, with its [g] flag, deletes every span of a
    document without fences. *)
Lemma replaceFrom_reInlineCode_doc d :
  ∀ b prev,
    codeDelimited b d →
    replaceFrom reInlineCode [] 0 prev (docText (withoutFences d))
    = withoutCode d.
Proof.
  induction d as [|[x|c|c] d IH]; intros b prev; cbn [codeDelimited].
  - done.
  - intros [[Hx _] Hd]. unfold withoutFences. rewrite filter_cons_True by done.
    rewrite docText_cons. cbn [pieceText app replaceFrom].
    rewrite exec_reInlineCode_other by done.
    change (withoutCode (Plain x :: d)) with (x :: withoutCode d).
    f_equal. by eapply IH.
  - intros (_ & Hc & Hd). unfold withoutFences.
    rewrite filter_cons_False by done. by eapply IH.
  - intros (Hne & Hc & Hd). unfold withoutFences.
    rewrite filter_cons_True by done. rewrite docText_cons.
    set (r := docText (filter (λ p, isFence p = false) d)).
    assert (Hex : exec reInlineCode prev (96 :: (c ++ [96]) ++ r)
                  = Some (r, [])).
    { rewrite <- (exec_reInlineCode_span prev c r Hne (noTick _ Hc)).
      by rewrite <- app_assoc. }
    change (pieceText (Span c) ++ r) with (96 :: (c ++ [96]) ++ r).
    rewrite (replaceFrom_match _ _ _ _ _ _ _ Hex).
    cbn [expand fmap list_fmap mjoin list_join app].
    change (withoutCode (Span c :: d)) with (withoutCode d). by eapply IH.
Qed.

Lemma docText_noHyphen d b :
  codeDelimited b d → Forall (λ x, x ≠ 45) (docText d).
Proof.
  revert b. induction d as [|[x|c|c] d IH]; intros b; cbn [codeDelimited];
    [done|..]; rewrite docText_cons; cbn [pieceText].
  - intros [[_ Hx] Hd]. constructor; [done|]. by eapply IH.
  - intros (_ & Hc & Hd). repeat (apply Forall_app; split);
      [by repeat constructor|by apply noHyphen|by repeat constructor|].
    by eapply IH.
  - intros (_ & Hc & Hd). repeat (apply Forall_app; split);
      [by repeat constructor|by apply noHyphen|by repeat constructor|].
    by eapply IH.
Qed.

Lemma withoutCode_plain d b :
  codeDelimited b d → Forall noTickNoHyphen (withoutCode d).
Proof.
  revert b. induction d as [|[x|c|c] d IH]; intros b; cbn [codeDelimited];
    [done|..].
  - intros [Hx Hd]. change (withoutCode (Plain x :: d)) with (x :: withoutCode d).
    constructor; [done|]. by eapply IH.
  - intros (_ & _ & Hd). by eapply IH.
  - intros (_ & _ & Hd). by eapply IH.
Qed.

(** The regex stripper on a document with code is the regex stripper on the
    document with every code region deleted. *)
Lemma preprocessText_code_removed d :
  codeDelimited false d →
  preprocessText (docText d) = preprocessText (withoutCode d).
Proof.
  intros Hd. unfold preprocessText.
  pose proof (withoutCode_plain d false Hd) as Hplain.
  rewrite (replace_reFrontmatter_id (docText d))
    by (by eapply docText_noHyphen).
  rewrite (replace_reFrontmatter_id (withoutCode d)) by (by apply noHyphen).
  assert (Htick : ∀ re repl,
    requires re (λ x, x = 96) (source re) →
    replace re repl (withoutCode d) = withoutCode d).
  { intros re repl Hreq. apply (replace_requires (λ x, x = 96)); [done|].
    by apply noTick. }
  assert (Hq : ∀ x : Z, inClass {| negated := false; items := [One (ch "`")] |} x
                        = true → x = 96).
  { intros x H. cbn in H. rewrite orb_false_r in H. by apply Z.eqb_eq in H. }
  rewrite (Htick reCodeBlock) by (apply req_seq_l, req_chars; exact Hq).
  rewrite (Htick reInlineCode) by (apply req_seq_l, req_chars; exact Hq).
  unfold replace at 10.
  rewrite (replaceFrom_reCodeBlock_doc d false None Hd).
  unfold replace at 9.
  by rewrite (replaceFrom_reInlineCode_doc d false None Hd).
Qed.

End RegexStripperCode.

(** ** Code in the state-machine stripper *)

Section StateMachineCode.
Import Js WordCountPlugin.

Lemma pastFrontmatter_test fe st i :
  pastFrontmatter fe st i → inFrontmatter st && (i <? fe)%nat = false.
Proof.
  intros [->|Hle]; [done|].
  replace (i <? fe)%nat with false by (symmetry; apply Nat.ltb_ge; lia).
  apply andb_false_r.
Qed.

(** In one of the three code modes a turn of the loop on a code unit other
    than a backtick and a dollar sign appends it and moves on by one. *)
Lemma body_copies text fe i x st :
  pastFrontmatter fe st i →
  inCodeBlock st || inInlineCode st || inMathBlock st = true →
  codeChar x →
  body text fe i x st = (S i, pushChar st x).
Proof.
  intros Hfm Hmode [H96 H36]. unfold body.
  rewrite (pastFrontmatter_test _ _ _ Hfm).
  change (ch "$") with 36. change (ch "`") with 96.
  destruct (Z.eqb_spec x 36) as [|_]; [done|].
  destruct (Z.eqb_spec x 96) as [|_]; [done|].
  rewrite !andb_false_r. cbn [andb]. by rewrite Hmode.
Qed.

Lemma lookup_middle (pre : list Z) x post :
  (pre ++ x :: post) !! length pre = Some x.
Proof. by rewrite list_lookup_middle. Qed.

Lemma pushText_pushChar st x c :
  pushText (pushChar st x) c = pushText st (x :: c).
Proof. unfold pushText, pushChar. cbn. by rewrite <- app_assoc. Qed.

Lemma scan_copies text fe c :
  ∀ pre post st fuel,
    text = pre ++ c ++ post →
    pastFrontmatter fe st (length pre) →
    inCodeBlock st || inInlineCode st || inMathBlock st = true →
    Forall codeChar c →
    scan text fe (length c + fuel) (length pre) st
    = scan text fe fuel (length pre + length c) (pushText st c).
Proof.
  induction c as [|x c IH]; intros pre post st fuel Htext Hfm Hmode Hc.
  - cbn [length Nat.add]. rewrite Nat.add_0_r. f_equal.
    unfold pushText. destruct st; cbn. by rewrite app_nil_r.
  - apply Forall_cons in Hc as [Hx Hc].
    cbn [length Nat.add scan].
    assert (Hi : text !! length pre = Some x).
    { rewrite Htext. apply lookup_middle. }
    rewrite Hi, body_copies by done.
    replace (S (length pre)) with (length (pre ++ [x]))
      by (rewrite length_app; cbn; lia).
    rewrite (IH (pre ++ [x]) post (pushChar st x) fuel).
    + rewrite pushText_pushChar. f_equal. rewrite length_app. cbn. lia.
    + by rewrite Htext, <- app_assoc.
    + destruct Hfm as [?|?]; [by left|right].
      rewrite length_app. cbn. lia.
    + done.
    + done.
Qed.

Lemma lookup_at (pre l rest : list Z) k x :
  l !! k = Some x → (pre ++ l ++ rest) !! (length pre + k)%nat = Some x.
Proof.
  intros Hk. rewrite lookup_app_r by lia.
  replace (length pre + k - length pre)%nat with k by lia.
  by apply lookup_app_l_Some.
Qed.

Lemma charIs_Some text i x a :
  text !! i = Some x → charIs text i a = (x =? ch a).
Proof. unfold charIs. by intros ->. Qed.

(** A turn of the loop on the first backtick of a fence. *)
Lemma body_fence text fe i st :
  pastFrontmatter fe st i →
  inInlineCode st = false →
  text !! (i + 1)%nat = Some 96 →
  text !! (i + 2)%nat = Some 96 →
  body text fe i 96 st
  = (S (i + 2),
     setFlags st (negb (inCodeBlock st)) (inInlineCode st) (inFrontmatter st)
       (inHtmlTag st) (inMathBlock st)).
Proof.
  intros Hfm Hinline H1 H2. unfold body.
  rewrite (pastFrontmatter_test _ _ _ Hfm), Hinline.
  rewrite !(charIs_Some _ _ _ _ H1), !(charIs_Some _ _ _ _ H2).
  apply lookup_lt_Some in H2. apply Nat.ltb_lt in H2. rewrite H2.
  change (96 =? ch "$") with false. change (96 =? ch "`") with true.
  by rewrite !andb_false_r.
Qed.

(** A turn of the loop on a backtick that opens or closes an inline span:
    no fence starts here. *)
Lemma body_tick text fe i st :
  pastFrontmatter fe st i →
  inMathBlock st = false →
  inInlineCode st = true ∨ charIs text (i + 1) "`" = false →
  body text fe i 96 st
  = (S i,
     setFlags st (inCodeBlock st) (negb (inInlineCode st)) (inFrontmatter st)
       (inHtmlTag st) (inMathBlock st)).
Proof.
  intros Hfm Hmath Hnofence. unfold body.
  rewrite (pastFrontmatter_test _ _ _ Hfm), Hmath.
  change (96 =? ch "$") with false. change (96 =? ch "`") with true.
  rewrite !andb_false_r. cbn [andb negb].
  destruct Hnofence as [->| ->]; [done|].
  by rewrite !andb_false_r.
Qed.

(** Where the scan meets a fence outside inline code, it copies the code
    units up to the closing fence and goes on behind it. *)
Lemma scan_fenced text fe pre c post st fuel :
  text = pre ++ str "```" ++ c ++ str "```" ++ post →
  Forall codeChar c →
  pastFrontmatter fe st (length pre) →
  inCodeBlock st = false →
  inInlineCode st = false →
  scan text fe (length c + 2 + fuel) (length pre) st
  = scan text fe fuel (length pre + length c + 6) (pushText st c).
Proof.
  intros Htext Hc Hfm Hcode Hinline.
  change (str "```") with [96; 96; 96] in Htext.
  replace (length c + 2 + fuel)%nat with (S (length c + S fuel)) by lia.
  cbn [scan].
  assert (H0 : text !! length pre = Some 96).
  { rewrite Htext. apply lookup_middle. }
  assert (H1 : text !! (length pre + 1)%nat = Some 96).
  { rewrite Htext. by apply (lookup_at pre [96; 96; 96]). }
  assert (H2 : text !! (length pre + 2)%nat = Some 96).
  { rewrite Htext. by apply (lookup_at pre [96; 96; 96]). }
  rewrite H0, body_fence by done.
  set (st1 := setFlags st _ _ _ _ _).
  replace (S (length pre + 2)) with (length (pre ++ [96; 96; 96]))
    by (rewrite length_app; cbn; lia).
  rewrite (scan_copies text fe c (pre ++ [96; 96; 96]%Z)
             (str "```" ++ post) st1 (S fuel)).
  2:{ by rewrite Htext, <- !app_assoc. }
  2:{ destruct Hfm as [?|?]; [by left|right]. rewrite length_app. cbn. lia. }
  2:{ subst st1. cbn. by rewrite Hcode. }
  2:{ done. }
  set (j := Nat.add (length (pre ++ [96; 96; 96])) (length c)).
  assert (Hj : j = length (pre ++ [96; 96; 96] ++ c)).
  { subst j. rewrite !length_app. cbn. lia. }
  assert (Htext' : text = (pre ++ [96; 96; 96] ++ c) ++ [96; 96; 96] ++ post).
  { by rewrite Htext, <- !app_assoc. }
  assert (J0 : text !! j = Some 96).
  { rewrite Hj, Htext'. apply lookup_middle. }
  assert (J1 : text !! (j + 1)%nat = Some 96).
  { rewrite Hj, Htext'. by apply (lookup_at _ [96; 96; 96]). }
  assert (J2 : text !! (j + 2)%nat = Some 96).
  { rewrite Hj, Htext'. by apply (lookup_at _ [96; 96; 96]). }
  cbn [scan]. rewrite J0, body_fence; try done.
  2:{ destruct Hfm as [?|?]; [by left|right].
      subst j. rewrite length_app. cbn. lia. }
  f_equal.
  - subst j. rewrite length_app. cbn. lia.
  - subst st1. unfold setFlags, pushText. cbn. rewrite Hcode.
    destruct st; cbn in *. by subst.
Qed.

(** Where the scan meets the backtick of a non-empty inline span outside a
    formula block and outside inline code, it copies the code units up to the
    closing backtick and goes on behind it. *)
Lemma scan_inline text fe pre c post st fuel :
  text = pre ++ str "`" ++ c ++ str "`" ++ post →
  c ≠ [] →
  Forall codeChar c →
  pastFrontmatter fe st (length pre) →
  inMathBlock st = false →
  inInlineCode st = false →
  scan text fe (length c + 2 + fuel) (length pre) st
  = scan text fe fuel (length pre + length c + 2) (pushText st c).
Proof.
  intros Htext Hne Hc Hfm Hmath Hinline.
  change (str "`") with [96] in Htext.
  replace (length c + 2 + fuel)%nat with (S (length c + S fuel)) by lia.
  cbn [scan].
  assert (H0 : text !! length pre = Some 96).
  { rewrite Htext. apply lookup_middle. }
  assert (H1 : charIs text (length pre + 1) "`" = false).
  { destruct c as [|y c]; [done|].
    apply Forall_cons in Hc as [[Hy _] _].
    rewrite (charIs_Some _ _ y).
    - by destruct (Z.eqb_spec y (ch "`")).
    - rewrite Htext. by apply (lookup_at pre (96 :: y :: c) _ 1). }
  rewrite H0, body_tick; [|done|done|by right].
  set (st1 := setFlags st _ _ _ _ _).
  replace (S (length pre)) with (length (pre ++ [96]))
    by (rewrite length_app; cbn; lia).
  rewrite (scan_copies text fe c (pre ++ [96]%Z) (str "`" ++ post) st1
             (S fuel)).
  2:{ by rewrite Htext, <- !app_assoc. }
  2:{ destruct Hfm as [?|?]; [by left|right]. rewrite length_app. cbn. lia. }
  2:{ subst st1. cbn. rewrite Hinline. cbn. by rewrite orb_true_r. }
  2:{ done. }
  set (j := Nat.add (length (pre ++ [96])) (length c)).
  assert (J0 : text !! j = Some 96).
  { replace j with (length (pre ++ [96] ++ c))
      by (subst j; rewrite !length_app; cbn; lia).
    rewrite Htext.
    replace (pre ++ [96] ++ c ++ [96] ++ post)
      with ((pre ++ [96] ++ c) ++ 96 :: post) by (by rewrite <- !app_assoc).
    apply lookup_middle. }
  cbn [scan]. rewrite J0, body_tick.
  - f_equal.
    + subst j. rewrite length_app. cbn. lia.
    + subst st1. unfold setFlags, pushText. cbn. rewrite Hinline.
      destruct st; cbn in *. by subst.
  - destruct Hfm as [?|?]; [by left|right].
    subst j. rewrite length_app. cbn. lia.
  - done.
  - left. subst st1. cbn. by rewrite Hinline.
Qed.

Lemma scanText_fenced c extra :
  Forall codeChar c →
  scanText (length c + 2 + extra) (str "```" ++ c ++ str "```") = Some c.
Proof.
  intros Hc. unfold scanText.
  change (frontmatterEndOf (str "```" ++ c ++ str "```")) with (@None nat).
  cbn [is_Some bool_decide default from_option].
  set (text := str "```" ++ c ++ str "```").
  set (st0 := setFlags initialScan _ _ _ _ _).
  pose proof (scan_fenced text 0 [] c [] st0 extra) as Hscan.
  cbn [length Nat.add] in Hscan. rewrite Hscan; try done.
  - assert (Hend : text !! (length c + 6)%nat = None).
    { apply lookup_ge_None. subst text. rewrite !length_app. cbn. lia. }
    destruct extra; cbn [scan]; by rewrite Hend.
  - by left.
Qed.

Lemma scanText_inline c extra :
  c ≠ [] →
  Forall codeChar c →
  scanText (length c + 2 + extra) (str "`" ++ c ++ str "`") = Some c.
Proof.
  intros Hne Hc. unfold scanText.
  change (frontmatterEndOf (str "`" ++ c ++ str "`")) with (@None nat).
  cbn [is_Some bool_decide default from_option].
  set (text := str "`" ++ c ++ str "`").
  set (st0 := setFlags initialScan _ _ _ _ _).
  pose proof (scan_inline text 0 [] c [] st0 extra) as Hscan.
  cbn [length Nat.add] in Hscan. rewrite Hscan; try done.
  - assert (Hend : text !! (length c + 2)%nat = None).
    { apply lookup_ge_None. subst text. rewrite !length_app. cbn. lia. }
    destruct extra; cbn [scan]; by rewrite Hend.
  - by left.
Qed.

(** The quote branch leaves the index where it was: on a line that starts
    with [>] the loop never ends, whatever the fuel. *)
Lemma scanText_quote_diverges fuel : scanText fuel (str "> a") = None.
Proof.
  unfold scanText.
  change (frontmatterEndOf (str "> a")) with (@None nat).
  cbn [is_Some bool_decide default from_option].
  set (st0 := setFlags initialScan _ _ _ _ _).
  enough (scan (str "> a") 0 fuel 0 st0 = None) as -> by done.
  induction fuel as [|fuel IH]; [done|].
  cbn [scan]. change (str "> a" !! 0%nat) with (Some 62).
  cbv beta iota.
  change (body (str "> a") 0 0 62 st0) with (0%nat, st0). exact IH.
Qed.

End StateMachineCode.

(** The regex stripper on a note with two inline spans and two fenced
    regions: all four go, content included. *)
Example preprocessText_sampleDoc :
  docText sampleDoc
  = Js.str "run `ls` or `dir`" ++ [10]
    ++ Js.str "```x = 1``````y = 2``` done"
  ∧ TextAnalyzer.preprocessText (docText sampleDoc) = Js.str "run or done".
Proof. vm_compute. split; reflexivity. Qed.

(** C7 (as the code has it).  The two strippers treat code differently.
    The state-machine stripper copies: where its scan meets a fence outside
    inline code, or the backtick of a non-empty inline span outside inline
    code and formula blocks, it appends each code unit up to the closing
    marker to its result and goes on behind that marker, provided the
    content has no backtick and no dollar sign; a text that is just such a
    region comes out as its content after the white-space clean-up.  The
    regex stripper removes: a text that is just a fenced or a non-empty
    inline region, the content free of backticks and hyphens, comes out
    empty; and a document with any number of fenced regions and non-empty
    inline spans between plain text, in any order but for a fence right
    after a span, without backticks and hyphens in the plain text and in
    the contents, comes out as the same document with every region deleted
    does. *)
Theorem code_copied_by_scan_removed_by_regex (c : list Z) :
  (∀ text frontmatterEnd pre post st fuel,
     text = pre ++ Js.str "```" ++ c ++ Js.str "```" ++ post →
     Forall codeChar c →
     pastFrontmatter frontmatterEnd st (length pre) →
     WordCountPlugin.inCodeBlock st = false →
     WordCountPlugin.inInlineCode st = false →
     WordCountPlugin.scan text frontmatterEnd (length c + 2 + fuel)
       (length pre) st
     = WordCountPlugin.scan text frontmatterEnd fuel
         (length pre + length c + 6) (WordCountPlugin.pushText st c))
  ∧ (∀ text frontmatterEnd pre post st fuel,
       text = pre ++ Js.str "`" ++ c ++ Js.str "`" ++ post →
       c ≠ [] →
       Forall codeChar c →
       pastFrontmatter frontmatterEnd st (length pre) →
       WordCountPlugin.inMathBlock st = false →
       WordCountPlugin.inInlineCode st = false →
       WordCountPlugin.scan text frontmatterEnd (length c + 2 + fuel)
         (length pre) st
       = WordCountPlugin.scan text frontmatterEnd fuel
           (length pre + length c + 2) (WordCountPlugin.pushText st c))
  ∧ (Forall codeChar c →
     ∀ extra,
       WordCountPlugin.preprocessText (length c + 2 + extra)
         (Js.str "```" ++ c ++ Js.str "```")
       = Some (WordCountPlugin.cleanUp c)
       ∧ (c ≠ [] →
          WordCountPlugin.preprocessText (length c + 2 + extra)
            (Js.str "`" ++ c ++ Js.str "`")
          = Some (WordCountPlugin.cleanUp c)))
  ∧ (Forall noTickNoHyphen c →
     TextAnalyzer.preprocessText (Js.str "```" ++ c ++ Js.str "```") = []
     ∧ (c ≠ [] →
        TextAnalyzer.preprocessText (Js.str "`" ++ c ++ Js.str "`") = []))
  ∧ (∀ d, codeDelimited false d →
          TextAnalyzer.preprocessText (docText d)
          = TextAnalyzer.preprocessText (withoutCode d)).
Proof.
  split_and!.
  - intros. by eapply scan_fenced.
  - intros. by eapply scan_inline.
  - intros Hc extra. unfold WordCountPlugin.preprocessText. split.
    + by rewrite scanText_fenced.
    + intros Hne. by rewrite scanText_inline.
  - apply preprocessText_removes_code.
  - apply preprocessText_code_removed.
Qed.

(** ** The classifier always returns *)

Section ClassifierTotal.
Import Js TextAnalyzer.

Lemma runEnd_ge rest j : (j ≤ runEnd rest j)%nat.
Proof.
  revert j. induction rest as [|x rest IH]; intros j; cbn [runEnd]; [done|].
  destruct (testChar REGEX_PATTERNS.ENGLISH x); [|done].
  specialize (IH (S j)). lia.
Qed.

(** A turn of the loop never moves the index back. *)
Lemma countBody_index s text i char acc :
  text !! i = Some char →
  (i ≤ (countBody s text i char acc).1)%nat.
Proof.
  intros Hi. unfold countBody.
  repeat (case_match; cbn [fst]; try done).
  rewrite (drop_S _ _ _ Hi). cbn [runEnd].
  match goal with
  | H : _ && testChar REGEX_PATTERNS.ENGLISH char = true |- _ =>
      apply andb_true_iff in H as [_ ->]
  end.
  pose proof (runEnd_ge (drop (S i) text) (S i)). lia.
Qed.

Lemma countLoop_returns s text fuel :
  ∀ i acc, (length text ≤ i + fuel)%nat →
           is_Some (countLoop s text fuel i acc).
Proof.
  induction fuel as [|fuel IH]; intros i acc Hlen; cbn [countLoop].
  - destruct (text !! i) eqn:Hi; [|done].
    apply lookup_lt_Some in Hi. lia.
  - destruct (text !! i) as [char|] eqn:Hi; [|done].
    pose proof (countBody_index s text i char acc Hi) as Hge.
    destruct (countBody s text i char acc) as [i' acc']. cbn [fst] in Hge.
    apply IH. lia.
Qed.

(** [length text] turns are enough: [countCharacters] has a result on every
    text. *)
Lemma countCharacters_returns s text : is_Some (countCharacters s text).
Proof. apply countLoop_returns. lia. Qed.

End ClassifierTotal.

(** * The cache *)

Section CacheFacts.

Context {T : Type}.
Implicit Types (cache : gmap string (CacheService.CacheItem T)) (key : string)
  (v : T).

Lemma expired_false now (item : CacheService.CacheItem T) :
  CacheService.expired now item = false
  ↔ now - CacheService.timestamp item ≤ CONSTANTS.CACHE_TTL.
Proof. unfold CacheService.expired. by rewrite Z.ltb_ge. Qed.

Lemma expired_true now (item : CacheService.CacheItem T) :
  CacheService.expired now item = true
  ↔ CONSTANTS.CACHE_TTL < now - CacheService.timestamp item.
Proof. unfold CacheService.expired. by rewrite Z.ltb_lt. Qed.

(** X1.  An entry is read back for as long as the clock is at most
    [CACHE_TTL] past the reading at which it was stored: [get] returns the
    stored value, [has] answers yes, and neither changes the cache. *)
Theorem cache_get_after_set cache key v (ttl t0 t1 : Z) :
  t1 - t0 ≤ CONSTANTS.CACHE_TTL →
  CacheService.get (CacheService.set cache key v ttl t0) key t1
  = (CacheService.set cache key v ttl t0, Some v)
  ∧ CacheService.has (CacheService.set cache key v ttl t0) key t1
    = (CacheService.set cache key v ttl t0, true).
Proof.
  intros Hlive.
  unfold CacheService.get, CacheService.has, CacheService.set.
  rewrite lookup_insert_eq.
  by rewrite (proj2 (expired_false t1 _)).
Qed.

(** X2.  Once the clock is more than [CACHE_TTL] past the reading at which
    an entry was stored, [get] finds nothing and [has] answers no, whatever
    time to live was passed to [set], and the read removes the entry. *)
Theorem cache_entry_expires cache key v (ttl t0 t1 : Z) :
  CONSTANTS.CACHE_TTL < t1 - t0 →
  CacheService.get (CacheService.set cache key v ttl t0) key t1
  = (CacheService.delete cache key, None)
  ∧ CacheService.has (CacheService.set cache key v ttl t0) key t1
    = (CacheService.delete cache key, false)
  ∧ CacheService.delete cache key !! key = None.
Proof.
  intros Hdead.
  unfold CacheService.get, CacheService.has, CacheService.set,
    CacheService.delete.
  rewrite lookup_insert_eq.
  rewrite (proj2 (expired_true t1 _)) by done.
  by rewrite delete_insert_eq, lookup_delete_eq.
Qed.

(** X3.  [cleanup] keeps exactly the entries that have not outlived
    [CACHE_TTL] at its clock reading, with their values and time stamps.
    The cache does not grow, and a [get] or [has] at a reading not later
    than that of the [cleanup] removes nothing more. *)
Theorem cache_cleanup cache (now : Z) key :
  (∀ item,
     CacheService.cleanup cache now !! key = Some item
     ↔ cache !! key = Some item
       ∧ now - CacheService.timestamp item ≤ CONSTANTS.CACHE_TTL)
  ∧ (CacheService.size (CacheService.cleanup cache now)
     ≤ CacheService.size cache)%nat
  ∧ ∀ t, t ≤ now →
      CacheService.get (CacheService.cleanup cache now) key t
      = (CacheService.cleanup cache now,
         CacheService.value <$> CacheService.cleanup cache now !! key)
      ∧ CacheService.has (CacheService.cleanup cache now) key t
        = (CacheService.cleanup cache now,
           bool_decide (is_Some (CacheService.cleanup cache now !! key))).
Proof.
  assert (Hlook : ∀ item,
     CacheService.cleanup cache now !! key = Some item
     ↔ cache !! key = Some item
       ∧ now - CacheService.timestamp item ≤ CONSTANTS.CACHE_TTL).
  { intros item. unfold CacheService.cleanup.
    rewrite map_lookup_filter_Some. cbn. by rewrite expired_false. }
  split_and!; [done| |].
  - unfold CacheService.size, CacheService.cleanup.
    apply map_size_filter.
  - intros t Ht. unfold CacheService.get, CacheService.has.
    destruct (CacheService.cleanup cache now !! key) as [item|] eqn:Hk;
      [|done].
    destruct (proj1 (Hlook item) eq_refl) as [_ Hlive].
    rewrite (proj2 (expired_false t item)) by lia.
    done.
Qed.

(** X4.  A [get] or [has] for one key leaves every other key as it was, the
    two leave the same cache behind, and [has] answers yes exactly when
    [get] returns a value. *)
Theorem cache_read_frame cache key (now : Z) :
  (∀ key', key' ≠ key →
     (CacheService.get cache key now).1 !! key' = cache !! key')
  ∧ (CacheService.has cache key now).1 = (CacheService.get cache key now).1
  ∧ (CacheService.has cache key now).2
    = bool_decide (is_Some (CacheService.get cache key now).2)
  ∧ ((CacheService.get cache key now).2 = None →
     (CacheService.get cache key now).1 !! key = None).
Proof.
  unfold CacheService.get, CacheService.has.
  destruct (cache !! key) as [item|] eqn:Hk; [|done].
  destruct (CacheService.expired now item); cbn.
  - split_and!; try done.
    + intros key' Hne. by rewrite lookup_delete_ne.
    + intros _. by rewrite lookup_delete_eq.
  - done.
Qed.

End CacheFacts.

(** * The plugin's update and the cache *)

Section MainFacts.

Variable Date_getTime : jsval → option Z.

Local Abbreviation updateWordCount := (Main.updateWordCount Date_getTime).

Lemma analyzeText_returns s text : is_Some (TextAnalyzer.analyzeText s text).
Proof. apply countCharacters_returns. Qed.

Lemma isMarkdownFile_md file :
  extension file = "md" → Main.isMarkdownFile file = true.
Proof. unfold Main.isMarkdownFile. by intros ->. Qed.

(** X5.  With the cache on, an update that read a note from the vault stores
    its text under the note's path, and every update of that note within
    [CACHE_TTL] of that moment analyses the stored text again: what the
    vault holds by then plays no part, the day record gets the counters of
    the old text, and the entry keeps its time stamp. *)
Theorem updateWordCount_reads_cache (p : Main.t) (file : TFile) (c1 : list Z)
    (th0 tg0 ts0 th1 tg1 ts1 now0 now1 : Z) (today0 today1 : string)
    (ok0 ok1 : bool) :
  enableCache (Main.settings p) = true →
  extension file = "md" →
  (CacheService.has (Main.cacheService p) ("file_" +:+ path file) th0).2
  = false →
  th1 - ts0 ≤ CONSTANTS.CACHE_TTL →
  tg1 - ts0 ≤ CONSTANTS.CACHE_TTL →
  let p1 :=
    (updateWordCount p (Some file) (Some c1) th0 tg0 ts0 today0 now0 ok0).1 in
  Main.cacheService p1 !! ("file_" +:+ path file)
  = Some {| CacheService.value := c1; CacheService.timestamp := ts0 |}
  ∧ ∃ r, TextAnalyzer.analyzeText (Main.textAnalyzer p) c1 = Some r
    ∧ ∀ vaultContent,
        let p2 :=
          (updateWordCount p1 (Some file) vaultContent th1 tg1 ts1 today1
             now1 ok1).1 in
        Main.statsManager p2
        = (StatsManager.updateWordCount Date_getTime (Main.statsManager p1)
             today1 now1 (name file) r ok1).1
        ∧ Main.cacheService p2 = Main.cacheService p1.
Proof.
  intros Hon Hmd Hmiss Hh Hg.
  destruct (analyzeText_returns (Main.textAnalyzer p) c1) as [r Hr].
  unfold updateWordCount, Main.updateWordCount.
  rewrite (isMarkdownFile_md _ Hmd), Hon. cbn [negb].
  destruct (CacheService.has (Main.cacheService p) ("file_" +:+ path file) th0)
    as [cache1 hit] eqn:Hhas.
  cbn in Hmiss. subst hit. rewrite Hr.
  destruct (StatsManager.updateWordCount Date_getTime (Main.statsManager p)
              today0 now0 (name file) r ok0) as [m0 comp0] eqn:Hup0.
  cbn [fst Main.cacheService Main.settings Main.textAnalyzer
       Main.statsManager].
  split.
  { unfold CacheService.set. by rewrite lookup_insert_eq. }
  exists r. split; [done|]. intros vaultContent.
  unfold CacheService.has, CacheService.get, CacheService.set.
  rewrite !lookup_insert_eq.
  rewrite (proj2 (expired_false th1 _)) by done.
  rewrite Hon. cbv beta iota zeta.
  rewrite lookup_insert_eq.
  rewrite (proj2 (expired_false tg1 _)) by done.
  cbn [CacheService.value]. rewrite Hr.
  destruct (StatsManager.updateWordCount Date_getTime m0 today1 now1
              (name file) r ok1) as [m1 comp1] eqn:Hup1.
  done.
Qed.

(** X6.  Once the clock at the update's [has] is more than [CACHE_TTL] past
    the time stamp of the note's entry, the update reads the vault again,
    analyses what the vault holds and stores that text with the reading of
    its [set]. *)
Theorem updateWordCount_after_expiry (p : Main.t) (file : TFile)
    (item : CacheService.CacheItem (list Z)) (c : list Z)
    (th tg ts now : Z) (today : string) (ok : bool) :
  enableCache (Main.settings p) = true →
  extension file = "md" →
  Main.cacheService p !! ("file_" +:+ path file) = Some item →
  CONSTANTS.CACHE_TTL < th - CacheService.timestamp item →
  let p1 := (updateWordCount p (Some file) (Some c) th tg ts today now ok).1 in
  Main.cacheService p1 !! ("file_" +:+ path file)
  = Some {| CacheService.value := c; CacheService.timestamp := ts |}
  ∧ ∃ r, TextAnalyzer.analyzeText (Main.textAnalyzer p) c = Some r
    ∧ Main.statsManager p1
      = (StatsManager.updateWordCount Date_getTime (Main.statsManager p)
           today now (name file) r ok).1.
Proof.
  intros Hon Hmd Hitem Hdead.
  destruct (analyzeText_returns (Main.textAnalyzer p) c) as [r Hr].
  unfold updateWordCount, Main.updateWordCount.
  rewrite (isMarkdownFile_md _ Hmd), Hon. cbn [negb].
  unfold CacheService.has. rewrite Hitem.
  rewrite (proj2 (expired_true th _)) by done.
  cbv beta iota zeta. rewrite Hr.
  destruct (StatsManager.updateWordCount Date_getTime (Main.statsManager p)
              today now (name file) r ok) as [m0 comp0] eqn:Hup0.
  cbn [fst Main.cacheService Main.statsManager]. split.
  - unfold CacheService.set. by rewrite lookup_insert_eq.
  - exists r. split; [done|]. by rewrite Hup0.
Qed.

End MainFacts.

(** * The helpers and the validators *)

Section HelperFacts.


Lemma throttleRun_spaced delay lastCall times :
  spaced delay lastCall (throttleRun delay lastCall times).
Proof.
  revert lastCall. induction times as [|now rest IH]; intros lastCall; [done|].
  cbn [throttleRun]. unfold helpers.throttled.
  destruct (Z.leb_spec delay (now - lastCall)); cbn [spaced]; [|done].
  split; [done|]. apply IH.
Qed.

Lemma throttleRun_sublist delay lastCall times :
  throttleRun delay lastCall times `sublist_of` times.
Proof.
  revert lastCall. induction times as [|now rest IH]; intros lastCall; [done|].
  cbn [throttleRun]. unfold helpers.throttled.
  destruct (Z.leb_spec delay (now - lastCall)).
  - by apply sublist_skip.
  - by apply sublist_cons.
Qed.

(** X8.  Whatever the clock readings at which a throttled function is
    called, the calls that reach [func] are calls that were made, in the
    order they were made, each at least [delay] after the one before it and
    the first at least [delay] after reading 0; a call that comes sooner is
    dropped, and a call that comes [delay] or more after the last one that
    ran runs at once. *)
Theorem throttle_spacing (delay : Z) (times : list Z) :
  spaced delay 0 (throttleRun delay 0 times)
  ∧ throttleRun delay 0 times `sublist_of` times
  ∧ ∀ lastCall now,
      (helpers.throttled delay lastCall now).2
      = bool_decide (delay ≤ now - lastCall)
      ∧ (helpers.throttled delay lastCall now).1
        = (if bool_decide (delay ≤ now - lastCall) then now else lastCall).
Proof.
  split_and!.
  - apply throttleRun_spaced.
  - apply throttleRun_sublist.
  - intros lastCall now. unfold helpers.throttled.
    destruct (Z.leb_spec delay (now - lastCall)).
    + by rewrite bool_decide_eq_true_2.
    + by rewrite bool_decide_eq_false_2 by lia.
Qed.

End HelperFacts.

Section DaysDifference.

Variable Date_getTime : jsval → option Z.

(** The rounding of the subtraction shows on time values [2 ^ 53] or more
    apart: from one millisecond after the start of the year -200000 to the
    start of the year 200000 the exact floor is 146096999 days, and the
    code's result is 146097000. *)
Example dayDifference_rounds :
  let t1 := IsoDate.daysFromCivil (-200000) 1 1 * msPerDay + 1 in
  let t2 := IsoDate.daysFromCivil 200000 1 1 * msPerDay in
  dayDifference t1 t2 = 146097000
  ∧ (t2 - t1) `div` msPerDay = 146096999
  ∧ Z.abs t1 ≤ 8640000000000000 ∧ Z.abs t2 ≤ 8640000000000000.
Proof. vm_compute. split_and!; congruence. Qed.

(** X9.  For two dates that the host can read, the day difference is
    negative exactly when the second date is the earlier one, 0 exactly when
    it is less than a day later, and 1 exactly when it is at least one day
    and less than two days later.  For time values less than [2 ^ 53]
    milliseconds apart it is the exact floor of their difference over the
    milliseconds of a day; taken backwards it is then the negated difference
    only when the two time values lie a whole number of days apart, and one
    less otherwise.  The difference from a date to itself is 0. *)
Theorem getDaysDifference_backwards (date1 date2 : string) (t1 t2 : Z) :
  Date_getTime (VStr date1) = Some t1 →
  Date_getTime (VStr date2) = Some t2 →
  ∃ d, helpers.getDaysDifference Date_getTime date1 date2 = Some d
    ∧ (d < 0 ↔ t2 < t1)
    ∧ (d = 0 ↔ 0 ≤ t2 - t1 < msPerDay)
    ∧ (d = 1 ↔ msPerDay ≤ t2 - t1 < 2 * msPerDay)
    ∧ (Z.abs (t2 - t1) < 2 ^ 53 →
       d = (t2 - t1) `div` msPerDay
       ∧ helpers.getDaysDifference Date_getTime date2 date1
         = Some (if (t2 - t1) `mod` msPerDay =? 0
                 then - ((t2 - t1) `div` msPerDay)
                 else - ((t2 - t1) `div` msPerDay) - 1))
    ∧ helpers.getDaysDifference Date_getTime date1 date1 = Some 0.
Proof.
  intros H1 H2.
  unfold helpers.getDaysDifference. rewrite H1, H2.
  exists (dayDifference t1 t2). split; [done|].
  assert (Hd : 0 < msPerDay) by done.
  pose proof (Z.div_mod (t2 - t1) msPerDay ltac:(lia)) as Hdm.
  pose proof (Z.mod_pos_bound (t2 - t1) msPerDay Hd) as Hb.
  pose proof (dayDifference_cases t1 t2) as Hcases. cbv zeta in Hcases.
  set (d := dayDifference t1 t2) in *.
  set (q := (t2 - t1) `div` msPerDay) in *.
  split_and!.
  - split; intros H; destruct Hcases as [[_ ->]|[[??]|[??]]]; nia.
  - split; intros H; destruct Hcases as [[_ ->]|[[??]|[??]]]; nia.
  - split; intros H; destruct Hcases as [[_ ->]|[[??]|[??]]]; nia.
  - intros Hsmall. split.
    { destruct Hcases as [[_ ->]|[[??]|[??]]]; [done|..];
        subst d q; rewrite dayDifference_exact in * by done; lia. }
    rewrite dayDifference_exact by lia. f_equal.
    destruct (Z.eqb_spec ((t2 - t1) `mod` msPerDay) 0) as [He|Hne].
    + symmetry. apply (Z.div_unique_pos _ _ _ 0); lia.
    + symmetry.
      apply (Z.div_unique_pos _ _ _ (msPerDay - (t2 - t1) `mod` msPerDay));
        lia.
  - unfold dayDifference. by rewrite Z.sub_diag.
Qed.

End DaysDifference.

Section BlankText.
Import Js.

Lemma dropWhile_nil {A} (p : A → bool) (l : list A) :
  dropWhile p l = [] ↔ forallb p l = true.
Proof.
  induction l as [|x l IH]; cbn; [done|].
  destruct (p x); cbn; [done|]. split; [done|]. done.
Qed.

Lemma forallb_reverse {A} (p : A → bool) (l : list A) :
  forallb p (reverse l) = forallb p l.
Proof.
  induction l as [|x l IH]; [done|].
  rewrite reverse_cons, forallb_app, IH. cbn.
  rewrite andb_true_r. apply andb_comm.
Qed.

Lemma forallb_dropWhile {A} (p : A → bool) (l : list A) :
  forallb p (dropWhile p l) = forallb p l.
Proof.
  induction l as [|x l IH]; [done|]. cbn [dropWhile].
  destruct (p x) eqn:Hx; cbn [forallb]; rewrite Hx; [by rewrite IH|done].
Qed.

(** The trimmed text is empty exactly when the text is white space
    throughout. *)
Lemma trim_nil s : trim s = [] ↔ forallb isSpace s = true.
Proof.
  unfold trim, trimEnd, trimStart.
  rewrite <- (forallb_dropWhile isSpace s).
  rewrite <- (forallb_reverse isSpace (dropWhile isSpace s)).
  rewrite <- dropWhile_nil.
  split.
  - intros H. apply (f_equal reverse) in H. by rewrite reverse_involutive in H.
  - by intros ->.
Qed.

Lemma blank_test s :
  bool_decide (s = []) || (length (trim s) =? 0)%nat = forallb isSpace s.
Proof.
  apply eq_true_iff_eq. rewrite orb_true_iff, bool_decide_eq_true, Nat.eqb_eq.
  rewrite <- trim_nil, length_zero_iff_nil.
  split; [|by right]. by intros [->|H].
Qed.

(** X10.  [isEmpty] answers yes exactly for the texts that consist of white
    space and line terminators only, the empty text among them. *)
Theorem isEmpty_blank (str : list Z) :
  helpers.isEmpty str = forallb isSpace str.
Proof. apply blank_test. Qed.

(** [re.test(s)] for a pattern that is one class: some code unit of the
    text is in the class. *)
Lemma test_class cls s :
  test (REGEX_PATTERNS.plain (Chars cls)) s = existsb (inClass cls) s.
Proof.
  unfold test. generalize (@None Z).
  induction s as [|x s IH]; intros prev; [done|].
  cbn [testFrom existsb]. unfold exec at 1.
  cbn [source REGEX_PATTERNS.plain rmatch].
  unfold matchesClass. cbn [ignoreCase REGEX_PATTERNS.plain].
  destruct (inClass cls x); [done|]. apply IH.
Qed.

(** X11.  A file name is accepted exactly when it is not blank, has at most
    255 code units and none of them is one of the nine characters of the
    pattern; a blank name is turned away before its length is looked at. *)
Theorem validateFileName_accepts (fileName : list Z) :
  (validators.isValid (validators.validateFileName fileName) = true
   ↔ forallb isSpace fileName = false
     ∧ (length fileName ≤ 255)%nat
     ∧ Forall (λ c, c ∉ [60; 62; 58; 34; 47; 92; 124; 63; 42]) fileName)
  ∧ (forallb isSpace fileName = true →
     validators.validateFileName fileName
     = validators.invalid "文件名不能为空").
Proof.
  unfold validators.validateFileName. rewrite blank_test.
  unfold validators.invalidChars, set. rewrite test_class.
  split.
  - destruct (forallb isSpace fileName); [by split; [|intros [? _]]|].
    destruct (Nat.ltb_spec 255 (length fileName)) as [Hlen|Hlen];
      [split; [done|]; intros (_ & ? & _); lia|].
    destruct (existsb _ fileName) eqn:Hex; cbn.
    + split; [done|]. intros (_ & _ & Hall).
      apply existsb_exists in Hex as (c & Hin & Hc).
      rewrite Forall_forall in Hall. apply list_elem_of_In in Hin.
      specialize (Hall c Hin). exfalso. apply Hall.
      unfold inClass in Hc. cbn in Hc.
      rewrite orb_false_r in Hc.
      rewrite !orb_true_iff, !Z.eqb_eq in Hc.
      rewrite !elem_of_cons. vm_compute ch in Hc. tauto.
    + split; [|done]. intros _. split_and!; [done|done|].
      apply Forall_forall. intros c Hin Hbad.
      apply list_elem_of_In in Hin.
      assert (inClass {| negated := false;
                items := [One (ch "<"); One (ch ">"); One (ch ":"); One 34;
                          One (ch "/"); One (ch "\"); One (ch "|");
                          One (ch "?"); One (ch "*")] |} c = true) as Hc.
      { unfold inClass. cbn. rewrite orb_false_r.
        rewrite !orb_true_iff, !Z.eqb_eq. vm_compute ch.
        rewrite !elem_of_cons, elem_of_nil in Hbad. tauto. }
      assert (existsb (inClass {| negated := false;
                items := [One (ch "<"); One (ch ">"); One (ch ":"); One 34;
                          One (ch "/"); One (ch "\"); One (ch "|");
                          One (ch "?"); One (ch "*")] |}) fileName = true)
        as Hex'.
      { apply existsb_exists. by exists c. }
      congruence.
  - by intros ->.
Qed.

End BlankText.

Section GoalValidator.


End GoalValidator.

Section StatsValidator.

Lemma find_None_Forall {A} (f : A → bool) (l : list A) :
  List.find f l = None ↔ Forall (λ x, f x = false) l.
Proof.
  induction l as [|x l IH]; cbn; [by split|].
  rewrite Forall_cons. destruct (f x); [|by rewrite IH; intuition].
  split; [done|]. by intros [? _].
Qed.

Lemma validateStats_valid (stats : jsval) :
  validators.isValid (validators.validateStats stats) = true
  ↔ truthy stats = true ∧ validators.isObject stats = true
    ∧ Forall (λ f, validators.js_in f stats = true) validators.requiredFields
    ∧ Forall (λ f, validators.badNumber (validators.js_index stats f) = false)
        validators.numericFields
    ∧ ∃ b, validators.js_index stats "completed" = VBool b.
Proof.
  unfold validators.validateStats.
  destruct (truthy stats); [|by split; [|intros [? _]]].
  destruct (validators.isObject stats); [|by split; [|intros (_ & ? & _)]].
  cbn [negb orb].
  destruct (List.find _ validators.requiredFields) as [f|] eqn:Hreq.
  { split; [done|]. intros (_ & _ & Hall & _).
    assert (Hall' : Forall (λ f, negb (validators.js_in f stats) = false)
                      validators.requiredFields).
    { eapply Forall_impl; [exact Hall|]. by intros ? ->. }
    apply find_None_Forall in Hall'. congruence. }
  apply find_None_Forall in Hreq.
  destruct (List.find _ validators.numericFields) as [f|] eqn:Hnum.
  { split; [done|]. intros (_ & _ & _ & Hall & _).
    apply find_None_Forall in Hall. congruence. }
  apply find_None_Forall in Hnum.
  assert (Hreq' : Forall (λ f, validators.js_in f stats = true)
                    validators.requiredFields).
  { eapply Forall_impl; [exact Hreq|]. intros ?. by apply negb_false_iff. }
  destruct (validators.js_index stats "completed") eqn:Hc; cbn;
    try (split; [done|]; by intros (_ & _ & _ & _ & [? ?])).
  split; [|done]. intros _. split_and!; try done. by eexists.
Qed.

Lemma validateStats_shape (stats : jsval) :
  validators.isValid (validators.validateStats stats) = true
  ↔ ∃ fields,
      stats = VObj fields
      ∧ is_Some (fields !! "date")
      ∧ (∀ f, f ∈ validators.numericFields →
              ∃ z, fields !! f = Some (VNum z) ∧ 0 ≤ z)
      ∧ ∃ b, fields !! "completed" = Some (VBool b).
Proof.
  rewrite validateStats_valid. split.
  - intros (_ & Hobj & Hreq & Hnum & [b Hb]).
    destruct stats as [| | | | |items|fields]; try done.
    exists fields. split; [done|]. split_and!.
    + apply Forall_cons in Hreq as [Hd _]. cbn in Hd.
      by apply bool_decide_eq_true in Hd.
    + intros f Hf. rewrite Forall_forall in Hnum. specialize (Hnum f Hf).
      cbn in Hnum. destruct (fields !! f) as [[]|]; cbn in Hnum; try done.
      eexists. split; [done|]. by apply Z.ltb_ge.
    + exists b. cbn in Hb.
      destruct (fields !! "completed") as [v|]; cbn in Hb; [by subst|done].
  - intros (fields & -> & Hd & Hnum & [b Hb]). split_and!; try done.
    + apply Forall_forall. intros f Hf. cbn. apply bool_decide_eq_true.
      destruct (decide (f = "date")) as [->|Hnd]; [done|].
      destruct (decide (f = "completed")) as [->|Hnc]; [by rewrite Hb|].
      destruct (Hnum f) as (z & -> & _); [|done].
      unfold validators.requiredFields in Hf.
      unfold validators.numericFields.
      rewrite !elem_of_cons, elem_of_nil in Hf.
      rewrite !elem_of_cons. tauto.
    + apply Forall_forall. intros f Hf.
      destruct (Hnum f Hf) as (z & Hz & Hpos). cbn. rewrite Hz. cbn.
      by apply Z.ltb_ge.
    + exists b. cbn. by rewrite Hb.
Qed.

(** X13.  [validateStats] accepts exactly the objects that have a [date]
    property of any kind, a number that is not negative in each of the eight
    numeric properties and a boolean [completed]; arrays, [null] and
    primitive values are turned away, and the change log is not looked at. *)
Theorem validateStats_accepts (stats : jsval) :
  validators.isValid (validators.validateStats stats) = true
  ↔ ∃ fields,
      stats = VObj fields
      ∧ is_Some (fields !! "date")
      ∧ (∀ f, f ∈ validators.numericFields →
              ∃ z, fields !! f = Some (VNum z) ∧ 0 ≤ z)
      ∧ ∃ b, fields !! "completed" = Some (VBool b).
Proof. apply validateStats_shape. Qed.

(** X14.  For every stored object that [validateStats] accepts, the
    validation step of [loadData] keeps the six counters, the total and the
    [completed] flag exactly as stored; only the goal is replaced by 0. *)
Theorem validateStats_accepted_loads (stats : jsval) :
  validators.isValid (validators.validateStats stats) = true →
  ∃ fields item,
    stats = VObj fields
    ∧ StatsManager.validateItem stats = Some item
    ∧ (∀ name proj, (name, proj) ∈ counterFields →
         fields !! name = Some (proj item) ∧ ∃ z, proj item = VNum z ∧ 0 ≤ z)
    ∧ fields !! "total" = Some (StatsManager.v_total item)
    ∧ fields !! "completed" = Some (StatsManager.v_completed item)
    ∧ StatsManager.v_goal item = 0.
Proof.
  rewrite validateStats_shape.
  intros (fields & -> & Hd & Hnum & [b Hb]).
  eexists fields, _. split; [done|]. split; [apply validateItem_obj|].
  assert (Hkeep : ∀ f, f ∈ validators.numericFields →
            ∃ z, fields !! f = Some (VNum z) ∧ 0 ≤ z
                 ∧ js_or (StatsManager.field fields f) (VNum 0) = VNum z).
  { intros f Hf. destruct (Hnum f Hf) as (z & Hz & Hpos).
    exists z. split_and!; try done.
    unfold StatsManager.field. rewrite Hz. cbn. unfold js_or. cbn.
    destruct (Z.eqb_spec z 0) as [->|]; done. }
  cbn [StatsManager.v_total StatsManager.v_completed StatsManager.v_goal].
  split_and!; try done.
  - intros name proj Hin. unfold counterFields in Hin.
    rewrite !elem_of_cons, elem_of_nil in Hin.
    destruct Hin as [H|[H|[H|[H|[H|[H|[]]]]]]]; injection H as -> ->; cbn;
      match goal with
      | |- fields !! ?f = _ ∧ _ =>
          destruct (Hkeep f) as (z & Hz & Hpos & ->);
            [unfold validators.numericFields; repeat constructor|];
            split; [done|]; by exists z
      end.
  - destruct (Hkeep "total") as (z & Hz & Hpos & ->);
      [unfold validators.numericFields; repeat constructor|]. done.
  - unfold StatsManager.field. rewrite Hb. cbn. by destruct b.
Qed.

End StatsValidator.

(** * More on the classifier *)

Section ClassifierInvariant.
Import Js TextAnalyzer.

Lemma runEnd_le rest j : (runEnd rest j ≤ j + length rest)%nat.
Proof.
  revert j. induction rest as [|x rest IH]; intros j; cbn [runEnd length];
    [lia|].
  destruct (testChar REGEX_PATTERNS.ENGLISH x); [|lia].
  specialize (IH (S j)). lia.
Qed.

Lemma length_substring (text : list Z) (i j : nat) :
  (i ≤ j)%nat → (j ≤ length text)%nat →
  length (substring text i j) = (j - i)%nat.
Proof.
  intros Hij Hj. unfold substring.
  rewrite Nat.min_l, Nat.max_r by lia.
  rewrite length_take, length_drop. lia.
Qed.

(** The end of the run of letters that starts at a letter. *)
Lemma runEnd_at_letter text i char :
  text !! i = Some char →
  testChar REGEX_PATTERNS.ENGLISH char = true →
  (i < runEnd (drop i text) i ≤ length text)%nat.
Proof.
  intros Hi Hc. pose proof (lookup_lt_Some _ _ _ Hi) as Hlt.
  split.
  - rewrite (drop_S _ _ _ Hi). cbn [runEnd]. rewrite Hc.
    pose proof (runEnd_ge (drop (S i) text) (S i)). lia.
  - pose proof (runEnd_le (drop i text) i) as Hle.
    rewrite length_drop in Hle. lia.
Qed.

Lemma countBody_inv s text i char acc :
  text !! i = Some char →
  countInv s text i acc →
  countInv s text (S (countBody s text i char acc).1)
    (countBody s text i char acc).2.
Proof.
  intros Hi (Hlen & Hpos & Hsum & Hw & Htog).
  pose proof (lookup_lt_Some _ _ _ Hi) as Hlt.
  unfold countInv, nonNegative, charSum, respectsToggles in *.
  destruct Hpos as (? & ? & ? & ? & ? & ?).
  destruct Htog as (? & ? & ? & ? & ? & ?).
  unfold countBody.
  repeat (case_match; cbn [fst snd r_chinese r_english r_punctuation
                             r_numbers r_spaces r_words]);
    repeat match goal with
    | H : _ && _ = true |- _ => apply andb_true_iff in H as [? ?]
    end;
    try (destruct (runEnd_at_letter text i char Hi ltac:(done)) as [Hj1 Hj2];
         try rewrite length_substring by lia);
    try match goal with
    | H : (1 <? length (substring text i ?j))%nat = true |- _ =>
        apply Nat.ltb_lt in H; rewrite length_substring in H by lia
    end;
    split_and!; try lia; try congruence; try assumption;
    try (intros Hoff; first [lia | tauto | congruence]).
Qed.

Lemma countLoop_inv s text fuel :
  ∀ i acc r,
    countInv s text i acc →
    countLoop s text fuel i acc = Some r →
    ∃ j, countInv s text j r.
Proof.
  induction fuel as [|fuel IH]; intros i acc r Hinv; cbn [countLoop].
  - destruct (text !! i); [done|]. intros [= <-]. by exists i.
  - destruct (text !! i) as [char|] eqn:Hi; [|intros [= <-]; by exists i].
    pose proof (countBody_inv s text i char acc Hi Hinv) as Hinv'.
    destruct (countBody s text i char acc) as [i' acc'].
    by apply IH.
Qed.

Lemma countCharacters_inv s text :
  ∃ r j, countCharacters s text = Some r ∧ countInv s text j r.
Proof.
  destruct (countCharacters_returns s text) as [r Hr].
  exists r. unfold countCharacters in *.
  assert (Hinit : countInv s text 0 zeroCounts).
  { unfold countInv, nonNegative, charSum, respectsToggles, zeroCounts; cbn.
    split_and!; (lia || done). }
  destruct (countLoop_inv s text _ _ _ _ Hinit Hr) as [j Hj].
  by exists j.
Qed.

(** X15.  Whatever the settings and the text, the classifier returns, no
    counter is negative, the five character counters together do not
    exceed the number of code units of the text (a code unit is counted in
    at most one category), and every counted word accounts for at least two
    counted letters. *)
Theorem countCharacters_bounds (s : WordCountSettings) (text : list Z) :
  ∃ r, countCharacters s text = Some r
       ∧ nonNegative r
       ∧ charSum r ≤ Z.of_nat (length text)
       ∧ 2 * r_words r ≤ r_english r.
Proof.
  destruct (countCharacters_inv s text)
    as (r & j & Hr & Hlen & Hpos & Hsum & Hw & _).
  exists r. split_and!; try done. lia.
Qed.

(** X16.  A category whose toggle is off is never counted: its counter is 0
    for every text.  With alphabetic tracking off no word is counted
    either, and with word counting off [words] is 0 while the letters are
    still counted. *)
Theorem countCharacters_respects_toggles (s : WordCountSettings)
    (text : list Z) :
  ∃ r, countCharacters s text = Some r ∧ respectsToggles s r.
Proof.
  destruct (countCharacters_inv s text) as (r & j & Hr & _ & _ & _ & _ & Ht).
  by exists r.
Qed.

End ClassifierInvariant.

Section AsciiInChinese.
Import Js TextAnalyzer.

Lemma testChar_NUMBERS x :
  testChar REGEX_PATTERNS.NUMBERS x = (48 <=? x) && (x <=? 57).
Proof.
  unfold REGEX_PATTERNS.NUMBERS, set. rewrite testChar_class.
  unfold inClass. cbn. by rewrite orb_false_r.
Qed.

Lemma testChar_FULL_WIDTH_NUMBERS x :
  testChar REGEX_PATTERNS.FULL_WIDTH_NUMBERS x
  = (0xff10 <=? x) && (x <=? 0xff19).
Proof.
  unfold REGEX_PATTERNS.FULL_WIDTH_NUMBERS, set. rewrite testChar_class.
  unfold inClass. cbn. by rewrite orb_false_r.
Qed.

(** The range from [0] to [U] is one of the items of the class. *)
Lemma testChar_CHINESE_ascii x :
  48 ≤ x ≤ 85 → testChar REGEX_PATTERNS.CHINESE x = true.
Proof.
  intros Hx. unfold REGEX_PATTERNS.CHINESE, set. rewrite testChar_class.
  unfold inClass. cbn [negated items xorb].
  apply existsb_exists. exists (Range 48 85). split.
  - vm_compute. do 14 right. by left.
  - cbn. apply andb_true_iff. rewrite !Z.leb_le. lia.
Qed.

Lemma countBody_fallsToChinese s text i x acc :
  trackChinese s = true →
  fallsToChinese s x →
  countBody s text i x acc
  = (i, {| r_chinese := r_chinese acc + 1; r_english := r_english acc;
           r_punctuation := r_punctuation acc; r_numbers := r_numbers acc;
           r_spaces := r_spaces acc; r_words := r_words acc |}).
Proof.
  intros Hc (Hx & Hn & He). unfold countBody.
  rewrite testChar_NUMBERS, testChar_FULL_WIDTH_NUMBERS, testChar_ENGLISH.
  rewrite (testChar_CHINESE_ascii x Hx), Hc.
  replace (trackNumbers s && _) with false; cycle 1.
  { symmetry. destruct (trackNumbers s); [|done]. cbn.
    specialize (Hn eq_refl).
    apply orb_false_iff. split; apply andb_false_iff; rewrite !Z.leb_gt; lia. }
  replace (trackEnglish s && isLetter x) with false; [done|].
  symmetry. destruct (trackEnglish s); [|done]. cbn.
  specialize (He eq_refl). unfold isLetter.
  apply orb_false_iff. split; apply andb_false_iff; rewrite !Z.leb_gt; lia.
Qed.

Lemma countLoop_fallsToChinese s text :
  trackChinese s = true →
  Forall (fallsToChinese s) text →
  ∀ fuel i acc,
    (i ≤ length text)%nat → (length text ≤ i + fuel)%nat →
    countLoop s text fuel i acc
    = Some {| r_chinese := r_chinese acc + Z.of_nat (length text - i);
              r_english := r_english acc;
              r_punctuation := r_punctuation acc;
              r_numbers := r_numbers acc;
              r_spaces := r_spaces acc; r_words := r_words acc |}.
Proof.
  intros Hc Hall. induction fuel as [|fuel IH]; intros i acc Hi Hfuel;
    cbn [countLoop].
  - rewrite lookup_ge_None_2 by lia.
    replace (length text - i)%nat with 0%nat by lia.
    rewrite Z.add_0_r. by destruct acc.
  - destruct (text !! i) as [x|] eqn:Hx.
    + pose proof (lookup_lt_Some _ _ _ Hx) as Hlt.
      rewrite countBody_fallsToChinese;
        [|done|by eapply Forall_lookup_1 in Hall].
      rewrite IH by lia. cbn. do 2 f_equal. lia.
    + apply lookup_ge_None_1 in Hx.
      replace (length text - i)%nat with 0%nat by lia.
      rewrite Z.add_0_r. by destruct acc.
Qed.

(** X17.  The tail of the [CHINESE] class reads as ASCII, so with Chinese
    tracking on every code unit from [0] to [U] that the number and the
    letter branch do not take is counted as a Chinese character: the
    digits when number tracking is off, the letters [A] to [U] when
    alphabetic tracking is off, and the seven characters between [9]
    and [A] always. *)
Theorem countCharacters_ascii_as_chinese (s : WordCountSettings)
    (text : list Z) :
  trackChinese s = true →
  Forall (fallsToChinese s) text →
  countCharacters s text = Some (onlyChinese (Z.of_nat (length text))).
Proof.
  intros Hc Hall. unfold countCharacters.
  rewrite (countLoop_fallsToChinese s text Hc Hall) by lia.
  by rewrite Nat.sub_0_r.
Qed.

End AsciiInChinese.

Section StrippedText.
Import Js TextAnalyzer.

(** The last step of the stripper is the white-space normalisation of what
    the ten patterns before it leave. *)
Lemma preprocessText_shape text :
  ∃ t, preprocessText text = trim (collapse t).
Proof. unfold preprocessText. rewrite replace_reSpaces. by eexists. Qed.

Lemma tidy_head s :
  tidy false s → from_option isSpace false (head s) = false → tidy true s.
Proof.
  destruct s as [|x s]; [done|]. cbn. intros H Hx. by rewrite Hx in *.
Qed.

Lemma last_trimEnd s : from_option isSpace false (last (trimEnd s)) = false.
Proof.
  unfold trimEnd. rewrite last_reverse. apply dropWhile_head.
Qed.

Lemma normalised_trim_collapse t : normalised (trim (collapse t)).
Proof.
  split.
  - unfold trim. apply tidy_head.
    + apply tidy_trimEnd, tidy_trimStart, (tidy_collapseFrom false).
    + apply trimEnd_head, dropWhile_head.
  - apply last_trimEnd.
Qed.

Lemma preprocessText_tidy (text : list Z) :
  normalised (preprocessText text)
  ∧ trim (preprocessText text) = preprocessText text
  ∧ collapse (preprocessText text) = preprocessText text.
Proof.
  destruct (preprocessText_shape text) as [t ->].
  pose proof (normalised_trim_collapse t) as Hn.
  split_and!; [done|apply trim_idemp|].
  destruct Hn as [Ht _]. by apply collapseFrom_tidy, (tidy_weaken true).
Qed.

(** X18.  Whatever the text, what the regex stripper returns neither starts
    nor ends with white space, and each white-space code unit in it is a
    space that follows a code unit that is not white space: no tab, no line
    break and no run of spaces survives.  Trimming it or collapsing its
    white space again changes nothing. *)
Theorem preprocessText_normalised (text : list Z) :
  normalised (preprocessText text)
  ∧ trim (preprocessText text) = preprocessText text
  ∧ collapse (preprocessText text) = preprocessText text.
Proof. apply preprocessText_tidy. Qed.

Lemma isSpace_32 x : isSpace x = false → x ≠ 32.
Proof. by intros H ->. Qed.

Lemma spacesOf_cons x s :
  spacesOf (x :: s) = if decide (x = 32) then S (spacesOf s) else spacesOf s.
Proof. unfold spacesOf. rewrite filter_cons. by case_decide. Qed.

Lemma splitFrom_tidy s :
  ∀ cur,
    tidy (bool_decide (cur = [])) s →
    (s = [] → cur ≠ []) →
    from_option isSpace false (last s) = false →
    Forall (λ w, w ≠ []) (splitFrom 32 cur s)
    ∧ length (splitFrom 32 cur s) = S (spacesOf s).
Proof.
  induction s as [|x s IH]; intros cur Ht Hcur Hlast.
  - cbn. split; [|done]. apply Forall_singleton. by apply Hcur.
  - cbn [splitFrom tidy] in *. rewrite spacesOf_cons.
    destruct (isSpace x) eqn:Hx.
    + destruct Ht as (-> & Hb & Ht). cbn [Z.eqb Pos.eqb].
      apply bool_decide_eq_false in Hb.
      assert (Hs : s ≠ []) by (by intros ->).
      destruct (IH [] Ht) as [Hall Hlen]; [done| |].
      { destruct s; [done|]. by rewrite last_cons_cons in Hlast. }
      rewrite decide_True by done. split; [by apply Forall_cons|].
      cbn [length]. by rewrite Hlen.
    + pose proof (isSpace_32 x Hx) as Hne.
      rewrite (proj2 (Z.eqb_neq x 32)) by done.
      rewrite decide_False by done.
      apply IH.
      * rewrite bool_decide_eq_false_2; [done|]. by destruct cur.
      * intros _. by destruct cur.
      * destruct s; [done|]. by rewrite last_cons_cons in Hlast.
Qed.

(** X19.  The simple word count is 0 when the stripped text is empty and
    otherwise one more than the number of spaces of the stripped text:
    every piece between two spaces is a word, and the filter for empty
    pieces never removes one. *)
Theorem calculateSimpleWordCount_spaces (text : list Z) :
  calculateSimpleWordCount text
  = (if bool_decide (preprocessText text = []) then 0
     else S (spacesOf (preprocessText text)))%nat
  ∧ (preprocessText text ≠ [] →
     filter (λ word, (0 < length word)%nat) (split (preprocessText text) 32)
     = split (preprocessText text) 32).
Proof.
  unfold calculateSimpleWordCount.
  destruct (preprocessText_tidy text) as ([Ht Hl] & _ & _).
  assert (Hkeep : preprocessText text ≠ [] →
            filter (λ word, (0 < length word)%nat)
              (split (preprocessText text) 32)
            = split (preprocessText text) 32
            ∧ length (split (preprocessText text) 32)
              = S (spacesOf (preprocessText text))).
  { intros Hne. unfold split.
    destruct (splitFrom_tidy (preprocessText text) []) as [Hall Hlen];
      [done..|].
    split; [|done].
    clear Hlen. induction Hall as [|w l Hw Hall IH]; [done|].
    rewrite filter_cons_True; [by rewrite IH|].
    destruct w; [done|cbn; lia]. }
  split; [|apply Hkeep].
  case_bool_decide as Hp; [done|].
  destruct (Hkeep Hp) as [-> ->]. done.
Qed.

End StrippedText.

Section ClassifierConcat.
Import Js TextAnalyzer.

Variable s : WordCountSettings.

Lemma countLoop_more_fuel text fuel k :
  ∀ i acc r,
    countLoop s text fuel i acc = Some r →
    countLoop s text (fuel + k) i acc = Some r.
Proof.
  induction fuel as [|fuel IH]; intros i acc r; cbn [countLoop Nat.add].
  - destruct (text !! i) eqn:Hi; [done|]. intros [= <-].
    destruct k; cbn [countLoop]; by rewrite Hi.
  - destruct (text !! i) as [x|]; [|done].
    destruct (countBody s text i x acc) as [i' acc']. apply IH.
Qed.

Lemma countBody_index_le text i char acc :
  text !! i = Some char →
  (S (countBody s text i char acc).1 ≤ length text)%nat.
Proof.
  intros Hi. pose proof (lookup_lt_Some _ _ _ Hi) as Hlt.
  unfold countBody.
  repeat (case_match; cbn [fst]; try lia).
  all: match goal with
       | H : _ && testChar REGEX_PATTERNS.ENGLISH _ = true |- _ =>
           apply andb_true_iff in H as [_ H];
           destruct (runEnd_at_letter text i _ Hi H); lia
       end.
Qed.

(** *** The loop on the first part of a text *)

Lemma runEnd_app l b j :
  (forallb isLetter l = true → from_option isLetter false (head b) = false) →
  runEnd (l ++ b) j = runEnd l j.
Proof.
  revert j. induction l as [|x l IH]; intros j Hb; cbn [app].
  - destruct b as [|y b]; [done|]. cbn [runEnd].
    rewrite testChar_ENGLISH. cbn in Hb. by rewrite Hb.
  - cbn [runEnd]. rewrite testChar_ENGLISH.
    destruct (isLetter x) eqn:Hx; [|done].
    apply IH. intros Hl. apply Hb. cbn. by rewrite Hx.
Qed.

Lemma last_drop (a : list Z) i :
  (i < length a)%nat → last (drop i a) = last a.
Proof.
  intros Hi. rewrite <- (take_drop i a) at 2.
  rewrite last_app. destruct (last (drop i a)) eqn:Hl; [done|].
  apply last_None in Hl. apply (f_equal length) in Hl.
  rewrite length_drop in Hl. cbn in Hl. lia.
Qed.

Lemma forallb_last (p : Z → bool) l :
  l ≠ [] → forallb p l = true → from_option p false (last l) = true.
Proof.
  intros Hne Hl. destruct (exists_last Hne) as (l' & x & ->).
  rewrite last_snoc. rewrite forallb_app in Hl.
  apply andb_true_iff in Hl as [_ Hx]. cbn in *. by rewrite andb_true_r in Hx.
Qed.

Lemma substring_app_l (a b : list Z) i j :
  (i ≤ j)%nat → (j ≤ length a)%nat →
  substring (a ++ b) i j = substring a i j.
Proof.
  intros Hij Hj. unfold substring. rewrite Nat.min_l, Nat.max_r by lia.
  rewrite drop_app_le by lia. rewrite take_app_le; [done|].
  rewrite length_drop. lia.
Qed.

Lemma countBody_app_l a b i char acc :
  noWordAcross a b →
  a !! i = Some char →
  countBody s (a ++ b) i char acc = countBody s a i char acc.
Proof.
  intros Hab Hi. pose proof (lookup_lt_Some _ _ _ Hi) as Hlt.
  assert (Hprev : (a ++ b) !! (i - 1)%nat = a !! (i - 1)%nat).
  { apply lookup_app_l. lia. }
  assert (Hrun : runEnd (drop i (a ++ b)) i = runEnd (drop i a) i).
  { rewrite drop_app_le by lia. apply runEnd_app. intros Hl. apply Hab.
    rewrite <- (last_drop a i) by done.
    apply forallb_last; [|done].
    intros Hnil. apply (f_equal length) in Hnil.
    rewrite length_drop in Hnil. cbn in Hnil. lia. }
  unfold countBody. rewrite Hprev, Hrun.
  destruct (testChar REGEX_PATTERNS.ENGLISH char) eqn:Hc.
  - destruct (runEnd_at_letter a i char Hi Hc) as [Hj1 Hj2].
    by rewrite substring_app_l by lia.
  - by rewrite !andb_false_r.
Qed.

Lemma countLoop_app_l a b fuel :
  noWordAcross a b →
  ∀ i acc r,
    (i ≤ length a)%nat →
    countLoop s a fuel i acc = Some r →
    ∃ n, ∀ k, countLoop s (a ++ b) (n + k) i acc
              = countLoop s (a ++ b) k (length a) r.
Proof.
  intros Hab. induction fuel as [|fuel IH]; intros i acc r Hi;
    cbn [countLoop].
  - destruct (a !! i) eqn:Ha; [done|]. intros [= <-].
    apply lookup_ge_None_1 in Ha. exists 0%nat. intros k. cbn [Nat.add].
    by replace i with (length a) by lia.
  - destruct (a !! i) as [char|] eqn:Ha.
    + pose proof (countBody_index_le a i char acc Ha) as Hle.
      destruct (countBody s a i char acc) as [i' acc'] eqn:Hbody.
      cbn [fst] in Hle. intros Hr.
      destruct (IH (S i') acc' r Hle Hr) as [n Hn].
      exists (S n). intros k. cbn [Nat.add countLoop].
      rewrite (lookup_app_l_Some _ _ _ _ Ha).
      rewrite (countBody_app_l a b i char acc Hab Ha), Hbody. apply Hn.
    + intros [= <-]. apply lookup_ge_None_1 in Ha.
      exists 0%nat. intros k. cbn [Nat.add].
      by replace i with (length a) by lia.
Qed.

(** *** The loop on the second part *)

Lemma runEnd_shift rest k j : runEnd rest (k + j) = (k + runEnd rest j)%nat.
Proof.
  revert j. induction rest as [|x rest IH]; intros j; cbn [runEnd]; [done|].
  destruct (testChar REGEX_PATTERNS.ENGLISH x); [|done].
  rewrite <- IH. f_equal. lia.
Qed.

Lemma substring_app_r (a b : list Z) i j :
  substring (a ++ b) (length a + i) (length a + j) = substring b i j.
Proof.
  unfold substring.
  replace (Nat.min (length a + i) (length a + j))
    with (length a + Nat.min i j)%nat by lia.
  replace (Nat.max (length a + i) (length a + j))
    with (length a + Nat.max i j)%nat by lia.
  rewrite drop_app_add'; [|done].
  f_equal. lia.
Qed.

Lemma countBody_app_r a b j char acc :
  noWordAcross a b →
  b !! j = Some char →
  countBody s (a ++ b) (length a + j) char acc
  = ((length a + (countBody s b j char acc).1)%nat,
     (countBody s b j char acc).2).
Proof.
  intros Hab Hj.
  assert (Hrun : runEnd (drop (length a + j) (a ++ b)) (length a + j)
                 = (length a + runEnd (drop j b) j)%nat).
  { rewrite drop_app_add' by done. apply runEnd_shift. }
  unfold countBody. rewrite Hrun.
  destruct (trackNumbers s && _); [done|].
  destruct (trackEnglish s && testChar REGEX_PATTERNS.ENGLISH char) eqn:He;
    [|by repeat case_match].
  apply andb_true_iff in He as [_ Hc].
  destruct (runEnd_at_letter b j char Hj Hc) as [Hj1 Hj2].
  rewrite substring_app_r.
  replace (length a + runEnd (drop j b) j - 1)%nat
    with (length a + (runEnd (drop j b) j - 1))%nat by lia.
  assert (Hstart :
    bool_decide (length a + j = 0)%nat
    || negb (from_option (testChar REGEX_PATTERNS.ENGLISH) false
               ((a ++ b) !! (length a + j - 1)%nat))
    = bool_decide (j = 0%nat)
      || negb (from_option (testChar REGEX_PATTERNS.ENGLISH) false
                 (b !! (j - 1)%nat))).
  { destruct j as [|j].
    - rewrite Nat.add_0_r. cbn [bool_decide decide_rel orb].
      rewrite (bool_decide_eq_true_2 (0 = 0)%nat) by done. cbn [orb].
      destruct a as [|x a] using rev_ind; [done|].
      rewrite length_app. cbn [length].
      rewrite bool_decide_eq_false_2 by lia. cbn [orb].
      replace (length a + 1 - 1)%nat with (length a) by lia.
      rewrite <- app_assoc. cbn [app]. rewrite list_lookup_middle by done.
      cbn [from_option]. rewrite testChar_ENGLISH.
      destruct (isLetter x) eqn:Hx; [|done]. exfalso.
      unfold noWordAcross in Hab. rewrite last_snoc in Hab.
      specialize (Hab Hx). destruct b as [|y b]; [done|].
      cbn in Hab, Hj. injection Hj as ->.
      rewrite testChar_ENGLISH in Hc. congruence.
    - rewrite !bool_decide_eq_false_2 by lia. cbn [orb]. do 2 f_equal.
      replace (length a + S j - 1)%nat with (length a + j)%nat by lia.
      replace (S j - 1)%nat with j by lia.
      rewrite lookup_app_r by lia. f_equal. lia. }
  rewrite Hstart. by repeat case_match.
Qed.

Lemma countLoop_app_r a b fuel :
  noWordAcross a b →
  ∀ j acc,
    countLoop s (a ++ b) fuel (length a + j) acc = countLoop s b fuel j acc.
Proof.
  intros Hab.
  assert (Hlook : ∀ j, (a ++ b) !! (length a + j)%nat = b !! j).
  { intros j. rewrite lookup_app_r by lia. f_equal. lia. }
  induction fuel as [|fuel IH]; intros j acc; cbn [countLoop]; rewrite Hlook.
  - done.
  - destruct (b !! j) as [char|] eqn:Hj; [|done].
    rewrite (countBody_app_r a b j char acc Hab Hj).
    destruct (countBody s b j char acc) as [j' acc']. cbn [fst snd].
    replace (S (length a + j')) with (length a + S j')%nat by lia.
    apply IH.
Qed.

(** *** The counters a loop starts from *)

Lemma countBody_add text i char acc d :
  countBody s text i char (addCounts acc d)
  = ((countBody s text i char acc).1,
     addCounts (countBody s text i char acc).2 d).
Proof.
  unfold countBody, addCounts.
  repeat (case_match; cbn [fst snd r_chinese r_english r_punctuation
                            r_numbers r_spaces r_words]);
    try done; f_equal; f_equal; lia.
Qed.

Lemma countLoop_add text fuel d :
  ∀ i acc r,
    countLoop s text fuel i acc = Some r →
    countLoop s text fuel i (addCounts acc d) = Some (addCounts r d).
Proof.
  induction fuel as [|fuel IH]; intros i acc r; cbn [countLoop].
  - destruct (text !! i); [done|]. by intros [= <-].
  - destruct (text !! i) as [char|]; [|by intros [= <-]].
    rewrite countBody_add.
    destruct (countBody s text i char acc) as [i' acc']. cbn [fst snd].
    apply IH.
Qed.

Lemma addCounts_zero_l r : addCounts zeroCounts r = r.
Proof. by destruct r. Qed.

Lemma addCounts_comm r1 r2 : addCounts r1 r2 = addCounts r2 r1.
Proof. unfold addCounts. f_equal; lia. Qed.

End ClassifierConcat.

(** X20.  The classifier works piece by piece: when no run of letters goes
    across the place where two texts meet, the counters of the joined text
    are the sums of the counters of the two texts. *)
Theorem countCharacters_app (s : WordCountSettings) (a b : list Z)
    (ra rb : TextAnalysisResult) :
  noWordAcross a b →
  TextAnalyzer.countCharacters s a = Some ra →
  TextAnalyzer.countCharacters s b = Some rb →
  TextAnalyzer.countCharacters s (a ++ b) = Some (addCounts ra rb).
Proof.
  intros Hab Ha Hb. unfold TextAnalyzer.countCharacters in *.
  destruct (countLoop_app_l s a b _ Hab 0%nat _ ra ltac:(lia) Ha) as [n Hn].
  assert (Hr : TextAnalyzer.countLoop s (a ++ b) (n + length b) 0
                 TextAnalyzer.zeroCounts = Some (addCounts ra rb)).
  { rewrite Hn.
    rewrite <- (Nat.add_0_r (length a)) at 1.
    rewrite (countLoop_app_r s a b _ Hab).
    rewrite <- (addCounts_zero_l ra) at 1.
    rewrite (addCounts_comm ra rb).
    by apply countLoop_add. }
  destruct (countCharacters_returns s (a ++ b)) as [r Hr'].
  unfold TextAnalyzer.countCharacters in Hr'. rewrite Hr'. f_equal.
  apply (countLoop_more_fuel s _ _ (n + length b)) in Hr'.
  apply (countLoop_more_fuel s _ _ (length (a ++ b))) in Hr.
  rewrite (Nat.add_comm (length (a ++ b))) in Hr'.
  rewrite Hr in Hr'. by injection Hr'.
Qed.

(** Across a word the sum is off: two halves of a word are two words. *)
Example countCharacters_app_across_word :
  TextAnalyzer.countCharacters defaultSettings (Js.str "abef")
  = Some (lettersAndWords 4 1)
  ∧ addCounts (lettersAndWords 2 1) (lettersAndWords 2 1)
    = lettersAndWords 4 2
  ∧ TextAnalyzer.countCharacters defaultSettings (Js.str "ab")
    = Some (lettersAndWords 2 1)
  ∧ TextAnalyzer.countCharacters defaultSettings (Js.str "ef")
    = Some (lettersAndWords 2 1).
Proof. by vm_compute. Qed.

(** * More on the statistics manager *)

Section ManagerInvariant.

Variable Date_getTime : jsval → option Z.
Variable LocalTZA : Z → bool → Z.

Lemma asDailyStats_goal item d :
  StatsManager.asDailyStats item = Some d → goal d = StatsManager.v_goal item.
Proof.
  unfold StatsManager.asDailyStats. intros H.
  repeat (case_match; simplify_option_eq; try done).
Qed.

Lemma validateItem_goal x item :
  StatsManager.validateItem x = Some item → StatsManager.v_goal item = 0.
Proof.
  destruct x as [| |b|z|str|l|fields]; try done; by intros [= <-].
Qed.

Lemma filteredData_goal now items kept item :
  StatsManager.filteredData Date_getTime LocalTZA now items = Some kept →
  item ∈ kept → StatsManager.v_goal item = 0.
Proof.
  unfold StatsManager.filteredData. intros Hf Hin.
  destruct (mapM StatsManager.validateItem items) as [vs|] eqn:Hvs; [|done].
  cbn in Hf. injection Hf as <-.
  apply list_elem_of_filter in Hin as [_ Hin].
  apply mapM_Some in Hvs.
  apply list_elem_of_lookup in Hin as [i Hi].
  destruct (Forall2_lookup_r _ _ _ _ _ Hvs Hi) as (x & _ & Hx).
  by eapply validateItem_goal.
Qed.

(** X21.  In every state the manager reaches, a day record is filed under
    its own date and has goal 0: this holds of a new manager and after a
    reset, [updateWordCount] and [updateSettings] keep it, and whatever
    [loadData] builds from a stored array has it. *)
Theorem wellKeyed_invariant :
  (∀ s, wellKeyed (StatsManager.new s))
  ∧ (∀ m save_ok, wellKeyed (StatsManager.resetData m save_ok).1)
  ∧ (∀ m today now fileName r save_ok,
       wellKeyed m →
       wellKeyed (StatsManager.updateWordCount Date_getTime m today now
                    fileName r save_ok).1)
  ∧ (∀ m s, wellKeyed m → wellKeyed (StatsManager.updateSettings m s))
  ∧ (∀ m now items m',
       StatsManager.loadData Date_getTime LocalTZA m now (VArr items)
       = StatsManager.Loaded m' →
       wellKeyed m').
Proof.
  unfold wellKeyed. split_and!.
  - intros s k d. cbn. by rewrite lookup_empty.
  - intros m save_ok k d. cbn. by rewrite lookup_empty.
  - intros m today now fileName r save_ok Hm k d.
    destruct (decide (k = today)) as [->|Hk].
    + rewrite updateWordCount_lookup. intros [= <-]. cbn.
      destruct (StatsManager.dailyStats m !! today) as [d0|] eqn:Hd0; cbn.
      * by apply Hm.
      * done.
    + rewrite updateWordCount_lookup_ne by done. apply Hm.
  - intros m s Hm k d. cbn. rewrite lookup_fmap.
    destruct (StatsManager.dailyStats m !! k) as [d0|] eqn:Hd0; [|done].
    cbn. intros [= <-]. cbn. split; [|done]. by apply Hm.
  - intros m now items m' Hload k d Hd.
    unfold StatsManager.loadData in Hload.
    destruct (StatsManager.filteredData Date_getTime LocalTZA now items)
      as [kept|] eqn:Hf; [|done].
    destruct (mapM StatsManager.asDailyStats kept) as [typed|] eqn:Ht;
      [|done].
    injection Hload as <-. cbn in Hd.
    apply Map_of_lookup in Hd as [Hin Hdate]. split; [done|].
    apply mapM_Some in Ht.
    apply list_elem_of_lookup in Hin as [i Hi].
    destruct (Forall2_lookup_r _ _ _ _ _ Ht Hi) as (item & Hitem & Hd).
    rewrite (asDailyStats_goal _ _ Hd).
    eapply filteredData_goal; [done|]. by eapply list_elem_of_lookup_2.
Qed.

(** X22.  What [loadData] does with a stored value that it cannot use: a
    value that is not an array leaves the manager as it is; an array with a
    [null] or missing entry makes the load throw, again with the manager as
    it is.  A stored array replaces the day records in memory, it is not
    merged with them: the records after the load do not depend on the ones
    before, and the streak and the settings are not touched. *)
Theorem loadData_unusable (m : StatsManager.t) (now : Z) :
  (∀ v, (∀ items, v ≠ VArr items) →
        StatsManager.loadData Date_getTime LocalTZA m now v
        = StatsManager.Loaded m)
  ∧ (∀ items, VNull ∈ items ∨ VUndefined ∈ items →
        StatsManager.loadData Date_getTime LocalTZA m now (VArr items)
        = StatsManager.LoadThrew m)
  ∧ (∀ items m',
        StatsManager.loadData Date_getTime LocalTZA m now (VArr items)
        = StatsManager.Loaded m' →
        StatsManager.streakData m' = StatsManager.streakData m
        ∧ StatsManager.settings m' = StatsManager.settings m
        ∧ ∀ m2,
            StatsManager.loadData Date_getTime LocalTZA m2 now (VArr items)
            = StatsManager.Loaded
                {| StatsManager.dailyStats := StatsManager.dailyStats m';
                   StatsManager.streakData := StatsManager.streakData m2;
                   StatsManager.settings := StatsManager.settings m2 |}).
Proof.
  split_and!.
  - intros v Hv. destruct v; try done. by destruct (Hv items).
  - intros items Hbad. unfold StatsManager.loadData, StatsManager.filteredData.
    destruct (mapM StatsManager.validateItem items) as [vs|] eqn:Hvs; [|done].
    exfalso. apply mapM_Some in Hvs.
    destruct Hbad as [Hin|Hin];
      apply list_elem_of_lookup in Hin as [i Hi];
      by destruct (Forall2_lookup_l _ _ _ _ _ Hvs Hi) as (y & _ & Hy).
  - intros items m' Hload. unfold StatsManager.loadData in *.
    destruct (StatsManager.filteredData Date_getTime LocalTZA now items)
      as [kept|]; [|done].
    destruct (mapM StatsManager.asDailyStats kept) as [typed|]; [|done].
    by injection Hload as <-.
Qed.

End ManagerInvariant.

Section RoundTrip.

Variable Date_getTime : jsval → option Z.
Variable LocalTZA : Z → bool → Z.

Lemma js_or_num z : js_or (VNum z) (VNum 0) = VNum z.
Proof. unfold js_or. cbn. by destruct (Z.eqb_spec z 0) as [->|]. Qed.

Lemma js_or_str s : js_or (VStr s) (VStr "") = VStr s.
Proof. unfold js_or. cbn. by destruct (String.eqb_spec s "") as [->|]. Qed.

Lemma js_or_bool b : js_or (VBool b) (VBool false) = VBool b.
Proof. by destruct b. Qed.

Lemma validateItem_stored d :
  StatsManager.validateItem (storedStats d) = Some (validated d).
Proof.
  unfold storedStats. rewrite validateItem_obj. unfold validated.
  f_equal. f_equal.
  all: match goal with
       | |- js_or (StatsManager.field ?m ?k) _ = ?v =>
           let x := eval vm_compute in (StatsManager.field m k) in
           change (StatsManager.field m k) with x
       end.
  all: first [apply js_or_num | apply js_or_str | apply js_or_bool | done].
Qed.

Lemma asCharChange_stored c :
  StatsManager.asCharChange (storedChange c) = Some c.
Proof.
  unfold storedChange, StatsManager.asCharChange.
  repeat match goal with
         | |- context [StatsManager.field ?m ?k] =>
             let x := eval vm_compute in (StatsManager.field m k) in
             change (StatsManager.field m k) with x
         end.
  cbn. destruct c as [ts a fn ? ? ? ? ? ? ?]; cbn. by destruct a.
Qed.

Lemma mapM_stored {A B C} (f : A → B) (g : B → option C) (h : A → C)
    (l : list A) :
  (∀ x, g (f x) = Some (h x)) → mapM g (f <$> l) = Some (h <$> l).
Proof.
  intros Hgf. apply mapM_Some. induction l as [|x l IH]; cbn; [done|].
  constructor; [apply Hgf|done].
Qed.

Lemma asDailyStats_validated d :
  StatsManager.asDailyStats (validated d) = Some (withoutGoal d).
Proof.
  unfold StatsManager.asDailyStats, validated. cbn.
  rewrite (mapM_stored storedChange _ id _ asCharChange_stored).
  by rewrite list_fmap_id.
Qed.

Lemma inWindow_validated now d :
  StatsManager.inWindow Date_getTime LocalTZA now (validated d)
  = dateInWindow Date_getTime LocalTZA now d.
Proof. done. Qed.

Lemma filteredData_stored now (l : list DailyStats) :
  StatsManager.filteredData Date_getTime LocalTZA now (storedStats <$> l)
  = Some (validated
            <$> filter (λ d, dateInWindow Date_getTime LocalTZA now d = true)
                  l).
Proof.
  unfold StatsManager.filteredData.
  rewrite (mapM_stored storedStats _ validated _ validateItem_stored).
  cbn. f_equal.
  induction l as [|x l IH]; [done|]. cbn [fmap list_fmap].
  rewrite !filter_cons, inWindow_validated.
  destruct (decide (dateInWindow Date_getTime LocalTZA now x = true)); cbn;
    by rewrite IH.
Qed.

(** With one record per date, the map built from a list holds exactly the
    records of the list. *)
Lemma Map_of_lookup_NoDup (typed : list DailyStats) k d :
  NoDup (date <$> typed) →
  StatsManager.Map_of typed !! k = Some d ↔ d ∈ typed ∧ date d = k.
Proof.
  intros Hnd. split; [apply Map_of_lookup|].
  intros [Hin <-]. unfold StatsManager.Map_of.
  induction typed as [|x typed IH] using rev_ind; [by apply elem_of_nil in Hin|].
  rewrite foldl_app. cbn [foldl].
  rewrite fmap_app in Hnd. apply NoDup_app in Hnd as (Hnd1 & Hdis & _).
  apply elem_of_app in Hin as [Hin|Hin].
  - rewrite lookup_insert_ne; [by apply IH|].
    intros Heq. apply (Hdis (date d)).
    + apply list_elem_of_fmap. by exists d.
    + rewrite <- Heq. cbn. by left.
  - apply list_elem_of_singleton in Hin as ->. apply lookup_insert_eq.
Qed.

(** X23.  What was saved is what is loaded.  When every day record is filed
    under its own date, loading the array that [saveData] wrote gives back
    the records whose date lies between the cut-off of the load (the local
    wall-clock time of the clock, thirty calendar days earlier) and the
    clock, each with its counters, total, flag and change log as they were
    and with goal 0; the records outside the window are gone, and the streak
    is not part of what is saved. *)
Theorem save_load_round_trip (m : StatsManager.t)
    (stats : gmap string DailyStats) (now : Z) :
  (∀ k d, stats !! k = Some d → date d = k) →
  StatsManager.loadData Date_getTime LocalTZA m now (storedMap stats)
  = StatsManager.Loaded
      {| StatsManager.dailyStats :=
           withoutGoal
             <$> filter (λ kd, dateInWindow Date_getTime LocalTZA now kd.2
                               = true) stats;
         StatsManager.streakData := StatsManager.streakData m;
         StatsManager.settings := StatsManager.settings m |}.
Proof.
  intros Hkey. unfold storedMap, StatsManager.loadData.
  rewrite filteredData_stored.
  rewrite (mapM_stored validated _ withoutGoal _ asDailyStats_validated).
  do 2 f_equal. apply map_eq. intros k. apply option_eq. intros d.
  set (vals := (map_to_list stats).*2).
  assert (Hvals : ∀ d0, d0 ∈ vals ↔ stats !! date d0 = Some d0).
  { intros d0. unfold vals. rewrite list_elem_of_fmap. split.
    - intros ([k0 d1] & -> & Hin). apply elem_of_map_to_list in Hin.
      cbn. by rewrite (Hkey _ _ Hin).
    - intros Hd0. exists (date d0, d0). split; [done|].
      by apply elem_of_map_to_list. }
  assert (Hdates : NoDup (date <$> vals)).
  { assert (date <$> vals = (map_to_list stats).*1) as ->.
    { unfold vals. rewrite <- list_fmap_compose.
      apply list_fmap_ext. intros i [k0 d0] Hi. cbn.
      apply list_elem_of_lookup_2, elem_of_map_to_list in Hi.
      by apply Hkey. }
    apply NoDup_fst_map_to_list. }
  rewrite Map_of_lookup_NoDup; cycle 1.
  { rewrite <- list_fmap_compose.
    eapply NoDup_fmap_2_strong; cycle 1.
    - apply NoDup_filter. eapply NoDup_fmap_1, Hdates.
    - intros x y Hx Hy Hxy. cbn in Hxy.
      apply list_elem_of_filter in Hx as [_ Hx].
      apply list_elem_of_filter in Hy as [_ Hy].
      apply Hvals in Hx, Hy. rewrite Hxy in Hx. congruence. }
  rewrite lookup_fmap, fmap_Some, list_elem_of_fmap.
  split.
  - intros [(d0 & -> & Hin) Hk]. cbn in Hk. subst k.
    apply list_elem_of_filter in Hin as [Hw Hin]. apply Hvals in Hin.
    exists d0. split; [|done]. by apply map_lookup_filter_Some.
  - intros (d0 & Hd0 & ->).
    apply map_lookup_filter_Some in Hd0 as [Hd0 Hw]. cbn in Hw.
    pose proof (Hkey _ _ Hd0) as Hk. subst k.
    split; [|done]. exists d0. split; [done|].
    apply list_elem_of_filter. split; [done|]. by apply Hvals.
Qed.

End RoundTrip.

(** The window follows local time.  In New York the clocks go back on
    3 November: at half past midnight UTC on 20 November the cut-off is
    23:30 UTC on 20 October, an hour more than thirty times 24 hours back,
    and the record of 21 October is loaded; on a host in UTC it is not.
    The clocks go forward on 10 March: at midnight UTC on 26 March the
    cut-off is 01:00 UTC on 25 February, and the record of 25 February,
    which is exactly thirty times 24 hours old, is dropped; on a host in
    UTC it is loaded. *)
Example loadData_window_follows_local_time :
  (∃ m, StatsManager.loadData IsoDate.getTime Zone.newYork
          (StatsManager.new defaultSettings) novemberClock octoberStore
        = StatsManager.Loaded m
        ∧ is_Some (StatsManager.dailyStats m !! "2024-10-21"))
  ∧ (∃ m, StatsManager.loadData IsoDate.getTime Zone.utc
            (StatsManager.new defaultSettings) novemberClock octoberStore
          = StatsManager.Loaded m
          ∧ StatsManager.dailyStats m !! "2024-10-21" = None)
  ∧ (∃ m, StatsManager.loadData IsoDate.getTime Zone.newYork
            (StatsManager.new defaultSettings) marchClock
            (storedMap marchStats)
          = StatsManager.Loaded m
          ∧ StatsManager.dailyStats m !! "2024-02-25" = None
          ∧ is_Some (StatsManager.dailyStats m !! "2024-03-01"))
  ∧ (∃ m, StatsManager.loadData IsoDate.getTime Zone.utc
            (StatsManager.new defaultSettings) marchClock
            (storedMap marchStats)
          = StatsManager.Loaded m
          ∧ is_Some (StatsManager.dailyStats m !! "2024-02-25"))
  ∧ StatsManager.thirtyDaysAgo Zone.newYork novemberClock
    = novemberClock - 30 * msPerDay - Zone.hour
  ∧ StatsManager.thirtyDaysAgo Zone.newYork marchClock
    = marchClock - 30 * msPerDay + Zone.hour.
Proof.
  split_and!.
  - eexists. split; [vm_compute; reflexivity|]. vm_compute. by eexists.
  - eexists. split; [vm_compute; reflexivity|]. vm_compute. reflexivity.
  - eexists. split; [vm_compute; reflexivity|].
    split; vm_compute; [reflexivity|by eexists].
  - eexists. split; [vm_compute; reflexivity|]. vm_compute. by eexists.
  - vm_compute. reflexivity.
  - vm_compute. reflexivity.
Qed.

Section StreakRuns.

Variable Date_getTime : jsval → option Z.

Local Abbreviation updateStreakData :=
  (StatsManager.updateStreakData Date_getTime).

Lemma updateStreakData_next_day sd today :
  lastDate sd ≠ "" →
  StatsManager.diffDays Date_getTime (lastDate sd) today = Some 1 →
  updateStreakData sd today
  = {| current := current sd + 1;
       longest := Z.max (longest sd) (current sd + 1);
       lastDate := today |}.
Proof.
  intros Hne Hd. unfold StatsManager.updateStreakData.
  rewrite decide_False by done. rewrite Hd. cbn. f_equal.
  destruct (Z.ltb_spec (longest sd) (current sd + 1)); lia.
Qed.

Lemma streak_run sd days :
  lastDate sd ≠ "" →
  current sd ≤ longest sd →
  consecutive Date_getTime (lastDate sd) days →
  foldl updateStreakData sd days
  = {| current := current sd + Z.of_nat (length days);
       longest := Z.max (longest sd) (current sd + Z.of_nat (length days));
       lastDate := default (lastDate sd) (last days) |}.
Proof.
  revert sd. induction days as [|day rest IH]; intros sd Hne Hle Hcons.
  - cbn. rewrite Z.add_0_r, Z.max_l by done. by destruct sd.
  - destruct Hcons as (Hday & Hdiff & Hrest). cbn [foldl].
    rewrite (updateStreakData_next_day sd day Hne Hdiff).
    rewrite IH; cbn [current longest lastDate]; [|done|lia|done].
    f_equal.
    + rewrite length_cons. lia.
    + rewrite length_cons. lia.
    + destruct rest as [|day' rest]; [done|]. rewrite last_cons_cons.
      destruct (last (day' :: rest)) eqn:Hl; [done|].
      by apply last_None in Hl.
Qed.

(** X24.  Writing on consecutive days builds the streak day by day.  From
    a new (or reset) manager, after updates on [n] dates each of which is the
    day after the one before, [current] and [longest] are both [n] and
    [lastDate] is the last of the dates.  From any record with a date and
    [current <= longest], [n] further consecutive days add [n] to [current]
    and raise [longest] to the new [current] when that is larger. *)
Theorem streak_consecutive_days (day : string) (rest : list string) :
  day ≠ "" →
  consecutive Date_getTime day rest →
  foldl updateStreakData StatsManager.initialStreak (day :: rest)
  = {| current := Z.of_nat (length (day :: rest));
       longest := Z.of_nat (length (day :: rest));
       lastDate := default day (last rest) |}
  ∧ ∀ sd,
      lastDate sd = day →
      current sd ≤ longest sd →
      foldl updateStreakData sd rest
      = {| current := current sd + Z.of_nat (length rest);
           longest := Z.max (longest sd) (current sd + Z.of_nat (length rest));
           lastDate := default day (last rest) |}.
Proof.
  intros Hday Hcons. split.
  - cbn [foldl].
    change (updateStreakData StatsManager.initialStreak day)
      with {| current := 1; longest := 1; lastDate := day |}.
    rewrite streak_run; cbn [current longest lastDate]; [|done|done|done].
    rewrite length_cons. f_equal; lia.
  - intros sd Hsd Hle. subst day. by apply streak_run.
Qed.

Lemma streakReachable_shape sd :
  Date_getTime (VStr "") = None →
  streakReachable Date_getTime sd →
  0 ≤ current sd
  ∧ (lastDate sd ≠ "" → 1 ≤ current sd)
  ∧ (lastDate sd = "" → longest sd ≤ 1).
Proof.
  intros Hempty.
  induction 1 as [|sd today _ (IH0 & IH1 & IHl)]; [done|].
  unfold StatsManager.updateStreakData.
  destruct (decide (lastDate sd = "")) as [He|Hne]; [done|].
  specialize (IH1 Hne).
  destruct (StatsManager.diffDays Date_getTime (lastDate sd) today) as [d|]
    eqn:Hd; [|done].
  assert (Htoday : today ≠ "").
  { intros ->. unfold StatsManager.diffDays in Hd. rewrite Hempty in Hd.
    by destruct (Date_getTime (VStr (lastDate sd))). }
  destruct (Z.eqb_spec d 1); cbn.
  - split_and!; try lia. done.
  - destruct (Z.ltb_spec 1 d); cbn; [|done].
    split_and!; try lia; try done.
Qed.

(** X25.  With a host that reads no date from the empty string, the streak
    record of a manager only moves forward: an update never lowers
    [longest], it leaves [current] at 1 or more, and it either leaves the
    record as it was or sets [lastDate] to the day of the update. *)
Theorem streak_longest_monotone (sd : StreakData) (today : string) :
  Date_getTime (VStr "") = None →
  streakReachable Date_getTime sd →
  longest sd ≤ longest (updateStreakData sd today)
  ∧ 1 ≤ current (updateStreakData sd today)
  ∧ (updateStreakData sd today = sd
     ∨ lastDate (updateStreakData sd today) = today).
Proof.
  intros Hempty Hreach.
  destruct (streakReachable_shape sd Hempty Hreach) as (H0 & H1 & Hl).
  unfold StatsManager.updateStreakData.
  destruct (decide (lastDate sd = "")) as [He|Hne]; cbn.
  { specialize (Hl He). split_and!; [lia|done|by right]. }
  specialize (H1 Hne).
  destruct (StatsManager.diffDays Date_getTime (lastDate sd) today) as [d|];
    [|by split_and!; [|done|left]].
  destruct (Z.eqb_spec d 1); cbn.
  - split_and!; [|lia|by right].
    destruct (Z.ltb_spec (longest sd) (current sd + 1)); lia.
  - destruct (Z.ltb_spec 1 d); cbn.
    + split_and!; [done|done|by right].
    + split_and!; [done|done|by left].
Qed.

End StreakRuns.

(** * More on the single-file plugin *)

Section LegacyClassifier.
Import Js WordCountPlugin.

Lemma wordEnd_ge rest j : (j ≤ wordEnd rest j)%nat.
Proof.
  revert j. induction rest as [|x rest IH]; intros j; cbn [wordEnd]; [done|].
  destruct (test englishRegex [x]); [|done].
  specialize (IH (S j)). lia.
Qed.

Lemma legacy_countBody_index s text i char acc :
  text !! i = Some char →
  (i ≤ (countBody s text i char acc).1)%nat.
Proof.
  intros Hi. unfold countBody.
  repeat (case_match; cbn [fst]; try done).
  all: rewrite (drop_S _ _ _ Hi); cbn [wordEnd].
  all: match goal with
       | H : _ && test englishRegex [_] = true |- _ =>
           apply andb_true_iff in H as [_ ->]
       end.
  all: pose proof (wordEnd_ge (drop (S i) text) (S i)); lia.
Qed.

Lemma legacy_countBody_words s text i char acc :
  countsWords s acc → countsWords s (countBody s text i char acc).2.
Proof.
  unfold countsWords. intros (Hw & Hon & Hoff). unfold countBody.
  repeat (case_match; cbn [snd r_english r_words]); split_and!;
    try done; try lia; try congruence;
    intros Hs; first [specialize (Hon Hs) | specialize (Hoff Hs)]; lia.
Qed.

Lemma legacy_countLoop s text fuel :
  ∀ i acc,
    (length text ≤ i + fuel)%nat →
    countsWords s acc →
    ∃ r, countLoop s text fuel i acc = Some r ∧ countsWords s r.
Proof.
  induction fuel as [|fuel IH]; intros i acc Hlen Hacc; cbn [countLoop].
  - destruct (text !! i) eqn:Hi; [|by exists acc].
    apply lookup_lt_Some in Hi. lia.
  - destruct (text !! i) as [char|] eqn:Hi; [|by exists acc].
    pose proof (legacy_countBody_index s text i char acc Hi) as Hge.
    pose proof (legacy_countBody_words s text i char acc Hacc) as Hw.
    destruct (countBody s text i char acc) as [i' acc']. cbn [fst snd] in *.
    apply IH; [lia|done].
Qed.

(** X26.  The classifier of the single-file plugin returns on every text,
    and its [english] counter counts runs of letters, not letters: with word
    counting on it always equals [words], and with word counting off
    [words] is 0. *)
Theorem legacy_english_counts_words (s : WordCountSettings) (text : list Z) :
  ∃ r, countCharacters s text = Some r
       ∧ 0 ≤ r_words r ≤ r_english r
       ∧ (showWordCount s = true → r_english r = r_words r)
       ∧ (showWordCount s = false → r_words r = 0).
Proof.
  apply legacy_countLoop; [lia|]. unfold countsWords. by cbn.
Qed.

End LegacyClassifier.

Section QuoteLoop.
Import Js WordCountPlugin.

Lemma noMode_pastFrontmatter fe st i : noMode st → pastFrontmatter fe st i.
Proof. intros (_ & _ & ? & _). by left. Qed.

Lemma runOf_other text a i x :
  text !! i = Some x → x ≠ a → runOf text a i = 0%nat.
Proof.
  intros Hi Hx. unfold runOf. rewrite (drop_S _ _ _ Hi). cbn [takeWhile].
  by rewrite (proj2 (Z.eqb_neq x a)).
Qed.

(** A turn of the loop on a [>] at a line start, with no mode on: the index
    and the state stay as they are. *)
Lemma body_quote text fe i st :
  text !! i = Some 62 →
  atLineStart text i = true →
  noMode st →
  body text fe i 62 st = (i, st).
Proof.
  intros Hi Hstart (Hcode & Hinline & Hfront & Hhtml & Hmath). unfold body.
  rewrite Hcode, Hinline, Hfront, Hhtml, Hmath, Hstart.
  change (62 =? ch "$") with false. change (62 =? ch "`") with false.
  change (62 =? ch "<") with false. change (62 =? ch "[") with false.
  change (62 =? ch "!") with false. change (62 =? ch "#") with false.
  change (62 =? ch ">") with true.
  cbn [andb orb negb].
  by rewrite (runOf_other text (ch " ") i 62 Hi), Nat.add_0_r.
Qed.

Lemma scan_quote text fe i st fuel :
  text !! i = Some 62 →
  atLineStart text i = true →
  noMode st →
  scan text fe fuel i st = None.
Proof.
  intros Hi Hstart Hst. induction fuel as [|fuel IH]; cbn [scan]; rewrite Hi;
    [done|].
  by rewrite body_quote.
Qed.

(** More turns do not change a result. *)
Lemma scan_more_fuel text fe fuel k :
  ∀ i st r,
    scan text fe fuel i st = Some r → scan text fe (fuel + k) i st = Some r.
Proof.
  induction fuel as [|fuel IH]; intros i st r; cbn [scan Nat.add].
  - destruct (text !! i) eqn:Hi; [done|]. intros [= <-].
    destruct k; cbn [scan]; by rewrite Hi.
  - destruct (text !! i) as [x|]; [|done].
    destruct (body text fe i x st) as [i' st']. apply IH.
Qed.

(** A turn of the loop on an ordinary code unit, with no mode on: the code
    unit is copied. *)
Lemma body_ordinary text fe i x st :
  ordinary x → noMode st →
  body text fe i x st = (S i, pushChar st x).
Proof.
  intros Hx (Hcode & Hinline & Hfront & Hhtml & Hmath). unfold body.
  rewrite Hcode, Hinline, Hfront, Hhtml, Hmath.
  unfold ordinary in Hx.
  assert (Hne : ∀ a, ch a ∈ str "$`<[!#>-*+|" → (x =? ch a) = false).
  { intros a Ha. apply Z.eqb_neq. by intros ->. }
  rewrite !Hne by (vm_compute; repeat constructor).
  done.
Qed.

Lemma scan_ordinary text fe pre :
  ∀ done_ rest st fuel,
    text = done_ ++ pre ++ rest →
    Forall ordinary pre → noMode st →
    scan text fe (length pre + fuel) (length done_) st
    = scan text fe fuel (length done_ + length pre) (pushText st pre).
Proof.
  induction pre as [|x pre IH]; intros done_ rest st fuel Htext Hpre Hst.
  - cbn [length Nat.add]. rewrite Nat.add_0_r. f_equal.
    unfold pushText. destruct st; cbn. by rewrite app_nil_r.
  - apply Forall_cons in Hpre as [Hx Hpre].
    cbn [length Nat.add scan].
    assert (Hi : text !! length done_ = Some x).
    { rewrite Htext. apply lookup_middle. }
    rewrite Hi, body_ordinary by done.
    replace (S (length done_)) with (length (done_ ++ [x]))
      by (rewrite length_app; cbn; lia).
    rewrite (IH (done_ ++ [x]) rest (pushChar st x) fuel).
    + rewrite pushText_pushChar. f_equal. rewrite length_app. cbn. lia.
    + by rewrite Htext, <- app_assoc.
    + done.
    + done.
Qed.

Lemma startsWith_ordinary (pre rest : list Z) x :
  Forall ordinary pre → x ≠ 45 →
  startsWith (pre ++ x :: rest) (str "---") = false.
Proof.
  intros Hpre Hx. destruct pre as [|y pre]; cbn; change (ch "-") with 45.
  - by rewrite (proj2 (Z.eqb_neq x 45)).
  - apply Forall_cons in Hpre as [Hy _].
    rewrite (proj2 (Z.eqb_neq y 45)); [done|].
    intros ->. apply Hy. vm_compute. repeat constructor.
Qed.

(** X27.  The state-machine stripper does not return on a note with a block
    quote after ordinary text: when a line starts with [>] and everything
    before it is code units that no branch looks for, the loop reaches the
    [>] and stays there, whatever the number of turns it is given.  A note
    that starts with [>] is the simplest case. *)
Theorem preprocessText_quote_never_returns (pre rest : list Z) (fuel : nat) :
  Forall ordinary pre →
  pre = [] ∨ last pre = Some 10 →
  preprocessText fuel (pre ++ 62 :: rest) = None
  ∧ preprocessText fuel (62 :: rest) = None.
Proof.
  assert (Hgen : ∀ pre fuel, Forall ordinary pre →
            pre = [] ∨ last pre = Some 10 →
            preprocessText fuel (pre ++ 62 :: rest) = None).
  { clear pre fuel. intros pre fuel Hpre Hlast.
    unfold preprocessText, scanText, frontmatterEndOf.
    rewrite startsWith_ordinary by done.
    cbn [is_Some bool_decide default from_option].
    set (text := pre ++ 62 :: rest).
    set (st0 := setFlags initialScan _ _ _ _ _).
    assert (Hst0 : noMode st0) by done.
    enough (scan text 0 fuel 0 st0 = None) as -> by done.
    assert (Hq : ∀ st fuel, noMode st →
              scan text 0 fuel (length pre) st = None).
    { intros st fuel' Hst. apply scan_quote; [apply lookup_middle| |done].
      destruct Hlast as [->|Hlast]; [done|].
      destruct pre as [|y pre _] using rev_ind; [done|].
      rewrite last_snoc in Hlast. injection Hlast as ->.
      rewrite length_app. cbn [length]. rewrite Nat.add_1_r.
      cbn [atLineStart]. unfold text.
      rewrite <- app_assoc. cbn [app]. by rewrite lookup_middle. }
    destruct (Nat.le_gt_cases (length pre) fuel) as [Hle|Hgt].
    - replace fuel with (length pre + (fuel - length pre))%nat by lia.
      rewrite (scan_ordinary text 0 pre [] (62 :: rest) st0); [|done..].
      cbn [length Nat.add]. by apply Hq.
    - destruct (scan text 0 fuel 0 st0) as [r|] eqn:Hr; [|done].
      apply (scan_more_fuel _ _ _ (length pre - fuel)) in Hr.
      replace (fuel + (length pre - fuel))%nat with (length pre + 0)%nat in Hr
        by lia.
      rewrite (scan_ordinary text 0 pre [] (62 :: rest) st0) in Hr; [|done..].
      cbn [length Nat.add] in Hr. by rewrite Hq in Hr. }
  intros Hpre Hlast. split; [by apply Hgen|].
  apply (Hgen [] fuel); [done|by left].
Qed.

End QuoteLoop.

Section StripperReturns.
Import Js WordCountPlugin.

Lemma findFrom_ge p s :
  ∀ i n, findFrom p s i = Some n → (i ≤ n)%nat.
Proof.
  induction s as [|x s IH]; intros i n; cbn [findFrom].
  - destruct (startsWith [] p); [by intros [= <-]|done].
  - destruct (startsWith (x :: s) p); [by intros [= <-]|].
    intros H. apply IH in H. lia.
Qed.

Lemma indexOf_ge text p from n :
  indexOf text p from = Some n → (from ≤ n)%nat.
Proof. apply findFrom_ge. Qed.

Lemma runOf_here text a i :
  text !! i = Some a → (1 ≤ runOf text a i)%nat.
Proof.
  intros Hi. unfold runOf. rewrite (drop_S _ _ _ Hi). cbn [takeWhile].
  rewrite Z.eqb_refl. cbn. lia.
Qed.

Lemma linkAt_ge text textStart from linkText closeParen :
  linkAt text textStart from = Some (linkText, closeParen) →
  (from ≤ closeParen)%nat.
Proof.
  unfold linkAt. intros H.
  repeat (case_match; simplify_eq).
  repeat match goal with
         | H : indexOf _ _ _ = Some _ |- _ => apply indexOf_ge in H
         end.
  lia.
Qed.

Lemma tagAt_ge text i flag closeTag :
  tagAt text i = Some (flag, closeTag) → (i ≤ closeTag)%nat.
Proof.
  unfold tagAt. intros H.
  repeat (case_match; simplify_eq);
    match goal with
    | H : indexOf _ _ _ = Some _ |- _ => by apply indexOf_ge in H
    end.
Qed.

Lemma taskAt_ge text i afterBracket :
  taskAt text i = Some afterBracket → (i ≤ afterBracket)%nat.
Proof.
  unfold taskAt. intros H.
  repeat (case_match; simplify_eq).
  match goal with
  | H : indexOf _ _ _ = Some _ |- _ => apply indexOf_ge in H
  end.
  lia.
Qed.

Lemma ruleAt_ge text i j : ruleAt text i = Some j → (i ≤ j)%nat.
Proof.
  unfold ruleAt, lineEnd. intros H. case_match; simplify_eq. lia.
Qed.

Lemma tableAt_ge text i j : tableAt text i = Some j → (i ≤ j)%nat.
Proof.
  unfold tableAt, lineEnd. intros H. case_match; simplify_eq. lia.
Qed.

(** Case analysis on the test at the head of a chain of conditionals. *)
Local Ltac head_case :=
  match goal with
  | |- (_ < (if ?c then _ else _).1)%nat => destruct c eqn:?
  | |- (_ < (match ?c with _ => _ end).1)%nat => destruct c eqn:?
  | |- (_ < (let '(_, _) := ?c in _).1)%nat => destruct c eqn:?
  end.

(** Away from a [>], a turn of the loop moves the index forward. *)
Lemma body_advances text fe i x st :
  text !! i = Some x → x ≠ 62 →
  (i < (body text fe i x st).1)%nat.
Proof.
  intros Hi Hx. unfold body.
  change (ch ">") with 62. rewrite (proj2 (Z.eqb_neq x 62)) by done.
  cbn [andb].
  repeat (head_case; cbn [fst]; try lia).
  all: repeat match goal with
       | H : (if ?c then _ else None) = Some _ |- _ =>
           destruct c eqn:?; [|discriminate H]
       | H : linkAt _ _ _ = Some _ |- _ => apply linkAt_ge in H
       | H : tagAt _ _ = Some _ |- _ => apply tagAt_ge in H
       | H : taskAt _ _ = Some _ |- _ => apply taskAt_ge in H
       | H : ruleAt _ _ = Some _ |- _ => apply ruleAt_ge in H
       | H : tableAt _ _ = Some _ |- _ => apply tableAt_ge in H
       | H : (_ =? _) && _ = true |- _ => apply andb_true_iff in H as [H ?]
       | H : (?a =? ?b) = true |- _ => apply Z.eqb_eq in H; subst
       end.
  all: try lia.
  all: pose proof (runOf_here text (ch "#") i ltac:(done)); lia.
Qed.

Lemma scan_returns text fe fuel :
  Forall (λ x, x ≠ 62) text →
  ∀ i st, (length text ≤ i + fuel)%nat → is_Some (scan text fe fuel i st).
Proof.
  intros Hall. induction fuel as [|fuel IH]; intros i st Hlen; cbn [scan].
  - destruct (text !! i) eqn:Hi; [|done].
    apply lookup_lt_Some in Hi. lia.
  - destruct (text !! i) as [x|] eqn:Hi; [|done].
    pose proof (body_advances text fe i x st Hi
                  (Forall_lookup_1 _ _ _ _ Hall Hi)) as Hadv.
    destruct (body text fe i x st) as [i' st']. cbn [fst] in Hadv.
    apply IH. lia.
Qed.

(** X28.  On a text without any [>] the state-machine stripper returns:
    every turn of its loop moves the index forward, so as many turns as the
    text has code units are enough. *)
Theorem preprocessText_returns_without_quote (text : list Z) :
  Forall (λ x, x ≠ 62) text →
  is_Some (preprocessText (length text) text).
Proof.
  intros Hall. unfold preprocessText, scanText.
  destruct (scan_returns text (default 0%nat (frontmatterEndOf text))
              (length text) Hall 0
              (setFlags initialScan false false
                 (bool_decide (is_Some (frontmatterEndOf text))) false false))
    as [r ->]; [lia|].
  by eexists.
Qed.

End StripperReturns.

(** * The colour of a day in the heat map *)

Section HeatmapFacts.
Import HeatmapComponent.

Lemma rangesOf_default cfg :
  cfg = None ∨ cfg = Some [] → rangesOf cfg = defaultRanges.
Proof. by intros [->| ->]. Qed.

(** X29.  Without colour ranges in the settings (the property missing or
    an empty list) a day gets its colour and its label from the five
    default ranges: one for 0, one each for 1 to 99, 100 to 199 and 200 to
    299, and one for 300 to 999999.  A count outside all of them, a million
    or more or a negative one, falls back on the first range and is shown
    like a day without writing. *)
Theorem getCellColor_default_ranges (cfg : option (list ColorRange))
    (wordCount : Z) :
  cfg = None ∨ cfg = Some [] →
  (getCellColor cfg wordCount, getRangeLabel cfg wordCount)
  = (if wordCount =? 0 then ("#f0f9f0", "无写作")
     else if (1 <=? wordCount) && (wordCount <=? 99)
     then ("#dcfce7", "少量写作")
     else if (100 <=? wordCount) && (wordCount <=? 199)
     then ("#bbf7d0", "轻度写作")
     else if (200 <=? wordCount) && (wordCount <=? 299)
     then ("#86efac", "中度写作")
     else if (300 <=? wordCount) && (wordCount <=? 999999)
     then ("#10b981", "重度写作")
     else ("#f0f9f0", "无写作")).
Proof.
  intros Hcfg. unfold getCellColor, getRangeLabel.
  rewrite (rangesOf_default cfg Hcfg).
  unfold findRange, defaultRanges. cbn [List.find min max].
  destruct (Z.eqb_spec wordCount 0) as [->|Hz]; [done|].
  replace ((0 <=? wordCount) && (wordCount <=? 0)) with false; cycle 1.
  { symmetry. apply andb_false_iff. rewrite !Z.leb_gt. lia. }
  repeat match goal with
         | |- context [(?a <=? wordCount) && (wordCount <=? ?b)] =>
             destruct ((a <=? wordCount) && (wordCount <=? b)); [done|]
         end.
  done.
Qed.

(** X30.  Whatever the colour ranges, the colour and the label of a day
    come from the same range, the first one in the list that holds the
    count; a later range that holds it as well is never used. *)
Theorem getCellColor_first_match (cfg : option (list ColorRange))
    (wordCount : Z) (before after : list ColorRange) (range : ColorRange) :
  rangesOf cfg = before ++ range :: after →
  min range ≤ wordCount ≤ max range →
  Forall (λ r, ¬ (min r ≤ wordCount ≤ max r)) before →
  getCellColor cfg wordCount = color range
  ∧ getRangeLabel cfg wordCount = label range.
Proof.
  intros Hcfg Hin Hbefore. unfold getCellColor, getRangeLabel.
  rewrite Hcfg.
  assert (Hfind : findRange (before ++ range :: after) wordCount = Some range).
  { unfold findRange. clear Hcfg.
    induction Hbefore as [|r before Hr Hbefore IH]; cbn [app List.find].
    - replace ((min range <=? wordCount) && (wordCount <=? max range))
        with true; [done|].
      symmetry. apply andb_true_iff. rewrite !Z.leb_le. lia.
    - replace ((min r <=? wordCount) && (wordCount <=? max r)) with false;
        [done|].
      symmetry. apply andb_false_iff. rewrite !Z.leb_gt. lia. }
  by rewrite Hfind.
Qed.

End HeatmapFacts.

(** * The theorems at sample inputs *)

Lemma countCharacters_roman_word_letter_witness :
  trackEnglish defaultSettings = true
  ∧ showWordCount defaultSettings = true
  ∧ TextAnalyzer.countCharacters defaultSettings (Js.str "III")
    = Some TextAnalyzer.zeroCounts.
Proof.
  split; [reflexivity|]. split; [reflexivity|].
  exact (proj1 (countCharacters_roman_word_letter defaultSettings
                  eq_refl eq_refl)).
Defined.

Lemma updateStreakData_transition_witness :
  lastDate sampleStreak ≠ ""
  ∧ IsoDate.getTime (VStr (lastDate sampleStreak)) = Some (19723 * msPerDay)
  ∧ IsoDate.getTime (VStr "2024-01-02") = Some (19724 * msPerDay)
  ∧ IsoDate.getTime (VStr "2024-01-10") = Some (19732 * msPerDay)
  ∧ StatsManager.updateStreakData IsoDate.getTime sampleStreak "2024-01-02"
    = {| current := 3; longest := 5; lastDate := "2024-01-02" |}
  ∧ StatsManager.updateStreakData IsoDate.getTime sampleStreak "2024-01-10"
    = {| current := 1; longest := 5; lastDate := "2024-01-10" |}.
Proof.
  assert (Hne : lastDate sampleStreak ≠ "") by discriminate.
  assert (H1 : IsoDate.getTime (VStr (lastDate sampleStreak))
               = Some (19723 * msPerDay)) by reflexivity.
  assert (H2 : IsoDate.getTime (VStr "2024-01-02") = Some (19724 * msPerDay))
    by reflexivity.
  assert (H10 : IsoDate.getTime (VStr "2024-01-10") = Some (19732 * msPerDay))
    by reflexivity.
  split; [exact Hne|]. split; [exact H1|]. split; [exact H2|].
  split; [exact H10|]. split.
  - exact (proj1 (proj2 (updateStreakData_transition IsoDate.getTime
                           sampleStreak "2024-01-02") _ _ Hne H1 H2)
             eq_refl).
  - exact (proj1 (proj2 (proj2 (updateStreakData_transition IsoDate.getTime
                                  sampleStreak "2024-01-10") _ _ Hne H1 H10))
             eq_refl).
Defined.

Lemma streak_invariant_witness :
  streakReachable IsoDate.getTime
    (StatsManager.updateStreakData IsoDate.getTime
       StatsManager.initialStreak "2024-01-01")
  ∧ streakInv
      (StatsManager.updateStreakData IsoDate.getTime
         (StatsManager.updateStreakData IsoDate.getTime
            StatsManager.initialStreak "2024-01-01") "2024-01-10").
Proof.
  assert (Hr : streakReachable IsoDate.getTime
                 (StatsManager.updateStreakData IsoDate.getTime
                    StatsManager.initialStreak "2024-01-01"))
    by (apply reach_advance, reach_initial).
  split; [exact Hr|].
  exact (proj1 (proj2 (proj2 (streak_invariant IsoDate.getTime _ Hr)))
           "2024-01-10").
Defined.

Lemma charChanges_window_witness :
  sampleCalls ≠ []
  ∧ Forall (λ c, uc_today c = "2024-01-02") sampleCalls
  ∧ length sampleCalls = 105%nat
  ∧ ∃ d, StatsManager.dailyStats
           (runUpdates IsoDate.getTime (StatsManager.new defaultSettings)
              sampleCalls) !! "2024-01-02" = Some d
         ∧ charChanges d = drop 5 (map (changeOf defaultSettings) sampleCalls)
         ∧ length (charChanges d) = 100%nat.
Proof.
  assert (Hne : sampleCalls ≠ []) by discriminate.
  assert (Hall : Forall (λ c, uc_today c = "2024-01-02") sampleCalls).
  { apply Forall_fmap, Forall_forall. intros i _. reflexivity. }
  assert (Hlen : length sampleCalls = 105%nat) by reflexivity.
  split; [exact Hne|]. split; [exact Hall|]. split; [exact Hlen|].
  destruct (proj2 (proj2 (charChanges_window IsoDate.getTime sampleCalls))
              (StatsManager.new defaultSettings) "2024-01-02" Hne Hall)
    as (d & Hd & Hlog & Hfull).
  exists d. split; [exact Hd|]. split; [exact Hlog|].
  apply Hfull. rewrite length_app, length_map, Hlen. cbn. lia.
Defined.


Lemma code_copied_by_scan_removed_by_regex_witness :
  Forall codeChar (Js.str "x = 1")
  ∧ Forall noTickNoHyphen (Js.str "x = 1")
  ∧ codeDelimited false sampleDoc
  ∧ WordCountPlugin.preprocessText 7 (Js.str "```x = 1```")
    = Some (WordCountPlugin.cleanUp (Js.str "x = 1"))
  ∧ TextAnalyzer.preprocessText (Js.str "```x = 1```") = []
  ∧ TextAnalyzer.preprocessText (docText sampleDoc)
    = TextAnalyzer.preprocessText (withoutCode sampleDoc).
Proof.
  assert (Hc : Forall codeChar (Js.str "x = 1")).
  { let l := eval vm_compute in (Js.str "x = 1") in
    change (Js.str "x = 1") with l.
    repeat (apply Forall_cons_2; [split; discriminate|]). apply Forall_nil_2. }
  assert (Hn : Forall noTickNoHyphen (Js.str "x = 1")).
  { let l := eval vm_compute in (Js.str "x = 1") in
    change (Js.str "x = 1") with l.
    repeat (apply Forall_cons_2; [split; discriminate|]). apply Forall_nil_2. }
  assert (Hd : codeDelimited false sampleDoc).
  { let d := eval vm_compute in sampleDoc in change sampleDoc with d.
    cbn [codeDelimited].
    repeat first
      [ split
      | reflexivity
      | discriminate
      | apply Forall_nil_2
      | apply Forall_cons_2
      | exact I ]. }
  split; [exact Hc|]. split; [exact Hn|]. split; [exact Hd|].
  pose proof (code_copied_by_scan_removed_by_regex (Js.str "x = 1"))
    as (_ & _ & Hscan & Hregex & Hdoc).
  split; [|split].
  - exact (proj1 (Hscan Hc 0%nat)).
  - exact (proj1 (Hregex Hn)).
  - exact (Hdoc sampleDoc Hd).
Defined.


Lemma updateSettings_frame_witness :
  StatsManager.dailyStats staleManager !! "2024-01-01" = Some staleStats
  ∧ ∃ d', StatsManager.dailyStats
            (StatsManager.updateSettings staleManager defaultSettings)
            !! "2024-01-01" = Some d'
          ∧ total d' = 5 ∧ chinese d' = 5 ∧ completed d' = true.
Proof.
  assert (Hd : StatsManager.dailyStats staleManager !! "2024-01-01"
               = Some staleStats) by reflexivity.
  split; [exact Hd|].
  destruct (proj2 (updateSettings_frame staleManager defaultSettings
                     "2024-01-01") staleStats Hd)
    as (d' & Hd' & _ & Hc & _ & _ & _ & _ & _ & Ht & _ & _ & Hdone & _).
  exists d'. split; [exact Hd'|]. split; [exact Ht|].
  split; [exact Hc|exact Hdone].
Defined.

Lemma updateStreakData_backwards_witness :
  lastDate sampleStreak ≠ ""
  ∧ StatsManager.diffDays IsoDate.getTime (lastDate sampleStreak) "2023-12-31"
    = Some (-1)
  ∧ -1 < 0
  ∧ StatsManager.updateStreakData IsoDate.getTime sampleStreak "2023-12-31"
    = sampleStreak.
Proof.
  assert (Hne : lastDate sampleStreak ≠ "") by discriminate.
  assert (Hd : StatsManager.diffDays IsoDate.getTime (lastDate sampleStreak)
                 "2023-12-31" = Some (-1)) by reflexivity.
  assert (Hneg : -1 < 0) by reflexivity.
  split; [exact Hne|]. split; [exact Hd|]. split; [exact Hneg|].
  exact (proj1 (updateStreakData_backwards IsoDate.getTime sampleStreak
                  "2023-12-31" (-1) Hne Hd Hneg)).
Defined.

(** * The further theorems at sample inputs *)

Lemma cache_get_after_set_witness :
  1000 - 0 ≤ CONSTANTS.CACHE_TTL
  ∧ CacheService.get (CacheService.set (T := Z) ∅ "k" 7 0 0) "k" 1000
    = (CacheService.set ∅ "k" 7 0 0, Some 7).
Proof.
  assert (H : 1000 - 0 ≤ CONSTANTS.CACHE_TTL)
    by (unfold CONSTANTS.CACHE_TTL; lia).
  split; [exact H|].
  exact (proj1 (cache_get_after_set ∅ "k" 7 0 0 1000 H)).
Defined.

Lemma cache_entry_expires_witness :
  CONSTANTS.CACHE_TTL < 300001 - 0
  ∧ CacheService.get (CacheService.set (T := Z) ∅ "k" 7 600000 0) "k" 300001
    = (CacheService.delete ∅ "k", None).
Proof.
  assert (H : CONSTANTS.CACHE_TTL < 300001 - 0)
    by (unfold CONSTANTS.CACHE_TTL; lia).
  split; [exact H|].
  exact (proj1 (cache_entry_expires ∅ "k" 7 600000 0 300001 H)).
Defined.

Lemma cache_cleanup_witness :
  0 ≤ 5
  ∧ CacheService.get (CacheService.cleanup sampleCache 5) "k" 0
    = (CacheService.cleanup sampleCache 5,
       CacheService.value <$> CacheService.cleanup sampleCache 5 !! "k").
Proof.
  assert (H : 0 ≤ 5) by lia.
  split; [exact H|].
  exact (proj1 (proj2 (proj2 (cache_cleanup sampleCache 5 "k")) 0 H)).
Defined.

Lemma cache_read_frame_witness :
  "b" ≠ "k"
  ∧ (CacheService.get sampleCache "k" 0).1 !! "b" = sampleCache !! "b".
Proof.
  assert (H : "b" ≠ "k") by discriminate.
  split; [exact H|].
  exact (proj1 (cache_read_frame sampleCache "k" 0) "b" H).
Defined.

Lemma updateWordCount_reads_cache_witness :
  enableCache (Main.settings samplePlugin) = true
  ∧ extension sampleFile = "md"
  ∧ (CacheService.has (Main.cacheService samplePlugin)
       ("file_" +:+ path sampleFile) 0).2 = false
  ∧ 1000 - 0 ≤ CONSTANTS.CACHE_TTL
  ∧ Main.cacheService
      (Main.updateWordCount IsoDate.getTime samplePlugin (Some sampleFile)
         (Some (Js.str "one two")) 0 0 0 "2024-01-02" sampleNow true).1
      !! ("file_" +:+ path sampleFile)
    = Some {| CacheService.value := Js.str "one two";
              CacheService.timestamp := 0 |}.
Proof.
  assert (Hon : enableCache (Main.settings samplePlugin) = true)
    by reflexivity.
  assert (Hmd : extension sampleFile = "md") by reflexivity.
  assert (Hmiss : (CacheService.has (Main.cacheService samplePlugin)
                     ("file_" +:+ path sampleFile) 0).2 = false)
    by reflexivity.
  assert (Hlive : 1000 - 0 ≤ CONSTANTS.CACHE_TTL)
    by (unfold CONSTANTS.CACHE_TTL; lia).
  split; [exact Hon|]. split; [exact Hmd|]. split; [exact Hmiss|].
  split; [exact Hlive|].
  exact (proj1 (updateWordCount_reads_cache IsoDate.getTime samplePlugin
                  sampleFile (Js.str "one two") 0 0 0 1000 1000 0 sampleNow
                  sampleNow "2024-01-02" "2024-01-02" true true
                  Hon Hmd Hmiss Hlive Hlive)).
Defined.

Lemma updateWordCount_after_expiry_witness :
  enableCache (Main.settings staleCachePlugin) = true
  ∧ extension sampleFile = "md"
  ∧ Main.cacheService staleCachePlugin !! ("file_" +:+ path sampleFile)
    = Some {| CacheService.value := Js.str "old text";
              CacheService.timestamp := 0 |}
  ∧ CONSTANTS.CACHE_TTL < 300001 - 0
  ∧ Main.cacheService
      (Main.updateWordCount IsoDate.getTime staleCachePlugin (Some sampleFile)
         (Some (Js.str "new text")) 300001 300001 300002 "2024-01-02"
         sampleNow true).1
      !! ("file_" +:+ path sampleFile)
    = Some {| CacheService.value := Js.str "new text";
              CacheService.timestamp := 300002 |}.
Proof.
  assert (Hon : enableCache (Main.settings staleCachePlugin) = true)
    by reflexivity.
  assert (Hmd : extension sampleFile = "md") by reflexivity.
  assert (Hitem : Main.cacheService staleCachePlugin
                    !! ("file_" +:+ path sampleFile)
                  = Some {| CacheService.value := Js.str "old text";
                            CacheService.timestamp := 0 |})
    by reflexivity.
  assert (Hdead : CONSTANTS.CACHE_TTL < 300001 - 0)
    by (unfold CONSTANTS.CACHE_TTL; lia).
  split; [exact Hon|]. split; [exact Hmd|]. split; [exact Hitem|].
  split; [exact Hdead|].
  exact (proj1 (updateWordCount_after_expiry IsoDate.getTime staleCachePlugin
                  sampleFile _ (Js.str "new text") 300001 300001 300002
                  sampleNow "2024-01-02" true Hon Hmd Hitem Hdead)).
Defined.


Lemma getDaysDifference_backwards_witness :
  IsoDate.getTime (VStr "2024-01-01") = Some (19723 * msPerDay)
  ∧ IsoDate.getTime (VStr "2024-01-02") = Some (19724 * msPerDay)
  ∧ helpers.getDaysDifference IsoDate.getTime "2024-01-01" "2024-01-02"
    = Some 1
  ∧ helpers.getDaysDifference IsoDate.getTime "2024-01-02" "2024-01-01"
    = Some (-1).
Proof.
  assert (H1 : IsoDate.getTime (VStr "2024-01-01") = Some (19723 * msPerDay))
    by reflexivity.
  assert (H2 : IsoDate.getTime (VStr "2024-01-02") = Some (19724 * msPerDay))
    by reflexivity.
  split; [exact H1|]. split; [exact H2|].
  destruct (getDaysDifference_backwards IsoDate.getTime
              "2024-01-01" "2024-01-02" _ _ H1 H2)
    as (d & Hd & _ & _ & Hone & Hexact & _).
  assert (Hsmall : Z.abs (19724 * msPerDay - 19723 * msPerDay) < 2 ^ 53)
    by reflexivity.
  split.
  - rewrite Hd. f_equal. apply Hone. split; [discriminate|reflexivity].
  - exact (proj2 (Hexact Hsmall)).
Defined.

Lemma validateFileName_accepts_witness :
  forallb Js.isSpace (Js.str "  ") = true
  ∧ validators.validateFileName (Js.str "  ")
    = validators.invalid "文件名不能为空".
Proof.
  assert (H : forallb Js.isSpace (Js.str "  ") = true) by reflexivity.
  split; [exact H|].
  exact (proj2 (validateFileName_accepts (Js.str "  ")) H).
Defined.

Lemma validateStats_accepts_witness :
  validators.isValid (validators.validateStats sampleStored) = true
  ∧ ∃ fields, sampleStored = VObj fields ∧ is_Some (fields !! "date").
Proof.
  assert (H : validators.isValid (validators.validateStats sampleStored)
              = true) by (vm_compute; reflexivity).
  split; [exact H|].
  destruct (proj1 (validateStats_accepts sampleStored) H)
    as (fields & Heq & Hd & _).
  exists fields. split; [exact Heq|exact Hd].
Defined.

Lemma validateStats_accepted_loads_witness :
  validators.isValid (validators.validateStats sampleStored) = true
  ∧ ∃ fields item,
      sampleStored = VObj fields
      ∧ StatsManager.validateItem sampleStored = Some item
      ∧ StatsManager.v_goal item = 0.
Proof.
  assert (H : validators.isValid (validators.validateStats sampleStored)
              = true) by (vm_compute; reflexivity).
  split; [exact H|].
  destruct (validateStats_accepted_loads sampleStored H)
    as (fields & item & Heq & Hitem & _ & _ & _ & Hgoal).
  exists fields, item. split; [exact Heq|]. split; [exact Hitem|exact Hgoal].
Defined.

Lemma countCharacters_respects_toggles_witness :
  trackSpaces defaultSettings = false
  ∧ ∃ r, TextAnalyzer.countCharacters defaultSettings (Js.str "a b") = Some r
         ∧ r_spaces r = 0.
Proof.
  assert (H : trackSpaces defaultSettings = false) by reflexivity.
  split; [exact H|].
  destruct (countCharacters_respects_toggles defaultSettings (Js.str "a b"))
    as (r & Hr & _ & _ & _ & _ & Hs & _).
  exists r. split; [exact Hr|exact (Hs H)].
Defined.

Lemma countCharacters_ascii_as_chinese_witness :
  trackChinese noNumbers = true
  ∧ Forall (fallsToChinese noNumbers) (Js.str "2024")
  ∧ TextAnalyzer.countCharacters noNumbers (Js.str "2024")
    = Some (onlyChinese 4).
Proof.
  assert (Hc : trackChinese noNumbers = true) by reflexivity.
  assert (Hall : Forall (fallsToChinese noNumbers) (Js.str "2024")).
  { let l := eval vm_compute in (Js.str "2024") in
    change (Js.str "2024") with l.
    repeat (apply Forall_cons_2;
            [split; [lia|split; [discriminate|intros _; lia]]|]).
    apply Forall_nil_2. }
  split; [exact Hc|]. split; [exact Hall|].
  exact (countCharacters_ascii_as_chinese noNumbers (Js.str "2024") Hc Hall).
Defined.

Lemma calculateSimpleWordCount_spaces_witness :
  TextAnalyzer.preprocessText (Js.str "# a b") ≠ []
  ∧ filter (λ word, (0 < length word)%nat)
      (Js.split (TextAnalyzer.preprocessText (Js.str "# a b")) 32)
    = Js.split (TextAnalyzer.preprocessText (Js.str "# a b")) 32.
Proof.
  assert (H : TextAnalyzer.preprocessText (Js.str "# a b") ≠ [])
    by (vm_compute; discriminate).
  split; [exact H|].
  exact (proj2 (calculateSimpleWordCount_spaces (Js.str "# a b")) H).
Defined.

Lemma countCharacters_app_witness :
  noWordAcross (Js.str "ab ") (Js.str "ef")
  ∧ TextAnalyzer.countCharacters defaultSettings (Js.str "ab ")
    = Some (lettersAndWords 2 1)
  ∧ TextAnalyzer.countCharacters defaultSettings (Js.str "ef")
    = Some (lettersAndWords 2 1)
  ∧ TextAnalyzer.countCharacters defaultSettings
      (Js.str "ab " ++ Js.str "ef")
    = Some (addCounts (lettersAndWords 2 1) (lettersAndWords 2 1)).
Proof.
  assert (Hab : noWordAcross (Js.str "ab ") (Js.str "ef")).
  { intros Hl. vm_compute in Hl. discriminate Hl. }
  assert (Ha : TextAnalyzer.countCharacters defaultSettings (Js.str "ab ")
               = Some (lettersAndWords 2 1)) by (vm_compute; reflexivity).
  assert (Hb : TextAnalyzer.countCharacters defaultSettings (Js.str "ef")
               = Some (lettersAndWords 2 1)) by (vm_compute; reflexivity).
  split; [exact Hab|]. split; [exact Ha|]. split; [exact Hb|].
  exact (countCharacters_app defaultSettings _ _ _ _ Hab Ha Hb).
Defined.

Lemma wellKeyed_invariant_witness :
  wellKeyed (StatsManager.new defaultSettings)
  ∧ wellKeyed
      (StatsManager.updateWordCount IsoDate.getTime
         (StatsManager.new defaultSettings) "2024-01-02" sampleNow "note.md"
         sampleResult true).1.
Proof.
  pose proof (wellKeyed_invariant IsoDate.getTime Zone.utc)
    as (Hnew & _ & Hup & _).
  split; [exact (Hnew defaultSettings)|].
  exact (Hup _ "2024-01-02" sampleNow "note.md" sampleResult true
           (Hnew defaultSettings)).
Defined.

Lemma loadData_unusable_witness :
  (VNull ∈ [VNull] ∨ VUndefined ∈ [VNull])
  ∧ StatsManager.loadData IsoDate.getTime Zone.utc staleManager sampleNow
      (VArr [VNull])
    = StatsManager.LoadThrew staleManager.
Proof.
  assert (H : VNull ∈ [VNull] ∨ VUndefined ∈ [VNull])
    by (left; apply list_elem_of_here).
  split; [exact H|].
  exact (proj1 (proj2 (loadData_unusable IsoDate.getTime Zone.utc
                         staleManager sampleNow)) [VNull] H).
Defined.

Lemma save_load_round_trip_witness :
  (∀ k d, marchStats !! k = Some d → date d = k)
  ∧ StatsManager.loadData IsoDate.getTime Zone.newYork
      (StatsManager.new defaultSettings) marchClock (storedMap marchStats)
    = StatsManager.Loaded
        {| StatsManager.dailyStats :=
             withoutGoal
               <$> filter (λ kd, dateInWindow IsoDate.getTime Zone.newYork
                                   marchClock kd.2 = true) marchStats;
           StatsManager.streakData := StatsManager.initialStreak;
           StatsManager.settings := defaultSettings |}.
Proof.
  assert (Hkey : ∀ k d, marchStats !! k = Some d → date d = k).
  { intros k d Hd. unfold marchStats in Hd.
    apply lookup_insert_Some in Hd as [[<- <-]|[_ Hd]]; [reflexivity|].
    apply lookup_singleton_Some in Hd as [<- <-]. reflexivity. }
  split; [exact Hkey|].
  exact (save_load_round_trip IsoDate.getTime Zone.newYork
           (StatsManager.new defaultSettings) _ marchClock Hkey).
Defined.

Lemma streak_consecutive_days_witness :
  "2024-01-01" ≠ ""
  ∧ consecutive IsoDate.getTime "2024-01-01" ["2024-01-02"; "2024-01-03"]
  ∧ foldl (StatsManager.updateStreakData IsoDate.getTime)
      StatsManager.initialStreak ["2024-01-01"; "2024-01-02"; "2024-01-03"]
    = {| current := 3; longest := 3; lastDate := "2024-01-03" |}.
Proof.
  assert (Hday : "2024-01-01" ≠ "") by discriminate.
  assert (Hcons : consecutive IsoDate.getTime "2024-01-01"
                    ["2024-01-02"; "2024-01-03"]).
  { split; [discriminate|]. split; [reflexivity|].
    split; [discriminate|]. split; [reflexivity|exact I]. }
  split; [exact Hday|]. split; [exact Hcons|].
  exact (proj1 (streak_consecutive_days IsoDate.getTime "2024-01-01"
                  ["2024-01-02"; "2024-01-03"] Hday Hcons)).
Defined.

Lemma streak_longest_monotone_witness :
  IsoDate.getTime (VStr "") = None
  ∧ streakReachable IsoDate.getTime StatsManager.initialStreak
  ∧ longest StatsManager.initialStreak
    ≤ longest (StatsManager.updateStreakData IsoDate.getTime
                 StatsManager.initialStreak "2024-01-01").
Proof.
  assert (Hempty : IsoDate.getTime (VStr "") = None) by reflexivity.
  assert (Hr : streakReachable IsoDate.getTime StatsManager.initialStreak)
    by apply reach_initial.
  split; [exact Hempty|]. split; [exact Hr|].
  exact (proj1 (streak_longest_monotone IsoDate.getTime _ "2024-01-01"
                  Hempty Hr)).
Defined.

Lemma legacy_english_counts_words_witness :
  showWordCount defaultSettings = true
  ∧ ∃ r, WordCountPlugin.countCharacters defaultSettings (Js.str "ab ef")
         = Some r
         ∧ r_english r = r_words r.
Proof.
  assert (H : showWordCount defaultSettings = true) by reflexivity.
  split; [exact H|].
  destruct (legacy_english_counts_words defaultSettings (Js.str "ab ef"))
    as (r & Hr & _ & Hon & _).
  exists r. split; [exact Hr|exact (Hon H)].
Defined.

Lemma preprocessText_quote_never_returns_witness :
  Forall ordinary [97; 10]
  ∧ ([97; 10] = [] ∨ last [97; 10] = Some 10)
  ∧ WordCountPlugin.preprocessText 100 ([97; 10] ++ 62 :: Js.str " b") = None.
Proof.
  assert (Hpre : Forall ordinary [97; 10]).
  { repeat (apply Forall_cons_2;
            [unfold ordinary; apply (bool_decide_unpack _); vm_compute; exact I|]).
    apply Forall_nil_2. }
  assert (Hlast : [97; 10] = [] ∨ last [97; 10] = Some 10)
    by (right; reflexivity).
  split; [exact Hpre|]. split; [exact Hlast|].
  exact (proj1 (preprocessText_quote_never_returns [97; 10] (Js.str " b") 100
                  Hpre Hlast)).
Defined.

Lemma preprocessText_returns_without_quote_witness :
  Forall (λ x, x ≠ 62) (Js.str "# a")
  ∧ is_Some (WordCountPlugin.preprocessText (length (Js.str "# a"))
               (Js.str "# a")).
Proof.
  assert (Hall : Forall (λ x, x ≠ 62) (Js.str "# a")).
  { let l := eval vm_compute in (Js.str "# a") in
    change (Js.str "# a") with l.
    repeat (apply Forall_cons_2; [discriminate|]). apply Forall_nil_2. }
  split; [exact Hall|].
  exact (preprocessText_returns_without_quote (Js.str "# a") Hall).
Defined.

Lemma getCellColor_default_ranges_witness :
  (@None (list HeatmapComponent.ColorRange) = None
   ∨ @None (list HeatmapComponent.ColorRange) = Some [])
  ∧ (HeatmapComponent.getCellColor None 1000000,
     HeatmapComponent.getRangeLabel None 1000000)
    = ("#f0f9f0", "无写作").
Proof.
  assert (H : @None (list HeatmapComponent.ColorRange) = None
              ∨ @None (list HeatmapComponent.ColorRange) = Some [])
    by (left; reflexivity).
  split; [exact H|].
  exact (getCellColor_default_ranges None 1000000 H).
Defined.

Lemma getCellColor_first_match_witness :
  HeatmapComponent.rangesOf (Some sampleRanges)
  = [] ++ {| HeatmapComponent.min := 0; HeatmapComponent.max := 500;
            HeatmapComponent.color := "#111111";
            HeatmapComponent.label := "low" |}
       :: [ {| HeatmapComponent.min := 100; HeatmapComponent.max := 900;
               HeatmapComponent.color := "#222222";
               HeatmapComponent.label := "high" |} ]
  ∧ 0 ≤ 300 ≤ 500
  ∧ HeatmapComponent.getCellColor (Some sampleRanges) 300 = "#111111"
  ∧ HeatmapComponent.getRangeLabel (Some sampleRanges) 300 = "low".
Proof.
  assert (Hcfg : HeatmapComponent.rangesOf (Some sampleRanges)
            = [] ++ {| HeatmapComponent.min := 0; HeatmapComponent.max := 500;
                       HeatmapComponent.color := "#111111";
                       HeatmapComponent.label := "low" |}
                 :: [ {| HeatmapComponent.min := 100;
                         HeatmapComponent.max := 900;
                         HeatmapComponent.color := "#222222";
                         HeatmapComponent.label := "high" |} ])
    by reflexivity.
  assert (Hin : 0 ≤ 300 ≤ 500) by lia.
  split; [exact Hcfg|]. split; [exact Hin|].
  exact (getCellColor_first_match (Some sampleRanges) 300 [] _ _ Hcfg Hin
           (Forall_nil_2 _)).
Defined.
